(** * The x86 video capture-and-encode pipeline (package native, linux/amd64)

    A shallow embedding of the ffmpeg-backed video backend: the
    configuration resolver [videoInit], the backend selector
    [buildFFmpegArgs], the subprocess supervisor [videoStart] / [videoStop],
    the Annex-B stream framer ([indexAUD] and the stdout reader loop) and the
    quality controller [videoSetStreamQualityFactor].

    Conventions.
    - Go [int] values are [Z]; byte slices are [list byte]; Go strings are
      [string]; [float64] values are [spec_float] at precision 53 and
      maximal exponent 1024 (IEEE-754 binary64).
    - The package-level variables form the record [Pipeline]; every
      operation is a function from [Pipeline] to [Pipeline].
    - What the operating system answers (does a path exist, does the pipe
      open, does the process spawn) is an explicit argument of the operation
      that asks.
    - Everything the backend sends outwards (log messages, state snapshots,
      frames, process control) is appended to lists held in the record, in
      the order in which the code sends it.

    Two more parts of the repository follow the pipeline: the uinput
    keyboard backend of internal/uinput ([KeypressReport],
    [KeyboardReport], [updateKeysDown], [NewUInputBackend], [Close] and the
    two key maps) and the reader of the ATX extension on the serial port
    ([runATXControl]). *)

From Stdlib Require Import ZArith Bool Ascii String SpecFloat DecimalString QArith Qround.
From Stdlib.Strings Require Import Byte.
From stdpp Require Import base tactics option list strings gmap.

Local Open Scope string_scope.
Local Open Scope list_scope.
Local Open Scope Z_scope.

(* ===================================================================== *)
(** * Byte slices *)
(* ===================================================================== *)

#[global] Instance byte_eq_dec : EqDecision byte := Byte.byte_eq_dec.

(** [len(b)] as a Go [int]. *)
Definition len {A} (l : list A) : Z := Z.of_nat (length l).

(** [b[i:]] and [b[:i]] for [0 <= i <= len(b)]. *)
Definition slice_from {A} (i : Z) (b : list A) : list A := drop (Z.to_nat i) b.
Definition slice_to {A} (i : Z) (b : list A) : list A := take (Z.to_nat i) b.

(** [b[i]] for [0 <= i < len(b)]; the default is never read in range. *)
Definition byte_at (b : list byte) (i : Z) : byte :=
  default x00 (b !! Z.to_nat i).

(** [bytes.HasPrefix]. *)
Fixpoint has_prefix (s sep : list byte) : bool :=
  match sep, s with
  | [], _ => true
  | _ :: _, [] => false
  | y :: sep', x :: s' => bool_decide (x = y) && has_prefix s' sep'
  end.

(** [bytes.Index(s, sep)]: offset of the first occurrence of [sep] in [s],
    or [-1]. *)
Fixpoint bytes_Index (s sep : list byte) : Z :=
  if has_prefix s sep then 0
  else match s with
       | [] => -1
       | _ :: s' =>
           let r := bytes_Index s' sep in
           if r <? 0 then -1 else r + 1
       end.

(* ===================================================================== *)
(** * The boundary scan [indexAUD] *)
(* ===================================================================== *)

(** The 4-byte Annex-B start marker of the reader loop. *)
Definition startCode : list byte := [x00; x00; x00; x01].

(** [h & 0x1F == 9]: the NAL unit type is the access-unit delimiter. *)
Definition is_aud (h : byte) : bool :=
  N.eqb (N.land (Byte.to_N h) 31) 9.

(** One turn of the [for i := 0; ; ] loop of [indexAUD]: either the function
    returns, or the loop goes on from a new scan position. *)
Variant scan := Return (r : Z) | Continue (i : Z).

Definition indexAUD_body (b sc : list byte) (i : Z) : scan :=
  let j := bytes_Index (slice_from i b) sc in
  if j <? 0 then Return (-1)
  else
    let pos := i + j in
    if (pos + len sc <? len b) && is_aud (byte_at b (pos + len sc))
    then Return pos
    else
      let i' := pos + len sc in
      if i' >=? len b then Return (-1) else Continue i'.

(** The loop, with a bound on the number of turns; [None] is "still
    running after [fuel] turns". *)
Fixpoint indexAUD_loop (fuel : nat) (b sc : list byte) (i : Z) : option Z :=
  match fuel with
  | O => None
  | S fuel' =>
      match indexAUD_body b sc i with
      | Return r => Some r
      | Continue i' => indexAUD_loop fuel' b sc i'
      end
  end.

(** [indexAUD(b, sc)].  [len b + 1] turns always suffice for a non-empty
    [sc] (lemma [indexAUD_loop_total]), so the default is not reached. *)
Definition indexAUD (b sc : list byte) : Z :=
  default (-1) (indexAUD_loop (S (length b)) b sc 0).


(* ===================================================================== *)
(** * Go values used by the backend *)
(* ===================================================================== *)

(** ** float64 *)

(** IEEE-754 binary64: 53 bits of precision, exponents below 1024. *)
Abbreviation float64 := spec_float (only parsing).

Definition f64_lt (x y : float64) : bool := SFltb x y.
Definition f64_le (x y : float64) : bool := SFleb x y.
Definition f64_mul (x y : float64) : float64 := SFmul 53 1024 x y.

(** The literals of the source: mantissa [2^52] at the exponent of the
    value. *)
Definition f64_0_5 : float64 := S754_finite false 4503599627370496 (-53).
Definition f64_1_0 : float64 := S754_finite false 4503599627370496 (-52).
Definition f64_2_0 : float64 := S754_finite false 4503599627370496 (-51).
Definition f64_4_0 : float64 := S754_finite false 4503599627370496 (-50).

Definition min_int64 : Z := - 2 ^ 63.
Definition max_int64 : Z := 2 ^ 63 - 1.

(** The conversion [int(f)]: the fraction is discarded (truncation towards
    zero).  For a NaN, an infinity or a value outside [int64] the language
    leaves the result to the implementation; on amd64, the only target of
    this file (build tag [linux && amd64]), the conversion instruction
    yields the smallest [int64]. *)
Definition int_of_float64 (f : float64) : Z :=
  match f with
  | S754_zero _ => 0
  | S754_finite s m e =>
      let mag := if 0 <=? e then Z.shiftl (Zpos m) e
                 else Z.shiftr (Zpos m) (- e) in
      let v := if s then - mag else mag in
      if (min_int64 <=? v) && (v <=? max_int64) then v else min_int64
  | S754_infinity _ | S754_nan => min_int64
  end.

(** The conversion [float64(n)] (round to nearest, ties to even). *)
Definition float64_of_int (n : Z) : float64 := binary_normalize 53 1024 n 0 false.

(** ** Strings *)


(** [strconv.Itoa]. *)
Definition Itoa (n : Z) : string := NilZero.string_of_int (Z.to_int n).

(** The functions of the Go standard library that [videoInit] applies to
    the values of environment variables.  They are an interface here: the
    backend is verified against every implementation, and [ascii_golib]
    below is one to compute with. *)
Class GoLib := {
  TrimSpace : string -> string;          (* strings.TrimSpace *)
  ToLower : string -> string;            (* strings.ToLower *)
  Atoi : string -> option Z              (* strconv.Atoi; [None] is err != nil *)
}.

Definition is_ascii_space (c : ascii) : bool :=
  let n := N_of_ascii c in
  ((9 <=? n) && (n <=? 13) || (n =? 32))%N.

Fixpoint trim_left (s : string) : string :=
  match s with
  | String c s' => if is_ascii_space c then trim_left s' else s
  | EmptyString => EmptyString
  end.

Fixpoint trim_right (s : string) : string :=
  match s with
  | String c s' =>
      match trim_right s' with
      | EmptyString => if is_ascii_space c then EmptyString else String c EmptyString
      | t => String c t
      end
  | EmptyString => EmptyString
  end.

Definition ascii_lower (c : ascii) : ascii :=
  let n := N_of_ascii c in
  if ((65 <=? n) && (n <=? 90))%N then ascii_of_N (n + 32) else c.

Fixpoint map_string (f : ascii -> ascii) (s : string) : string :=
  match s with
  | String c s' => String (f c) (map_string f s')
  | EmptyString => EmptyString
  end.

Fixpoint digits_value (acc : Z) (s : string) : option Z :=
  match s with
  | EmptyString => Some acc
  | String c s' =>
      let n := Z.of_N (N_of_ascii c) in
      if (48 <=? n) && (n <=? 57) then digits_value (10 * acc + (n - 48)) s'
      else None
  end.

Definition in_int64 (v : Z) : option Z :=
  if (min_int64 <=? v) && (v <=? max_int64) then Some v else None.

Definition ascii_atoi (s : string) : option Z :=
  match s with
  | EmptyString => None
  | String "+" (String c r) => digits_value 0 (String c r) ≫= in_int64
  | String "-" (String c r) =>
      digits_value 0 (String c r) ≫= (fun v => in_int64 (- v))
  | _ => digits_value 0 s ≫= in_int64
  end.

(** The library on ASCII text. *)
Definition ascii_golib : GoLib := {|
  TrimSpace s := trim_right (trim_left s);
  ToLower := map_string ascii_lower;
  Atoi := ascii_atoi
|}.

(** ** Channels *)

(** Modelled from the spec: the declarations of [logChan],
    [videoStateChan] and [videoFrameChan] are not part of the files at
    hand; the spec has a frame queue and a state queue that the pipeline
    does not own, and the backend tests both for [nil] before it sends.
    A channel is [nil] ([None]) or carries the values sent on it so far,
    oldest first. *)
Definition chan (A : Type) : Type := option (list A).

Definition send {A} (x : A) (c : list A) : list A := c ++ [x].

(** [if c != nil { c <- x }]. *)
Definition send_if_open {A} (x : A) (c : chan A) : chan A :=
  send x <$> c.

(** ** Types declared by the rest of package native *)

(** Modelled from the spec: the declaration of [VideoState] is not part of
    the files at hand; the spec gives it as
    [{ready: bool, errorMessage: string, framesPerSecond: float}] and the
    backend uses the fields [Ready], [Error] and [FramePerSecond]. *)
Record VideoState := mkVideoState {
  Ready : bool;
  Error : string;
  FramePerSecond : float64
}.

(** The zerolog levels the backend logs at. *)
Variant Level := InfoLevel | WarnLevel | ErrorLevel.

(** Modelled from the spec: the declaration of [nativeLogMessage] is not part
    of the files at hand; the backend builds it from a level and a message
    text (a launch failure is "logged"). *)
Record nativeLogMessage := mkLog {
  Level_ : Level;
  Message : string
}.

(** ** The subprocess and the operating system *)

(** [exec.CommandContext(ctx, "ffmpeg", args...)]: the command with the
    execution context it is bound to.  Contexts are numbered in the order
    of their creation. *)
Record Cmd := mkCmd {
  cmd_ctx : nat;
  cmd_path : string;
  cmd_args : list string
}.

(** What [videoStart] can be told when it launches the encoder:
    [cmd.StdoutPipe()] fails, or the pipe opens and [cmd.Start()] fails, or
    the process runs.  The texts are those of the Go errors. *)
Variant launch :=
  | StdoutPipeFails (err : string)
  | StartFails (err : string)
  | Started.

(** What the backend asks of the operating system, in program order. *)
Variant syscall :=
  | SysSpawn (c : Cmd)          (* cmd.Start() returned nil: a child runs *)
  | SysCancel (ctx : nat)       (* the context's cancel function was called *)
  | SysKill (c : Cmd)           (* cmd.Process.Kill() *)
  | SysWait (c : Cmd).          (* cmd.Wait() *)

Definition is_spawn (e : syscall) : bool :=
  match e with SysSpawn _ => true | _ => false end.
Definition is_reap (e : syscall) : bool :=
  match e with SysKill _ | SysWait _ => true | _ => false end.
Definition is_wait (e : syscall) : bool :=
  match e with SysWait _ => true | _ => false end.

(* ===================================================================== *)
(** * The package-level variables *)
(* ===================================================================== *)

Record Pipeline := mkPipeline {
  (* the run handle *)
  ffmpegCmd : option Cmd;
  ffmpegCancel : option nat;
  ffmpegStdout : option nat;
  (* configuration *)
  targetFPS : Z;
  targetBitrate : string;
  videoDevice : string;
  qualityFactor : float64;
  currentState : VideoState;
  hwAccelMode : string;
  vaapiDevice : string;
  (* the channels of package native *)
  logChan : list nativeLogMessage;
  videoStateChan : chan VideoState;
  videoFrameChan : chan (list byte);
  (* the runtime: contexts created so far, and the calls made *)
  contexts : nat;
  sys : list syscall
}.

(** The initial values of the [var] blocks; the channels and the runtime
    are those the rest of the package provides. *)
Definition initial (sc : chan VideoState) (fc : chan (list byte)) : Pipeline := {|
  ffmpegCmd := None;
  ffmpegCancel := None;
  ffmpegStdout := None;
  targetFPS := 30;
  targetBitrate := "4M";
  videoDevice := "/dev/video0";
  qualityFactor := f64_1_0;
  currentState := {| Ready := false; Error := ""; FramePerSecond := S754_zero false |};
  hwAccelMode := "auto";
  vaapiDevice := "/dev/dri/renderD128";
  logChan := [];
  videoStateChan := sc;
  videoFrameChan := fc;
  contexts := 0;
  sys := []
|}.

(** Field updates, one per variable that the code assigns. *)
Definition set_ffmpegCmd (v : option Cmd) (p : Pipeline) : Pipeline :=
  mkPipeline v (ffmpegCancel p) (ffmpegStdout p) (targetFPS p) (targetBitrate p)
    (videoDevice p) (qualityFactor p) (currentState p) (hwAccelMode p)
    (vaapiDevice p) (logChan p) (videoStateChan p) (videoFrameChan p)
    (contexts p) (sys p).
Definition set_ffmpegCancel (v : option nat) (p : Pipeline) : Pipeline :=
  mkPipeline (ffmpegCmd p) v (ffmpegStdout p) (targetFPS p) (targetBitrate p)
    (videoDevice p) (qualityFactor p) (currentState p) (hwAccelMode p)
    (vaapiDevice p) (logChan p) (videoStateChan p) (videoFrameChan p)
    (contexts p) (sys p).
Definition set_ffmpegStdout (v : option nat) (p : Pipeline) : Pipeline :=
  mkPipeline (ffmpegCmd p) (ffmpegCancel p) v (targetFPS p) (targetBitrate p)
    (videoDevice p) (qualityFactor p) (currentState p) (hwAccelMode p)
    (vaapiDevice p) (logChan p) (videoStateChan p) (videoFrameChan p)
    (contexts p) (sys p).
Definition set_targetFPS (v : Z) (p : Pipeline) : Pipeline :=
  mkPipeline (ffmpegCmd p) (ffmpegCancel p) (ffmpegStdout p) v (targetBitrate p)
    (videoDevice p) (qualityFactor p) (currentState p) (hwAccelMode p)
    (vaapiDevice p) (logChan p) (videoStateChan p) (videoFrameChan p)
    (contexts p) (sys p).
Definition set_targetBitrate (v : string) (p : Pipeline) : Pipeline :=
  mkPipeline (ffmpegCmd p) (ffmpegCancel p) (ffmpegStdout p) (targetFPS p) v
    (videoDevice p) (qualityFactor p) (currentState p) (hwAccelMode p)
    (vaapiDevice p) (logChan p) (videoStateChan p) (videoFrameChan p)
    (contexts p) (sys p).
Definition set_videoDevice (v : string) (p : Pipeline) : Pipeline :=
  mkPipeline (ffmpegCmd p) (ffmpegCancel p) (ffmpegStdout p) (targetFPS p)
    (targetBitrate p) v (qualityFactor p) (currentState p) (hwAccelMode p)
    (vaapiDevice p) (logChan p) (videoStateChan p) (videoFrameChan p)
    (contexts p) (sys p).
Definition set_qualityFactor (v : float64) (p : Pipeline) : Pipeline :=
  mkPipeline (ffmpegCmd p) (ffmpegCancel p) (ffmpegStdout p) (targetFPS p)
    (targetBitrate p) (videoDevice p) v (currentState p) (hwAccelMode p)
    (vaapiDevice p) (logChan p) (videoStateChan p) (videoFrameChan p)
    (contexts p) (sys p).
Definition set_currentState (v : VideoState) (p : Pipeline) : Pipeline :=
  mkPipeline (ffmpegCmd p) (ffmpegCancel p) (ffmpegStdout p) (targetFPS p)
    (targetBitrate p) (videoDevice p) (qualityFactor p) v (hwAccelMode p)
    (vaapiDevice p) (logChan p) (videoStateChan p) (videoFrameChan p)
    (contexts p) (sys p).
Definition set_hwAccelMode (v : string) (p : Pipeline) : Pipeline :=
  mkPipeline (ffmpegCmd p) (ffmpegCancel p) (ffmpegStdout p) (targetFPS p)
    (targetBitrate p) (videoDevice p) (qualityFactor p) (currentState p) v
    (vaapiDevice p) (logChan p) (videoStateChan p) (videoFrameChan p)
    (contexts p) (sys p).
Definition set_vaapiDevice (v : string) (p : Pipeline) : Pipeline :=
  mkPipeline (ffmpegCmd p) (ffmpegCancel p) (ffmpegStdout p) (targetFPS p)
    (targetBitrate p) (videoDevice p) (qualityFactor p) (currentState p)
    (hwAccelMode p) v (logChan p) (videoStateChan p) (videoFrameChan p)
    (contexts p) (sys p).
Definition set_logChan (v : list nativeLogMessage) (p : Pipeline) : Pipeline :=
  mkPipeline (ffmpegCmd p) (ffmpegCancel p) (ffmpegStdout p) (targetFPS p)
    (targetBitrate p) (videoDevice p) (qualityFactor p) (currentState p)
    (hwAccelMode p) (vaapiDevice p) v (videoStateChan p) (videoFrameChan p)
    (contexts p) (sys p).
Definition set_videoStateChan (v : chan VideoState) (p : Pipeline) : Pipeline :=
  mkPipeline (ffmpegCmd p) (ffmpegCancel p) (ffmpegStdout p) (targetFPS p)
    (targetBitrate p) (videoDevice p) (qualityFactor p) (currentState p)
    (hwAccelMode p) (vaapiDevice p) (logChan p) v (videoFrameChan p)
    (contexts p) (sys p).
Definition set_videoFrameChan (v : chan (list byte)) (p : Pipeline) : Pipeline :=
  mkPipeline (ffmpegCmd p) (ffmpegCancel p) (ffmpegStdout p) (targetFPS p)
    (targetBitrate p) (videoDevice p) (qualityFactor p) (currentState p)
    (hwAccelMode p) (vaapiDevice p) (logChan p) (videoStateChan p) v
    (contexts p) (sys p).
Definition set_contexts (v : nat) (p : Pipeline) : Pipeline :=
  mkPipeline (ffmpegCmd p) (ffmpegCancel p) (ffmpegStdout p) (targetFPS p)
    (targetBitrate p) (videoDevice p) (qualityFactor p) (currentState p)
    (hwAccelMode p) (vaapiDevice p) (logChan p) (videoStateChan p)
    (videoFrameChan p) v (sys p).
Definition set_sys (v : list syscall) (p : Pipeline) : Pipeline :=
  mkPipeline (ffmpegCmd p) (ffmpegCancel p) (ffmpegStdout p) (targetFPS p)
    (targetBitrate p) (videoDevice p) (qualityFactor p) (currentState p)
    (hwAccelMode p) (vaapiDevice p) (logChan p) (videoStateChan p)
    (videoFrameChan p) (contexts p) v.

(** [logChan <- nativeLogMessage{...}]. *)
Definition log (l : Level) (msg : string) (p : Pipeline) : Pipeline :=
  set_logChan (send (mkLog l msg) (logChan p)) p.

(** [if videoStateChan != nil { videoStateChan <- currentState }]. *)
Definition publish_state (p : Pipeline) : Pipeline :=
  set_videoStateChan (send_if_open (currentState p) (videoStateChan p)) p.

Definition do_sys (e : syscall) (p : Pipeline) : Pipeline :=
  set_sys (send e (sys p)) p.

(* ===================================================================== *)
(** * Configuration resolver and backend selector *)
(* ===================================================================== *)

(** [os.Getenv]: the value of the variable, empty when it is not set. *)
Definition Getenv (env : gmap string string) (k : string) : string :=
  default "" (env !! k).

(** [os.Stat(path)] as far as the backend looks at it: [true] when the call
    returns no error.  The file system is the set of paths it succeeds on. *)
Definition Stat (fs : gset string) (path : string) : bool :=
  bool_decide (path ∈ fs).

Section Resolver.
Context `{GoLib}.

Definition videoInit (env : gmap string string) (fs : gset string)
    (p : Pipeline) : Pipeline * option string :=
  let dev := TrimSpace (Getenv env "VIDEO_DEVICE") in
  let p := if bool_decide (dev ≠ "") then set_videoDevice dev p else p in
  let fpsStr := TrimSpace (Getenv env "VIDEO_FPS") in
  let p :=
    if bool_decide (fpsStr ≠ "") then
      match Atoi fpsStr with
      | Some v => if (0 <? v) && (v <=? 120) then set_targetFPS v p else p
      | None => p
      end
    else p in
  let br := TrimSpace (Getenv env "VIDEO_BITRATE") in
  let p := if bool_decide (br ≠ "") then set_targetBitrate br p else p in
  let accel := TrimSpace (Getenv env "VIDEO_HWACCEL") in
  let p :=
    if bool_decide (accel ≠ "") then
      let accelLower := ToLower accel in
      if bool_decide (accelLower = "auto") || bool_decide (accelLower = "vaapi")
         || bool_decide (accelLower = "qsv") || bool_decide (accelLower = "none")
      then set_hwAccelMode accelLower p
      else p
    else p in
  let dev := TrimSpace (Getenv env "VIDEO_VAAPI_DEVICE") in
  let p := if bool_decide (dev ≠ "") then set_vaapiDevice dev p else p in
  if Stat fs (videoDevice p) then (p, None)
  else (p, Some ("video device not found: " +:+ videoDevice p)).
End Resolver.

(** The three argument lists of [buildFFmpegArgs]. *)
Definition vaapi_args (p : Pipeline) : list string :=
  [ "-hide_banner";
    "-loglevel"; "warning";
    "-fflags"; "nobuffer";
    "-flags"; "low_delay";
    "-hwaccel"; "vaapi";
    "-vaapi_device"; vaapiDevice p;
    "-f"; "v4l2";
    "-input_format"; "mjpeg";
    "-i"; videoDevice p;
    "-an";
    "-vf"; "format=nv12,hwupload";
    "-c:v"; "h264_vaapi";
    "-bf"; "0";
    "-r"; Itoa (targetFPS p);
    "-b:v"; targetBitrate p;
    "-f"; "h264";
    "pipe:1" ].

Definition qsv_args (p : Pipeline) : list string :=
  [ "-hide_banner";
    "-loglevel"; "warning";
    "-fflags"; "nobuffer";
    "-flags"; "low_delay";
    "-hwaccel"; "qsv";
    "-f"; "v4l2";
    "-input_format"; "mjpeg";
    "-i"; videoDevice p;
    "-an";
    "-c:v"; "h264_qsv";
    "-look_ahead"; "0";
    "-bf"; "0";
    "-r"; Itoa (targetFPS p);
    "-b:v"; targetBitrate p;
    "-f"; "h264";
    "pipe:1" ].

Definition libx264_args (p : Pipeline) : list string :=
  [ "-hide_banner";
    "-loglevel"; "warning";
    "-fflags"; "nobuffer";
    "-flags"; "low_delay";
    "-f"; "v4l2";
    "-input_format"; "mjpeg";
    "-i"; videoDevice p;
    "-an";
    "-c:v"; "libx264";
    "-preset"; "veryfast";
    "-tune"; "zerolatency";
    "-profile:v"; "baseline";
    "-level"; "3.1";
    "-pix_fmt"; "yuv420p";
    "-r"; Itoa (targetFPS p);
    "-b:v"; targetBitrate p;
    "-f"; "h264";
    "pipe:1" ].

(** The device node that stands for QSV in the source. *)
Definition qsvDevice : string := "/dev/dri/renderD128".

Definition canVAAPI (fs : gset string) (p : Pipeline) : bool :=
  if bool_decide (hwAccelMode p = "vaapi") || bool_decide (hwAccelMode p = "auto")
  then (if Stat fs (vaapiDevice p) then true else false)
  else false.

Definition canQSV (fs : gset string) (p : Pipeline) : bool :=
  if bool_decide (hwAccelMode p = "qsv")
     || (bool_decide (hwAccelMode p = "auto") && negb (canVAAPI fs p))
  then (if Stat fs qsvDevice then true else false)
  else false.

Definition buildFFmpegArgs (fs : gset string) (p : Pipeline) : list string :=
  if canVAAPI fs p && bool_decide (hwAccelMode p ≠ "none") then vaapi_args p
  else if canQSV fs p && bool_decide (hwAccelMode p ≠ "none") then qsv_args p
  else libx264_args p.

(* ===================================================================== *)
(** * Subprocess supervisor *)
(* ===================================================================== *)

Definition with_Ready (b : bool) (s : VideoState) : VideoState :=
  {| Ready := b; Error := Error s; FramePerSecond := FramePerSecond s |}.
Definition with_Error (e : string) (s : VideoState) : VideoState :=
  {| Ready := Ready s; Error := e; FramePerSecond := FramePerSecond s |}.
Definition with_FramePerSecond (f : float64) (s : VideoState) : VideoState :=
  {| Ready := Ready s; Error := Error s; FramePerSecond := f |}.

(** [videoStart].  The two reader goroutines it starts run beside the
    control thread; what the stdout reader does with the bytes it reads is
    [stdout_reader] below. *)
Definition videoStart (fs : gset string) (o : launch) (p : Pipeline) : Pipeline :=
  match ffmpegCmd p with
  | Some _ => p
  | None =>
      let ctx := contexts p in
      let p := set_contexts (S ctx) p in
      let p := set_ffmpegCancel (Some ctx) p in
      let args := buildFFmpegArgs fs p in
      let cmd := mkCmd ctx "ffmpeg" args in
      let p := set_ffmpegCmd (Some cmd) p in
      match o with
      | StdoutPipeFails err =>
          let p := log ErrorLevel ("ffmpeg stdout pipe error: " +:+ err) p in
          let p := set_ffmpegCmd None p in
          set_ffmpegCancel None p
      | StartFails err =>
          let p := set_ffmpegStdout (Some ctx) p in
          let p := log ErrorLevel ("ffmpeg start failed: " +:+ err) p in
          let p := set_ffmpegCmd None p in
          set_ffmpegCancel None p
      | Started =>
          let p := set_ffmpegStdout (Some ctx) p in
          let p := do_sys (SysSpawn cmd) p in
          let p := set_currentState (with_Ready true (currentState p)) p in
          let p := set_currentState (with_Error "" (currentState p)) p in
          publish_state p
      end
  end.

Definition videoStop (p : Pipeline) : Pipeline :=
  let p := match ffmpegCancel p with
           | Some ctx => do_sys (SysCancel ctx) p
           | None => p
           end in
  let p := match ffmpegCmd p with
           | Some cmd => do_sys (SysWait cmd) (do_sys (SysKill cmd) p)
           | None => p
           end in
  let p := set_ffmpegCmd None p in
  let p := set_ffmpegCancel None p in
  let p := set_ffmpegStdout None p in
  let p := set_currentState (with_Ready false (currentState p)) p in
  publish_state p.

Definition videoShutdown (p : Pipeline) : Pipeline := videoStop p.

(* ===================================================================== *)
(** * Stream framer: the stdout reader of [videoStart] *)
(* ===================================================================== *)

(** The ceiling on the accumulation buffer, [256*1024]. *)
Definition maxBuffer : Z := 256 * 1024.

(** The size of the read buffer [tmp], [64*1024]. *)
Definition tmpSize : Z := 64 * 1024.

(** The inner [for] loop: cut a frame at each boundary found at a positive
    offset.  Every turn that goes on drops at least one byte of [buf], so
    [S (length buf)] turns are enough. *)
Fixpoint cut_frames (fuel : nat) (buf : list byte) (fc : chan (list byte))
    : list byte * chan (list byte) :=
  match fuel with
  | O => (buf, fc)
  | S fuel' =>
      let data := buf in
      let idx := indexAUD data startCode in
      if idx <=? 0 then (buf, fc)
      else
        let frame := slice_to idx data in
        let fc := if 0 <? len frame then send_if_open frame fc else fc in
        cut_frames fuel' (slice_from idx buf) fc
  end.

(** The status report that ends a pass: [currentState.Ready = true],
    [currentState.FramePerSecond = float64(targetFPS)], and its
    publication. *)
Definition report_state (p : Pipeline) : Pipeline :=
  let p := set_currentState (with_Ready true (currentState p)) p in
  let p := set_currentState
             (with_FramePerSecond (float64_of_int (targetFPS p)) (currentState p)) p in
  publish_state p.

(** The body of [if n > 0 { ... }] for the bytes [chunk] of one [Read].
    A frame cut at a boundary is sent as a copy; the frame of the overflow
    flush is [buf.Next(buf.Len())], the bytes of the buffer at the moment of
    the send. *)
Definition reader_pass (chunk : list byte) (buf : list byte) (p : Pipeline)
    : list byte * Pipeline :=
  let buf := buf ++ chunk in
  let '(buf, fc) := cut_frames (S (length buf)) buf (videoFrameChan p) in
  let p := set_videoFrameChan fc p in
  let '(buf, p) :=
    if maxBuffer <? len buf
    then ([], set_videoFrameChan (send_if_open buf (videoFrameChan p)) p)
    else (buf, p) in
  (buf, report_state p).

(** One [ffmpegStdout.Read(tmp)]: the bytes read and whether [err != nil]. *)
Record read := mkRead {
  read_data : list byte;
  read_err : bool
}.

(** The outer [for] loop over the reads the pipe answers with.  When the
    list is used up the goroutine is waiting in [Read]. *)
Fixpoint reader_loop (reads : list read) (buf : list byte) (p : Pipeline)
    : list byte * Pipeline :=
  match reads with
  | [] => (buf, p)
  | r :: reads' =>
      let '(buf, p) :=
        if 0 <? len (read_data r) then reader_pass (read_data r) buf p
        else (buf, p) in
      if read_err r then (buf, p) else reader_loop reads' buf p
  end.

(** The reader goroutine from its start: an empty [bytes.Buffer]. *)
Definition stdout_reader (reads : list read) (p : Pipeline) : list byte * Pipeline :=
  reader_loop reads [] p.

(* ===================================================================== *)
(** * Quality controller *)
(* ===================================================================== *)

Definition videoGetStreamQualityFactor (p : Pipeline) : float64 * option string :=
  (qualityFactor p, None).

Definition videoSetStreamQualityFactor (fs : gset string) (o : launch)
    (factor : float64) (p : Pipeline) : Pipeline * option string :=
  let factor := if f64_lt factor f64_0_5 then f64_0_5 else factor in
  let factor := if f64_lt f64_2_0 factor then f64_2_0 else factor in
  let p := set_qualityFactor factor p in
  let mbps := int_of_float64 (f64_mul f64_4_0 factor) in
  let mbps := if mbps <? 2 then 2 else mbps in
  let mbps := if 12 <? mbps then 12 else mbps in
  let p := set_targetBitrate (Itoa mbps +:+ "M") p in
  let p := match ffmpegCmd p with
           | Some _ => videoStart fs o (videoStop p)
           | None => p
           end in
  (p, None).

Definition videoLogStatus (p : Pipeline) : string :=
  "device=" +:+ videoDevice p +:+ " fps=" +:+ Itoa (targetFPS p)
  +:+ " bitrate=" +:+ targetBitrate p
  +:+ " ready=" +:+ (if Ready (currentState p) then "true" else "false").

(* ===================================================================== *)
(** * Notions of the specification *)
(* ===================================================================== *)

(** A boundary at offset [k] of [s]: the start marker at [k], followed
    inside [s] by a byte whose low five bits are 9. *)
Definition boundary_at (s : list byte) (k : Z) : Prop :=
  0 <= k /\ k + 4 < len s /\
  slice_to 4 (slice_from k s) = startCode /\
  is_aud (byte_at s (k + 4)) = true.

(** Does [s] begin with a boundary? *)
Definition starts_with_boundary (s : list byte) : bool :=
  match s with
  | a :: b :: c :: d :: h :: _ =>
      bool_decide ([a; b; c; d] = startCode) && is_aud h
  | _ => false
  end.

(** Does [s] hold a boundary anywhere?  One pass over [s]. *)
Fixpoint has_boundary (s : list byte) : bool :=
  match s with
  | [] => false
  | _ :: s' => starts_with_boundary s || has_boundary s'
  end.

(** A unit of the synthetic stream of the round-trip property: the marker,
    a unit-type byte, a body. *)
Definition aud_unit (h : byte) (body : list byte) : list byte :=
  startCode ++ h :: body.

(** The stream of the units [us], each given by its type byte and body. *)
Definition stream_of (us : list (byte * list byte)) : list byte :=
  concat (map (fun u => aud_unit (fst u) (snd u)) us).

(** The frames a pipeline has delivered: what was sent on the frame
    channel. *)
Definition delivered (p : Pipeline) : list (list byte) :=
  default [] (videoFrameChan p).

(** The subprocesses spawned, and those reaped, so far. *)
Definition spawned (p : Pipeline) : nat := length (filter is_spawn (sys p)).
Definition waited (p : Pipeline) : nat := length (filter is_wait (sys p)).

(** The rational value of a finite float. *)
Definition Q_of_float64 (f : float64) : Q :=
  match f with
  | S754_finite s m e =>
      ((if s then -1 else 1) * (Zpos m # 1) * (2 # 1) ^ e)%Q
  | _ => 0%Q
  end.

(** The bitrate rule as the specification words it, over the rationals:
    clamp the factor to [0.5, 2.0], then [clamp(round(4 * factor), 2, 12)],
    with [round] to the nearest integer. *)
Definition clampQ (lo hi x : Q) : Q :=
  if Qlt_le_dec x lo then lo else if Qlt_le_dec hi x then hi else x.
Definition clampZ (lo hi x : Z) : Z := Z.max lo (Z.min hi x).
Definition round_nearest (x : Q) : Z := Qfloor (x + (1 # 2))%Q.
Definition spec_mbps (factor : Q) : Z :=
  clampZ 2 12 (round_nearest (4 * clampQ (1 # 2) 2 factor)%Q).

(** The same rule with the fraction discarded instead, for a factor that
    is clamped already. *)
Definition trunc_mbps (factor : Q) : Z :=
  clampZ 2 12 (Qfloor (4 * factor)%Q).

(** The float is a value of binary64. *)
Definition is_float64 (f : float64) : bool := valid_binary 53 1024 f.

Definition is_nan (f : float64) : bool :=
  match f with S754_nan => true | _ => false end.

(** A factor in the documented range [0.5, 2.0]. *)
Definition in_quality_range (f : float64) : bool :=
  f64_le f64_0_5 f && f64_le f f64_2_0.

(** The bytes the reader loop has taken from the pipe: those of the reads
    up to the first that reports an error, that one included. *)
Fixpoint consumed (reads : list read) : list byte :=
  match reads with
  | [] => []
  | r :: reads' => read_data r ++ (if read_err r then [] else consumed reads')
  end.

(** The two [if]s on the factor. *)
Definition clamp_factor (factor : float64) : float64 :=
  let factor := if f64_lt factor f64_0_5 then f64_0_5 else factor in
  if f64_lt f64_2_0 factor then f64_2_0 else factor.

(** The arithmetic on [mbps]. *)
Definition mbps_of (factor : float64) : Z :=
  let mbps := int_of_float64 (f64_mul f64_4_0 factor) in
  let mbps := if mbps <? 2 then 2 else mbps in
  if 12 <? mbps then 12 else mbps.

(** The factors of the scenarios: 0.1 and 5.0 as binary64 values (0.1 is
    [0x3FB999999999999A]). *)
Definition f64_0_1 : float64 := S754_finite false 7205759403792794 (-56).
Definition f64_5_0 : float64 := S754_finite false 5629499534213120 (-50).

(** The selection policy as the specification words it: accel-A (vaapi)
    when the mode is vaapi, or the mode is auto and its device node exists;
    else accel-B (qsv) when the mode is qsv, or the mode is auto, accel-A is
    unavailable and the device node of accel-B exists; else software. *)
Definition spec_buildFFmpegArgs (fs : gset string) (p : Pipeline) : list string :=
  if bool_decide (hwAccelMode p = "vaapi")
     || (bool_decide (hwAccelMode p = "auto") && Stat fs (vaapiDevice p))
  then vaapi_args p
  else if bool_decide (hwAccelMode p = "qsv")
          || (bool_decide (hwAccelMode p = "auto")
              && negb (Stat fs (vaapiDevice p)) && Stat fs qsvDevice)
  then qsv_args p
  else libx264_args p.

(** ** Runs of the control thread *)

(** The calls the rest of the program makes into the backend, each with
    what the operating system answers during the call. *)
Variant control :=
  | DoInit (env : gmap string string) (fs : gset string)
  | DoStart (fs : gset string) (o : launch)
  | DoStop
  | DoShutdown
  | DoSetQuality (fs : gset string) (o : launch) (factor : float64).

Section Runs.
Context `{GoLib}.

Definition call (c : control) (p : Pipeline) : Pipeline :=
  match c with
  | DoInit env fs => (videoInit env fs p).1
  | DoStart fs o => videoStart fs o p
  | DoStop => videoStop p
  | DoShutdown => videoShutdown p
  | DoSetQuality fs o factor => (videoSetStreamQualityFactor fs o factor p).1
  end.

(** The calls of [cs] in order, from [p]. *)
Definition run (cs : list control) (p : Pipeline) : Pipeline :=
  foldl (fun p c => call c p) p cs.
End Runs.

(** The subprocesses that run: spawned and not waited for. *)
Definition live (p : Pipeline) : Z := Z.of_nat (spawned p) - Z.of_nat (waited p).

(** The number of run handles held: the variable [ffmpegCmd] is set or
    not. *)
Definition handles (p : Pipeline) : Z :=
  match ffmpegCmd p with Some _ => 1 | None => 0 end.

Definition is_started (o : launch) : bool :=
  match o with Started => true | _ => false end.

(** The capture device after the override by [VIDEO_DEVICE]. *)
Definition resolved_device `{GoLib} (env : gmap string string) (p : Pipeline) : string :=
  if bool_decide (TrimSpace (Getenv env "VIDEO_DEVICE") ≠ "")
  then TrimSpace (Getenv env "VIDEO_DEVICE")
  else videoDevice p.

(** The blocks of [videoInit], one per environment variable, and the final
    check of the capture device. *)
Section ResolverBlocks.
Context `{GoLib}.

Definition env_device (env : gmap string string) (p : Pipeline) : Pipeline :=
  let dev := TrimSpace (Getenv env "VIDEO_DEVICE") in
  if bool_decide (dev ≠ "") then set_videoDevice dev p else p.

Definition env_fps (env : gmap string string) (p : Pipeline) : Pipeline :=
  let fpsStr := TrimSpace (Getenv env "VIDEO_FPS") in
  if bool_decide (fpsStr ≠ "") then
    match Atoi fpsStr with
    | Some v => if (0 <? v) && (v <=? 120) then set_targetFPS v p else p
    | None => p
    end
  else p.

Definition env_bitrate (env : gmap string string) (p : Pipeline) : Pipeline :=
  let br := TrimSpace (Getenv env "VIDEO_BITRATE") in
  if bool_decide (br ≠ "") then set_targetBitrate br p else p.

Definition env_hwaccel (env : gmap string string) (p : Pipeline) : Pipeline :=
  let accel := TrimSpace (Getenv env "VIDEO_HWACCEL") in
  if bool_decide (accel ≠ "") then
    let accelLower := ToLower accel in
    if bool_decide (accelLower = "auto") || bool_decide (accelLower = "vaapi")
       || bool_decide (accelLower = "qsv") || bool_decide (accelLower = "none")
    then set_hwAccelMode accelLower p
    else p
  else p.

Definition env_vaapi_device (env : gmap string string) (p : Pipeline) : Pipeline :=
  let dev := TrimSpace (Getenv env "VIDEO_VAAPI_DEVICE") in
  if bool_decide (dev ≠ "") then set_vaapiDevice dev p else p.

Definition check_device (fs : gset string) (p : Pipeline) : Pipeline * option string :=
  if Stat fs (videoDevice p) then (p, None)
  else (p, Some ("video device not found: " +:+ videoDevice p)).

(** What the blocks leave alone: the run handle, the state, the runtime. *)
Definition run_part (q : Pipeline) :=
  (sys q, ffmpegCmd q, ffmpegCancel q, ffmpegStdout q, currentState q).
End ResolverBlocks.

(** The invariant of the control thread: as many subprocesses run as run
    handles are held, and without a handle there is no cancel function and
    the state is not ready. *)
Definition consistent (p : Pipeline) : Prop :=
  live p = handles p /\
  (ffmpegCmd p = None -> ffmpegCancel p = None /\ Ready (currentState p) = false).

(** ** The reads of a run of the reader *)

(** The reads the loop takes from the pipe: up to the first that reports an
    error, that one included. *)
Fixpoint taken (reads : list read) : list read :=
  match reads with
  | [] => []
  | r :: reads' => r :: (if read_err r then [] else taken reads')
  end.

(** The passes of the loop: the reads taken with [n > 0]. *)
Definition passes (reads : list read) : nat :=
  length (filter (fun r => 0 < len (read_data r)) (taken reads)).

(** The state a pass reports: ready, at the configured frame rate. *)
Definition reported (p : Pipeline) : VideoState :=
  with_FramePerSecond (float64_of_int (targetFPS p))
    (with_Ready true (currentState p)).

(** The states a pipeline has published: what was sent on the state
    channel. *)
Definition published (p : Pipeline) : list VideoState :=
  default [] (videoStateChan p).

(** ** The pacing of the reader *)

(** [max(a, b)] of the source. *)
Definition max (a b : Z) : Z := if a >? b then a else b.

(** [frameDuration := time.Second / time.Duration(max(1, targetFPS))], in
    nanoseconds; the division of Go truncates. *)
Definition frameDuration (p : Pipeline) : Z :=
  Z.quot 1000000000 (max 1 (targetFPS p)).

(** ** The life of a subprocess, as the system sees it *)

#[global] Instance Cmd_eq_dec : EqDecision Cmd.
Proof. solve_decision. Defined.

(** Where the encoder is in its life: none, one that runs, one whose
    context was cancelled, one that was killed and is not yet waited for. *)
Variant phase := Idle | Running (c : Cmd) | Cancelled (c : Cmd) | Killed (c : Cmd).

(** The calls that are in order from a phase; the number is the least
    context a new command may be bound to.  Only [ffmpeg] is spawned, on a
    context not used before; a command is cancelled, then killed, then
    waited for, and each of these names the command that runs. *)
Definition lifecycle_step (st : phase * nat) (e : syscall) : option (phase * nat) :=
  match st.1, e with
  | Idle, SysSpawn c =>
      if bool_decide (cmd_path c = "ffmpeg") && bool_decide (st.2 <= cmd_ctx c)%nat
      then Some (Running c, S (cmd_ctx c)) else None
  | Running c, SysCancel x =>
      if bool_decide (x = cmd_ctx c) then Some (Cancelled c, st.2) else None
  | Cancelled c, SysKill c' =>
      if bool_decide (c' = c) then Some (Killed c, st.2) else None
  | Killed c, SysWait c' =>
      if bool_decide (c' = c) then Some (Idle, st.2) else None
  | _, _ => None
  end.

Definition lifecycle_from (st : option (phase * nat)) (t : list syscall)
    : option (phase * nat) :=
  foldl (fun st e => st ≫= fun s => lifecycle_step s e) st t.

(** The phase a trace of calls ends in, when every call of it is in order. *)
Definition lifecycle (t : list syscall) : option (phase * nat) :=
  lifecycle_from (Some (Idle, 0%nat)) t.

Definition phase_of (p : Pipeline) : phase :=
  match ffmpegCmd p with Some c => Running c | None => Idle end.

(** ** What holds of the variables between calls *)

(** The acceleration modes [videoInit] lets through. *)
Definition modes : list string := ["auto"; "vaapi"; "qsv"; "none"].

(** The variables of the configuration, of the supervisor and of the
    status report. *)
Definition config (p : Pipeline) :=
  (targetFPS p, targetBitrate p, videoDevice p, hwAccelMode p, vaapiDevice p).
Definition hold (p : Pipeline) :=
  (ffmpegCmd p, ffmpegCancel p, sys p, contexts p).
Definition status (p : Pipeline) :=
  (currentState p, videoStateChan p).

Definition valid_config (p : Pipeline) : Prop :=
  1 <= targetFPS p <= 120 /\ hwAccelMode p ∈ modes.

(** The supervisor's hold on the subprocess: the cancel function is that of
    the command held, and the calls made to the system so far are in order
    and end where [ffmpegCmd] says. *)
Definition supervised (p : Pipeline) : Prop :=
  ffmpegCancel p = cmd_ctx <$> ffmpegCmd p /\
  exists n, lifecycle (sys p) = Some (phase_of p, n) /\ (n <= contexts p)%nat.

(** The status record against the run handle and against the state channel
    [sc] the backend started with: no error text, ready while a command is
    held, and what was sent last is the record (or nothing was sent). *)
Definition in_sync (sc : chan VideoState) (p : Pipeline) : Prop :=
  Error (currentState p) = "" /\
  (is_Some (ffmpegCmd p) -> Ready (currentState p) = true) /\
  (videoStateChan p = sc \/ last (published p) = Some (currentState p)).

(** ** The control thread and the reader goroutine together *)

(** What happens to the variables of the package: a call into the backend,
    or a pass of the reader goroutine over the bytes [chunk] of one [Read]
    with [buf] in its buffer.  A call holds [streamLock] and is taken as a
    whole; the reader takes no lock, and its pass is taken as a whole
    too. *)
Inductive event :=
  | Call (c : control)
  | Pass (chunk buf : list byte).

Section Interleavings.
Context `{GoLib}.

Definition step (e : event) (p : Pipeline) : Pipeline :=
  match e with
  | Call c => call c p
  | Pass chunk buf => (reader_pass chunk buf p).2
  end.

(** The events of [es] in order, from [p]. *)
Definition interleaving (es : list event) (p : Pipeline) : Pipeline :=
  foldl (fun p e => step e p) p es.
End Interleavings.

(** What [videoInit] reads from the environment, by variable. *)
Definition resolved_fps `{GoLib} (env : gmap string string) (p : Pipeline) : Z :=
  let fpsStr := TrimSpace (Getenv env "VIDEO_FPS") in
  if bool_decide (fpsStr ≠ "") then
    match Atoi fpsStr with
    | Some v => if (0 <? v) && (v <=? 120) then v else targetFPS p
    | None => targetFPS p
    end
  else targetFPS p.

Definition resolved_bitrate `{GoLib} (env : gmap string string) (p : Pipeline) : string :=
  if bool_decide (TrimSpace (Getenv env "VIDEO_BITRATE") ≠ "")
  then TrimSpace (Getenv env "VIDEO_BITRATE")
  else targetBitrate p.

Definition resolved_hwaccel `{GoLib} (env : gmap string string) (p : Pipeline) : string :=
  let accel := TrimSpace (Getenv env "VIDEO_HWACCEL") in
  if bool_decide (accel ≠ "") && bool_decide (ToLower accel ∈ modes)
  then ToLower accel
  else hwAccelMode p.

Definition resolved_vaapi_device `{GoLib} (env : gmap string string) (p : Pipeline)
    : string :=
  if bool_decide (TrimSpace (Getenv env "VIDEO_VAAPI_DEVICE") ≠ "")
  then TrimSpace (Getenv env "VIDEO_VAAPI_DEVICE")
  else vaapiDevice p.

(** The pipeline with the five variables of the configuration replaced. *)
Definition with_config (fps : Z) (bitrate device mode vaapi : string) (p : Pipeline)
    : Pipeline :=
  set_vaapiDevice vaapi (set_hwAccelMode mode (set_targetBitrate bitrate
    (set_targetFPS fps (set_videoDevice device p)))).

(** The parts the three argument lists share. *)
Definition args_head : list string :=
  [ "-hide_banner"; "-loglevel"; "warning"; "-fflags"; "nobuffer";
    "-flags"; "low_delay" ].
Definition args_input (p : Pipeline) : list string :=
  [ "-f"; "v4l2"; "-input_format"; "mjpeg"; "-i"; videoDevice p; "-an" ].
Definition args_tail (p : Pipeline) : list string :=
  [ "-r"; Itoa (targetFPS p); "-b:v"; targetBitrate p; "-f"; "h264"; "pipe:1" ].

(** ** The commands a trace spawned *)

Definition spawned_cmds (t : list syscall) : list Cmd :=
  omap (fun e => match e with SysSpawn c => Some c | _ => None end) t.

(** An encoder command line: [ffmpeg], the shared options, the options of
    the accelerator (if any), the V4L2 MJPEG input from a device, the
    options of the codec, then the rate, the bitrate and raw H.264 to
    standard output. *)
Definition encoder_cmd (c : Cmd) : Prop :=
  cmd_path c = "ffmpeg" /\
  exists (fps : Z) (dev bitrate : string) (accel codec : list string),
    1 <= fps <= 120 /\
    cmd_args c =
      [ "-hide_banner"; "-loglevel"; "warning"; "-fflags"; "nobuffer";
        "-flags"; "low_delay" ]
      ++ accel
      ++ [ "-f"; "v4l2"; "-input_format"; "mjpeg"; "-i"; dev; "-an" ]
      ++ codec
      ++ [ "-r"; Itoa fps; "-b:v"; bitrate; "-f"; "h264"; "pipe:1" ].

(* ===================================================================== *)
(** * The uinput keyboard backend (internal/uinput) *)
(* ===================================================================== *)

(** A [byte], a [uint16] and an [int] of this package are numbers; the
    conversion [uint16(x)] wraps. *)
Definition uint16 (x : Z) : Z := x mod 65536.

(** ** Constants of evdev and uinput *)

Definition UI_DEV_CREATE : Z := 0x5501.
Definition UI_DEV_DESTROY : Z := 0x5502.
Definition UI_SET_EVBIT : Z := 0x40045564.
Definition UI_SET_KEYBIT : Z := 0x40045565.
Definition EV_SYN : Z := 0x00.
Definition EV_KEY : Z := 0x01.
Definition SYN_REPORT : Z := 0.

(** ** The key maps of keymap.go *)

Definition KEY_ESC : Z := 1.
Definition KEY_1 : Z := 2.
Definition KEY_2 : Z := 3.
Definition KEY_3 : Z := 4.
Definition KEY_4 : Z := 5.
Definition KEY_5 : Z := 6.
Definition KEY_6 : Z := 7.
Definition KEY_7 : Z := 8.
Definition KEY_8 : Z := 9.
Definition KEY_9 : Z := 10.
Definition KEY_0 : Z := 11.
Definition KEY_BACKSPACE : Z := 14.
Definition KEY_TAB : Z := 15.
Definition KEY_Q : Z := 16.
Definition KEY_W : Z := 17.
Definition KEY_E : Z := 18.
Definition KEY_R : Z := 19.
Definition KEY_T : Z := 20.
Definition KEY_Y : Z := 21.
Definition KEY_U : Z := 22.
Definition KEY_I : Z := 23.
Definition KEY_O : Z := 24.
Definition KEY_P : Z := 25.
Definition KEY_ENTER : Z := 28.
Definition KEY_LEFTCTRL : Z := 29.
Definition KEY_A : Z := 30.
Definition KEY_S : Z := 31.
Definition KEY_D : Z := 32.
Definition KEY_F : Z := 33.
Definition KEY_G : Z := 34.
Definition KEY_H : Z := 35.
Definition KEY_J : Z := 36.
Definition KEY_K : Z := 37.
Definition KEY_L : Z := 38.
Definition KEY_LEFTSHIFT : Z := 42.
Definition KEY_Z : Z := 44.
Definition KEY_X : Z := 45.
Definition KEY_C : Z := 46.
Definition KEY_V : Z := 47.
Definition KEY_B : Z := 48.
Definition KEY_N : Z := 49.
Definition KEY_M : Z := 50.
Definition KEY_RIGHTSHIFT : Z := 54.
Definition KEY_LEFTALT : Z := 56.
Definition KEY_SPACE : Z := 57.
Definition KEY_LEFT : Z := 105.
Definition KEY_RIGHT : Z := 106.
Definition KEY_UP : Z := 103.
Definition KEY_DOWN : Z := 108.
Definition KEY_RIGHTCTRL : Z := 97.
Definition KEY_RIGHTALT : Z := 100.
Definition KEY_LEFTMETA : Z := 125.
Definition KEY_RIGHTMETA : Z := 126.

(** [hidToLinux]: HID usage of a key to its Linux key code. *)
Definition hidToLinux : gmap Z Z := list_to_map [
  (4, KEY_A); (5, KEY_B); (6, KEY_C); (7, KEY_D); (8, KEY_E); (9, KEY_F);
  (10, KEY_G); (11, KEY_H); (12, KEY_I); (13, KEY_J); (14, KEY_K); (15, KEY_L);
  (16, KEY_M); (17, KEY_N); (18, KEY_O); (19, KEY_P); (20, KEY_Q); (21, KEY_R);
  (22, KEY_S); (23, KEY_T); (24, KEY_U); (25, KEY_V); (26, KEY_W); (27, KEY_X);
  (28, KEY_Y); (29, KEY_Z);
  (30, KEY_1); (31, KEY_2); (32, KEY_3); (33, KEY_4); (34, KEY_5);
  (35, KEY_6); (36, KEY_7); (37, KEY_8); (38, KEY_9); (39, KEY_0);
  (40, KEY_ENTER);
  (41, KEY_ESC);
  (42, KEY_BACKSPACE);
  (43, KEY_TAB);
  (44, KEY_SPACE);
  (82, KEY_UP);
  (81, KEY_DOWN);
  (80, KEY_LEFT);
  (79, KEY_RIGHT) ].

(** [hidModifierToLinux]: HID usage of a modifier to its Linux key code. *)
Definition hidModifierToLinux : gmap Z Z := list_to_map [
  (0xE0, KEY_LEFTCTRL);
  (0xE1, KEY_LEFTSHIFT);
  (0xE2, KEY_LEFTALT);
  (0xE3, KEY_LEFTMETA);
  (0xE4, KEY_RIGHTCTRL);
  (0xE5, KEY_RIGHTSHIFT);
  (0xE6, KEY_RIGHTALT);
  (0xE7, KEY_RIGHTMETA) ].

Definition hidMaskFor (hid : Z) : Z :=
  match hid with
  | 0xE0 => 0x01
  | 0xE1 => 0x02
  | 0xE2 => 0x04
  | 0xE3 => 0x08
  | 0xE4 => 0x10
  | 0xE5 => 0x20
  | 0xE6 => 0x40
  | 0xE7 => 0x80
  | _ => 0
  end.

(** ** The backend *)

(** [usbgadget.KeysDownState], declared outside the files at hand; the
    backend uses its fields [Modifier] and [Keys]. *)
Record KeysDownState := mkKeysDownState {
  Modifier : Z;
  Keys : list Z
}.

(** [input_event]; its [Time] is always zero. *)
Record input_event := mkEvent {
  ev_Type : Z;
  ev_Code : Z;
  ev_Value : Z
}.

(** [UInputBackend].  [fd] holds the events written to the device, [None]
    when the field is nil; [onKeysDownChange] holds the states the callback
    was called with, [None] when no callback is set; [ioctls] are the
    requests made on the device, in order, and [closed] tells that the file
    was closed. *)
Record UInputBackend := mkUInputBackend {
  fd : option (list input_event);
  onKeysDownChange : option (list KeysDownState);
  keyboardState : Z;
  keysDownState : KeysDownState;
  lastUserInput : Z;
  ioctls : list (Z * Z);
  closed : bool
}.

Definition set_fd (x : option (list input_event)) (u : UInputBackend) :=
  mkUInputBackend x (onKeysDownChange u) (keyboardState u) (keysDownState u)
    (lastUserInput u) (ioctls u) (closed u).
Definition set_onKeysDownChange (x : option (list KeysDownState)) (u : UInputBackend) :=
  mkUInputBackend (fd u) x (keyboardState u) (keysDownState u)
    (lastUserInput u) (ioctls u) (closed u).
Definition set_keysDownState (x : KeysDownState) (u : UInputBackend) :=
  mkUInputBackend (fd u) (onKeysDownChange u) (keyboardState u) x
    (lastUserInput u) (ioctls u) (closed u).
Definition set_lastUserInput (x : Z) (u : UInputBackend) :=
  mkUInputBackend (fd u) (onKeysDownChange u) (keyboardState u) (keysDownState u)
    x (ioctls u) (closed u).
Definition set_ioctls (x : list (Z * Z)) (u : UInputBackend) :=
  mkUInputBackend (fd u) (onKeysDownChange u) (keyboardState u) (keysDownState u)
    (lastUserInput u) x (closed u).
Definition set_closed (x : bool) (u : UInputBackend) :=
  mkUInputBackend (fd u) (onKeysDownChange u) (keyboardState u) (keysDownState u)
    (lastUserInput u) (ioctls u) x.

(** [u.ioctl(request, arg)]; [answer] is what the system answers to the
    request. *)
Definition ioctl (answer : Z -> Z -> bool) (request arg : Z) (u : UInputBackend)
    : UInputBackend * option string :=
  (set_ioctls (send (request, arg) (ioctls u)) u,
   if answer request arg then None else Some "errno").

(** [NewUInputBackend]: [opens] tells whether [/dev/uinput] can be opened;
    [ord_key] and [ord_mod] are the entries of the two maps in the order
    [range] visits them.  The logger, which no other function of the file
    reads, is left out. *)
Definition NewUInputBackend (opens : bool) (answer : Z -> Z -> bool)
    (ord_key ord_mod : list (Z * Z)) (now : Z)
    : option UInputBackend * option string :=
  let u := mkUInputBackend None None 0 (mkKeysDownState 0 [0; 0; 0; 0; 0; 0])
             now [] false in
  if negb opens
  then (None, Some "open /dev/uinput failed: errno. Ensure 'modprobe uinput' and permissions")
  else
    let u := set_fd (Some []) u in
    let '(u, err) := ioctl answer UI_SET_EVBIT EV_KEY u in
    match err with
    | Some _ => (None, Some "ioctl UI_SET_EVBIT EV_KEY failed: errno")
    | None =>
        let u := foldl (fun u e => (ioctl answer UI_SET_KEYBIT e.2 u).1) u ord_key in
        let u := foldl (fun u e => (ioctl answer UI_SET_KEYBIT e.2 u).1) u ord_mod in
        let '(u, err) := ioctl answer UI_DEV_CREATE 0 u in
        match err with
        | Some _ => (None, Some "ioctl UI_DEV_CREATE failed: errno")
        | None => (Some u, None)
        end
    end.

Definition Close (answer : Z -> Z -> bool) (u : UInputBackend)
    : UInputBackend * option string :=
  match fd u with
  | Some _ =>
      let u := (ioctl answer UI_DEV_DESTROY 0 u).1 in
      let u := set_closed true u in
      (set_fd None u, None)
  | None => (u, None)
  end.

(** [binary.Write(u.fd, ...)]: with a nil file the write fails.  [fd] keeps
    the events handed to an open file; every caller drops the error, so a
    write the system refuses is not told apart. *)
Definition writeEvent (typ code val : Z) (u : UInputBackend)
    : UInputBackend * option string :=
  (set_fd (send_if_open (mkEvent typ code val) (fd u)) u,
   match fd u with Some _ => None | None => Some "invalid argument" end).

Definition sync (u : UInputBackend) : UInputBackend :=
  (writeEvent EV_SYN SYN_REPORT 0 u).1.

Definition SetOnKeysDownChange (u : UInputBackend) : UInputBackend :=
  set_onKeysDownChange (Some []) u.

Definition GetUsbState (u : UInputBackend) : string := "native".

Definition GetKeysDownState (u : UInputBackend) : KeysDownState := keysDownState u.

(** [k := make([]byte, 6); copy(k, keys)]. *)
Definition copy6 (keys : list Z) : list Z :=
  take 6 keys ++ replicate (6 - length keys) 0.

Definition updateKeysDown (modifier : Z) (keys : list Z) (u : UInputBackend)
    : UInputBackend * KeysDownState :=
  let k := copy6 keys in
  let state := mkKeysDownState modifier k in
  let u := set_keysDownState state u in
  let u := set_onKeysDownChange (send_if_open state (onKeysDownChange u)) u in
  (u, state).

Definition UpdateKeysDown (modifier : Z) (keys : list Z) (u : UInputBackend)
    : UInputBackend * KeysDownState :=
  updateKeysDown modifier keys u.

Definition resetUserInputTime (now : Z) (u : UInputBackend) : UInputBackend :=
  set_lastUserInput now u.

Definition GetLastUserInputTime (u : UInputBackend) : Z := lastUserInput u.

(** [KeyboardReport]; [ord_mod] and [ord_key] are the entries of
    [hidModifierToLinux] and of [hidToLinux] in the order [range] visits
    them this time. *)
Definition KeyboardReport (ord_mod ord_key : list (Z * Z))
    (modifier : Z) (keys : list Z) (now : Z) (u : UInputBackend)
    : UInputBackend * option string :=
  let u := foldl (fun u e =>
             let pressed := negb (Z.land modifier (hidMaskFor e.1) =? 0) in
             if pressed then (writeEvent EV_KEY (uint16 e.2) 1 u).1
             else (writeEvent EV_KEY (uint16 e.2) 0 u).1) u ord_mod in
  let u := foldl (fun u e => (writeEvent EV_KEY (uint16 e.2) 0 u).1) u ord_key in
  let u := foldl (fun u hid =>
             match hidToLinux !! hid with
             | Some code =>
                 if negb (hid =? 0) then (writeEvent EV_KEY (uint16 code) 1 u).1 else u
             | None => u
             end) u keys in
  let u := sync u in
  let u := (updateKeysDown modifier keys u).1 in
  let u := resetUserInputTime now u in
  (u, None).

(** The loop that puts a key in the first free slot. *)
Fixpoint place (key : Z) (ks : list Z) : list Z :=
  match ks with
  | [] => []
  | k :: ks' => if k =? 0 then key :: ks' else k :: place key ks'
  end.

(** The loop that frees the first slot that holds the key. *)
Fixpoint unplace (key : Z) (ks : list Z) : list Z :=
  match ks with
  | [] => []
  | k :: ks' => if k =? key then 0 :: ks' else k :: unplace key ks'
  end.

Definition KeypressReport (key : Z) (press : bool) (now : Z) (u : UInputBackend)
    : UInputBackend * option string :=
  match hidModifierToLinux !! key with
  | Some code =>
      let u := if press then (writeEvent EV_KEY (uint16 code) 1 u).1
               else (writeEvent EV_KEY (uint16 code) 0 u).1 in
      let u := sync u in
      let mod' := Modifier (keysDownState u) in
      let mask := hidMaskFor key in
      let mod' := if press then Z.lor mod' mask else Z.ldiff mod' mask in
      let u := (updateKeysDown mod' (Keys (keysDownState u)) u).1 in
      let u := resetUserInputTime now u in
      (u, None)
  | None =>
      match hidToLinux !! key with
      | None => (u, None)
      | Some code =>
          let val := if press then 1 else 0 in
          let u := (writeEvent EV_KEY (uint16 code) val u).1 in
          let u := sync u in
          let ks := Keys (keysDownState u) in
          let ks := if press then place key ks else unplace key ks in
          let u := (updateKeysDown (Modifier (keysDownState u)) ks u).1 in
          let u := resetUserInputTime now u in
          (u, None)
      end
  end.

(** ** The events of one [KeyboardReport] *)

Definition modifier_event (modifier : Z) (e : Z * Z) : input_event :=
  mkEvent EV_KEY (uint16 e.2)
    (if negb (Z.land modifier (hidMaskFor e.1) =? 0) then 1 else 0).

Definition release_event (e : Z * Z) : input_event :=
  mkEvent EV_KEY (uint16 e.2) 0.

Definition press_event (hid : Z) : option input_event :=
  match hidToLinux !! hid with
  | Some code => if negb (hid =? 0) then Some (mkEvent EV_KEY (uint16 code) 1) else None
  | None => None
  end.

Definition frame_events (ord_mod ord_key : list (Z * Z)) (modifier : Z)
    (keys : list Z) : list input_event :=
  (modifier_event modifier <$> ord_mod) ++ (release_event <$> ord_key)
  ++ omap press_event keys ++ [mkEvent EV_SYN SYN_REPORT 0].

(** An event the backend writes: a sync, or the press or release of a key
    code out of [codes]. *)
Definition key_event_of (codes : list Z) (ev : input_event) : Prop :=
  ev = mkEvent EV_SYN SYN_REPORT 0 \/
  (ev_Type ev = EV_KEY /\ ev_Code ev ∈ codes /\ (ev_Value ev = 0 \/ ev_Value ev = 1)).

(** ** What the kernel makes of the events *)

(** The key codes that are down after a list of events: a key event with
    value 0 releases the code, with any other value presses it. *)
Definition key_after (s : gset Z) (ev : input_event) : gset Z :=
  if ev_Type ev =? EV_KEY
  then (if ev_Value ev =? 0 then s ∖ {[ ev_Code ev ]} else s ∪ {[ ev_Code ev ]})
  else s.

Definition keys_after (evs : list input_event) (s : gset Z) : gset Z :=
  foldl key_after s evs.

(** The events written to the device so far. *)
Definition written (u : UInputBackend) : list input_event := default [] (fd u).

(** The key codes registered with [UI_SET_KEYBIT]. *)
Definition registered (u : UInputBackend) : list Z :=
  omap (fun r => if r.1 =? UI_SET_KEYBIT then Some r.2 else None) (ioctls u).

(** ** Calls on the backend *)

(** A map visited in some order: each entry once. *)
Definition visits (ord : list (Z * Z)) (m : gmap Z Z) : Prop :=
  ord ≡ₚ map_to_list m.

Inductive keyboard_call :=
  | DoKeypress (key : Z) (press : bool) (now : Z)
  | DoKeyboard (ord_mod ord_key : list (Z * Z)) (modifier : Z) (keys : list Z) (now : Z)
  | DoUpdateKeysDown (modifier : Z) (keys : list Z).

Definition keyboard_step (c : keyboard_call) (u : UInputBackend) : UInputBackend :=
  match c with
  | DoKeypress key press now => (KeypressReport key press now u).1
  | DoKeyboard ord_mod ord_key modifier keys now =>
      (KeyboardReport ord_mod ord_key modifier keys now u).1
  | DoUpdateKeysDown modifier keys => (UpdateKeysDown modifier keys u).1
  end.

Definition keyboard_run (cs : list keyboard_call) (u : UInputBackend) : UInputBackend :=
  foldl (fun u c => keyboard_step c u) u cs.

(** The orders a call is given are orders of the maps. *)
Definition well_ordered (c : keyboard_call) : Prop :=
  match c with
  | DoKeyboard ord_mod ord_key _ _ _ =>
      visits ord_mod hidModifierToLinux /\ visits ord_key hidToLinux
  | _ => True
  end.

(** A call that injects: [KeypressReport], or [KeyboardReport] with orders
    of the maps. *)
Definition injects (c : keyboard_call) : Prop :=
  match c with
  | DoKeypress _ _ _ => True
  | DoKeyboard ord_mod ord_key _ _ _ =>
      visits ord_mod hidModifierToLinux /\ visits ord_key hidToLinux
  | DoUpdateKeysDown _ _ => False
  end.

(* ===================================================================== *)
(** * The ATX extension on the serial port (package kvm) *)
(* ===================================================================== *)

(** [ATXState], declared outside the files at hand; [runATXControl] fills
    its fields [Power] and [HDD]. *)
Record ATXState := mkATXState {
  Power : bool;
  HDD : bool
}.

(** What [runATXControl] logs. *)
Inductive atx_log :=
  | ErrorReading
  | InvalidLineLength (length : Z)
  | StatusChanged (hdd pwr rst pwr' : bool).

(** The variables of the ATX control.  [currentSession] holds the
    [atxState] events written to the session, [None] when there is no
    session. *)
Record ATXControl := mkATXControl {
  ledHDDState : bool;
  ledPWRState : bool;
  btnRSTState : bool;
  btnPWRState : bool;
  currentSession : option (list ATXState);
  scopedLogger : list atx_log
}.

(** The lines [reader.ReadString('\n')] returns without an error over the
    bytes the port delivers before it fails: each ends with the newline;
    the bytes after the last newline come with the error. *)
Fixpoint ReadString_lines (acc : string) (stream : string) : list string :=
  match stream with
  | EmptyString => []
  | String c rest =>
      if Ascii.eqb c "010"%char
      then (acc +:+ String c EmptyString) :: ReadString_lines EmptyString rest
      else ReadString_lines (acc +:+ String c EmptyString) rest
  end.

(** One turn of the loop of [runATXControl], on a line read without an
    error. *)
Definition runATXControl_line (line : string) (a : ATXControl) : ATXControl :=
  if negb (Z.of_nat (String.length line) =? 5)
  then mkATXControl (ledHDDState a) (ledPWRState a) (btnRSTState a) (btnPWRState a)
         (currentSession a)
         (send (InvalidLineLength (Z.of_nat (String.length line))) (scopedLogger a))
  else
    let newLedHDDState := bool_decide (String.get 0 line = Some "0"%char) in
    let newLedPWRState := bool_decide (String.get 1 line = Some "0"%char) in
    let newBtnRSTState := bool_decide (String.get 2 line = Some "1"%char) in
    let newBtnPWRState := bool_decide (String.get 3 line = Some "1"%char) in
    let session := send_if_open (mkATXState newLedPWRState newLedHDDState)
                     (currentSession a) in
    if negb (Bool.eqb newLedHDDState (ledHDDState a))
       || negb (Bool.eqb newLedPWRState (ledPWRState a))
       || negb (Bool.eqb newBtnRSTState (btnRSTState a))
       || negb (Bool.eqb newBtnPWRState (btnPWRState a))
    then mkATXControl newLedHDDState newLedPWRState newBtnRSTState newBtnPWRState
           session
           (send (StatusChanged newLedHDDState newLedPWRState newBtnRSTState
                    newBtnPWRState) (scopedLogger a))
    else mkATXControl (ledHDDState a) (ledPWRState a) (btnRSTState a) (btnPWRState a)
           session (scopedLogger a).

(** [runATXControl] over the bytes [stream] the port delivers before a read
    fails; the failure is logged and ends the loop. *)
Definition runATXControl (stream : string) (a : ATXControl) : ATXControl :=
  let a := foldl (fun a line => runATXControl_line line a) a
             (ReadString_lines EmptyString stream) in
  mkATXControl (ledHDDState a) (ledPWRState a) (btnRSTState a) (btnPWRState a)
    (currentSession a) (send ErrorReading (scopedLogger a)).

(** The four states a line of five bytes stands for. *)
Definition atx_states (line : string) : bool * bool * bool * bool :=
  (bool_decide (String.get 0 line = Some "0"%char),
   bool_decide (String.get 1 line = Some "0"%char),
   bool_decide (String.get 2 line = Some "1"%char),
   bool_decide (String.get 3 line = Some "1"%char)).

Definition atx_vars (a : ATXControl) : bool * bool * bool * bool :=
  (ledHDDState a, ledPWRState a, btnRSTState a, btnPWRState a).

Definition is_status_changed (e : atx_log) : bool :=
  match e with StatusChanged _ _ _ _ => true | _ => false end.

(** The changes of state along a list of states, from a first one. *)
Fixpoint changes {A} `{EqDecision A} (x : A) (l : list A) : nat :=
  match l with
  | [] => 0
  | y :: l' => ((if bool_decide (y = x) then 0 else 1) + changes y l')%nat
  end.

(* ===================================================================== *)
(** * Properties of the boundary scan *)
(* ===================================================================== *)

Lemma len_nonneg {A} (l : list A) : 0 <= len l.
Proof. unfold len. lia. Qed.

Lemma len_app {A} (l k : list A) : len (l ++ k) = len l + len k.
Proof. unfold len. rewrite length_app. lia. Qed.

Lemma len_nil {A} : len (@nil A) = 0.
Proof. reflexivity. Qed.

Lemma len_cons {A} (x : A) (l : list A) : len (x :: l) = len l + 1.
Proof. unfold len. cbn [length]. lia. Qed.

Lemma len_startCode : len startCode = 4.
Proof. reflexivity. Qed.

Lemma has_prefix_take (s sep : list byte) :
  has_prefix s sep = true <-> take (length sep) s = sep.
Proof.
  revert s. induction sep as [|y sep IH]; intros s; cbn.
  - by destruct s.
  - destruct s as [|x s]; cbn; [split; discriminate|].
    rewrite andb_true_iff, bool_decide_eq_true, IH.
    split; [intros [-> ->]; done | intros [= -> E]; by rewrite E].
Qed.

Lemma has_prefix_length (s sep : list byte) :
  has_prefix s sep = true -> len sep <= len s.
Proof.
  rewrite has_prefix_take. intros E. unfold len.
  apply (f_equal length) in E. rewrite length_take in E. lia.
Qed.

Lemma bytes_Index_lower (s sep : list byte) : -1 <= bytes_Index s sep.
Proof.
  induction s as [|x s IH]; cbn [bytes_Index].
  - destruct (has_prefix [] sep); lia.
  - destruct (has_prefix (x :: s) sep); [lia|].
    destruct (Z.ltb_spec (bytes_Index s sep) 0); lia.
Qed.

Lemma bytes_Index_prefix (s sep : list byte) :
  has_prefix s sep = true -> bytes_Index s sep = 0.
Proof. intros Hp. destruct s; cbn [bytes_Index]; by rewrite Hp. Qed.

(** A result that is not negative is an offset at which [sep] lies. *)
Lemma bytes_Index_found (s sep : list byte) :
  0 <= bytes_Index s sep ->
  has_prefix (slice_from (bytes_Index s sep) s) sep = true /\
  bytes_Index s sep + len sep <= len s.
Proof.
  unfold slice_from. induction s as [|x s IH]; cbn [bytes_Index].
  - destruct (has_prefix [] sep) eqn:E; [|lia]. intros _. split; [done|].
    apply has_prefix_length in E. lia.
  - destruct (has_prefix (x :: s) sep) eqn:E.
    + intros _. split; [done|]. apply has_prefix_length in E. lia.
    + destruct (Z.ltb_spec (bytes_Index s sep) 0) as [Hneg|Hpos]; [lia|].
      intros _. destruct (IH Hpos) as [Hp Hl].
      rewrite Z2Nat.inj_add, Nat.add_1_r by lia. cbn [drop].
      split; [done|]. rewrite len_cons. lia.
Qed.

(** The first occurrence: [sep] lies at no offset before the result. *)
Lemma bytes_Index_first (s sep : list byte) (k : nat) :
  has_prefix (drop k s) sep = true -> 0 <= bytes_Index s sep <= Z.of_nat k.
Proof.
  revert k. induction s as [|x s IH]; intros k.
  - rewrite drop_nil. cbn [bytes_Index]. intros ->. lia.
  - cbn [bytes_Index]. destruct (has_prefix (x :: s) sep) eqn:E; [lia|].
    destruct k as [|k]; [rewrite drop_0, E; discriminate|].
    cbn [drop]. intros Hk. specialize (IH k Hk).
    destruct (Z.ltb_spec (bytes_Index s sep) 0); lia.
Qed.

Section Scan.
Variable b : list byte.
Variable sc : list byte.
Hypothesis sc_nonempty : 0 < len sc.

(** A turn that goes on moves the scan position forward by the length of
    the marker at least, and stays inside [b]. *)
Lemma indexAUD_body_advance (i i' : Z) :
  0 <= i ->
  indexAUD_body b sc i = Continue i' ->
  i + len sc <= i' /\ i' < len b.
Proof.
  intros Hi. unfold indexAUD_body.
  pose proof (bytes_Index_lower (slice_from i b) sc) as Hlow.
  destruct (Z.ltb_spec (bytes_Index (slice_from i b) sc) 0); [discriminate|].
  destruct (_ && _); [discriminate|].
  destruct (Z.geb_spec (i + bytes_Index (slice_from i b) sc + len sc) (len b));
    [discriminate|].
  intros [= <-]. lia.
Qed.

(** A turn that returns gives [-1] or an offset at or after the scan
    position at which the marker lies, with an AUD byte after it inside
    [b]. *)
Lemma indexAUD_body_return (i r : Z) :
  0 <= i <= len b ->
  indexAUD_body b sc i = Return r ->
  r = -1 \/
  (i <= r /\ r + len sc < len b /\
   has_prefix (slice_from r b) sc = true /\
   is_aud (byte_at b (r + len sc)) = true).
Proof.
  intros Hi. unfold indexAUD_body.
  destruct (Z.ltb_spec (bytes_Index (slice_from i b) sc) 0) as [|Hj];
    [intros [= <-]; by left|].
  destruct (bytes_Index_found _ _ Hj) as [Hp _].
  destruct (_ && _) eqn:E.
  - intros [= <-]. right. apply andb_true_iff in E as [E1 E2].
    apply Z.ltb_lt in E1. repeat split; [lia|lia| |done].
    revert Hp. unfold slice_from in *. rewrite drop_drop.
    by rewrite Z2Nat.inj_add by lia.
  - destruct (_ >=? _); [intros [= <-]; by left | discriminate].
Qed.

(** The loop returns within any number of turns that, at the marker's
    length per turn, covers what is left of [b]. *)
Lemma indexAUD_loop_returns (fuel : nat) (i : Z) :
  0 <= i <= len b ->
  len b - i < len sc * Z.of_nat fuel ->
  exists r, indexAUD_loop fuel b sc i = Some r.
Proof.
  revert i. induction fuel as [|fuel IH]; intros i Hi Hfuel; [lia|].
  cbn [indexAUD_loop]. destruct (indexAUD_body b sc i) as [r|i'] eqn:E; [eauto|].
  apply indexAUD_body_advance in E as [? ?]; [|lia]. apply IH; lia.
Qed.

(** More turns do not change the result. *)
Lemma indexAUD_loop_mono (fuel fuel' : nat) (i r : Z) :
  (fuel <= fuel')%nat ->
  indexAUD_loop fuel b sc i = Some r ->
  indexAUD_loop fuel' b sc i = Some r.
Proof.
  revert fuel' i. induction fuel as [|fuel IH]; intros fuel' i Hle; [discriminate|].
  destruct fuel' as [|fuel']; [lia|]. cbn [indexAUD_loop].
  destruct (indexAUD_body b sc i); [done|]. apply IH. lia.
Qed.

Lemma indexAUD_loop_sound (fuel : nat) (i r : Z) :
  0 <= i <= len b ->
  indexAUD_loop fuel b sc i = Some r ->
  r = -1 \/
  (i <= r /\ r + len sc < len b /\
   has_prefix (slice_from r b) sc = true /\
   is_aud (byte_at b (r + len sc)) = true).
Proof.
  revert i. induction fuel as [|fuel IH]; intros i Hi; [discriminate|].
  cbn [indexAUD_loop]. destruct (indexAUD_body b sc i) as [r'|i'] eqn:E.
  - intros [= <-]. by apply indexAUD_body_return.
  - intros Hloop. apply indexAUD_body_advance in E as [? ?]; [|lia].
    destruct (IH i' ltac:(lia) Hloop) as [?|(? & ? & ? & ?)]; [by left|].
    right. repeat split; [lia|done..].
Qed.

(** [indexAUD] is total: the loop returns within [len b / len sc + 1]
    turns, within the bound of the definition in particular. *)
Lemma indexAUD_loop_total :
  exists r,
    indexAUD_loop (S (Z.to_nat (len b / len sc))) b sc 0 = Some r /\
    indexAUD_loop (S (length b)) b sc 0 = Some r /\
    indexAUD b sc = r.
Proof.
  pose proof (len_nonneg b) as Hb.
  destruct (indexAUD_loop_returns (S (Z.to_nat (len b / len sc))) 0) as [r Hr].
  - lia.
  - rewrite Nat2Z.inj_succ, Z2Nat.id by (apply Z.div_pos; lia).
    pose proof (Z.mul_succ_div_gt (len b) (len sc) sc_nonempty). lia.
  - exists r. split; [done|].
    assert (indexAUD_loop (S (length b)) b sc 0 = Some r) as E.
    { eapply indexAUD_loop_mono; [|exact Hr].
      apply le_n_S. apply Nat2Z.inj_le. rewrite Z2Nat.id by (apply Z.div_pos; lia).
      fold (len b). apply Z.div_le_upper_bound; nia. }
    split; [done|]. unfold indexAUD. by rewrite E.
Qed.

Lemma indexAUD_sound :
  indexAUD b sc = -1 \/
  (0 <= indexAUD b sc /\ indexAUD b sc + len sc < len b /\
   has_prefix (slice_from (indexAUD b sc) b) sc = true /\
   is_aud (byte_at b (indexAUD b sc + len sc)) = true).
Proof.
  destruct indexAUD_loop_total as (r & _ & Hr & ->).
  apply (indexAUD_loop_sound (S (length b)) 0); [|done].
  pose proof (len_nonneg b). lia.
Qed.
End Scan.

Lemma byte_at_drop (b : list byte) (k i : Z) :
  0 <= k -> 0 <= i -> byte_at (slice_from k b) i = byte_at b (k + i).
Proof.
  intros Hk Hi. unfold byte_at, slice_from.
  by rewrite lookup_drop, Z2Nat.inj_add by lia.
Qed.

(** The marker at the head and an AUD byte after it, inside the slice. *)
Lemma starts_with_boundary_intro (s : list byte) :
  has_prefix s startCode = true -> 4 < len s -> is_aud (byte_at s 4) = true ->
  starts_with_boundary s = true.
Proof.
  destruct s as [|a [|b' [|c [|d [|h s]]]]]; cbn [has_prefix startCode];
    rewrite ?andb_false_r; try discriminate.
  intros Hp _ Haud.
  change (byte_at (a :: b' :: c :: d :: h :: s) 4) with h in Haud. cbn [starts_with_boundary].
  rewrite Haud, andb_true_r. apply bool_decide_eq_true.
  repeat (apply andb_true_iff in Hp as [?%bool_decide_eq_true Hp]).
  unfold startCode. congruence.
Qed.

Lemma starts_with_boundary_elim (s : list byte) :
  starts_with_boundary s = true ->
  has_prefix s startCode = true /\ 4 < len s /\ is_aud (byte_at s 4) = true.
Proof.
  destruct s as [|a [|b' [|c [|d [|h s]]]]]; cbn [starts_with_boundary];
    try discriminate.
  intros [E%bool_decide_eq_true Haud]%andb_true_iff. injection E as -> -> -> ->.
  split; [done|]. split; [rewrite !len_cons; pose proof (len_nonneg s); lia | done].
Qed.

Lemma has_boundary_drop (s : list byte) (k : nat) :
  starts_with_boundary (drop k s) = true -> has_boundary s = true.
Proof.
  revert k. induction s as [|x s IH]; intros k.
  - by rewrite drop_nil.
  - destruct k as [|k]; cbn [drop has_boundary].
    + intros ->. done.
    + intros Hk. rewrite (IH k Hk). apply orb_true_r.
Qed.

Lemma has_boundary_elim (s : list byte) :
  has_boundary s = true -> exists k, starts_with_boundary (drop k s) = true.
Proof.
  induction s as [|x s IH]; [discriminate|]. cbn [has_boundary].
  intros [E|E]%orb_true_iff; [by exists 0%nat|].
  destruct (IH E) as [k Hk]. by exists (S k).
Qed.

(** [starts_with_boundary] and [has_boundary] decide [boundary_at]. *)
Lemma starts_with_boundary_drop (s : list byte) (n : nat) :
  starts_with_boundary (drop n s) = true <-> boundary_at s (Z.of_nat n).
Proof.
  unfold boundary_at, slice_to, slice_from. rewrite Nat2Z.id.
  change (Z.to_nat 4) with (length startCode). rewrite <- has_prefix_take.
  rewrite <- (byte_at_drop s (Z.of_nat n) 4) by lia.
  unfold slice_from. rewrite Nat2Z.id.
  assert (len (drop n s) = len s - Z.of_nat n \/ len s < Z.of_nat n /\ drop n s = [])
    as Hlen.
  { unfold len. rewrite length_drop.
    destruct (decide (n <= length s)%nat); [left; lia|right].
    split; [lia|]. apply drop_ge. lia. }
  split.
  - intros (Hp & Hl & Ha)%starts_with_boundary_elim.
    destruct Hlen as [Hlen|[_ Hnil]]; [|rewrite Hnil in Hl; done].
    repeat split; [lia|lia|done|done].
  - intros (_ & Hl & Hp & Ha). apply starts_with_boundary_intro; [done| |done].
    destruct Hlen as [Hlen|[Hlt _]]; lia.
Qed.

Lemma has_boundary_iff (s : list byte) :
  has_boundary s = true <-> exists k, boundary_at s k.
Proof.
  split.
  - intros [n Hn]%has_boundary_elim. exists (Z.of_nat n).
    by apply starts_with_boundary_drop.
  - intros [k Hk]. apply (has_boundary_drop s (Z.to_nat k)).
    apply starts_with_boundary_drop. rewrite Z2Nat.id; [done|]. by destruct Hk.
Qed.

(** What [indexAUD] returns, when not [-1], is a boundary. *)
Lemma indexAUD_boundary (b : list byte) :
  indexAUD b startCode = -1 \/
  (boundary_at b (indexAUD b startCode) /\
   starts_with_boundary (slice_from (indexAUD b startCode) b) = true).
Proof.
  destruct (indexAUD_sound b startCode) as [?|(Hk & Hlen & Hp & Haud)];
    [done | by left |]. right. rewrite len_startCode in *. split.
  - repeat split; [done..| |done].
    unfold slice_to. by apply has_prefix_take in Hp.
  - apply starts_with_boundary_intro; [done| |].
    + unfold slice_from, len in *. rewrite length_drop. lia.
    + by rewrite byte_at_drop by lia.
Qed.

(** Two occurrences of the marker do not overlap. *)
Lemma startCode_no_overlap (s : list byte) (d : nat) :
  has_prefix s startCode = true ->
  has_prefix (drop d s) startCode = true ->
  (0 < d < 4)%nat -> False.
Proof.
  intros Hp Hd [? ?].
  destruct s as [|a [|b' [|c [|e s]]]]; cbn in Hp;
    rewrite ?andb_false_r in Hp; try discriminate Hp.
  repeat (apply andb_true_iff in Hp as [?%bool_decide_eq_true Hp]). subst.
  destruct d as [|[|[|[|d]]]]; try lia; cbn in Hd;
    destruct s as [|? [|? [|? ?]]]; cbn in Hd; discriminate Hd.
Qed.

Lemma boundary_at_has_prefix (b : list byte) (k : Z) :
  boundary_at b k -> has_prefix (slice_from k b) startCode = true.
Proof. intros (_ & _ & Hp & _). by apply has_prefix_take. Qed.

(** From a scan position at or before a boundary, a turn of the loop
    returns an offset that is at or before that boundary, or goes on from a
    position that still is. *)
Lemma indexAUD_body_first (b : list byte) (i k : Z) :
  0 <= i <= k -> boundary_at b k ->
  match indexAUD_body b startCode i with
  | Return r => i <= r <= k
  | Continue i' => i' <= k
  end.
Proof.
  intros Hi Hk. pose proof (boundary_at_has_prefix b k Hk) as Hpk.
  destruct Hk as (_ & Hlen & _ & Haud).
  unfold indexAUD_body. rewrite len_startCode.
  set (j := bytes_Index (slice_from i b) startCode).
  assert (0 <= j <= k - i) as Hj.
  { replace (k - i) with (Z.of_nat (Z.to_nat (k - i))) by lia.
    apply bytes_Index_first. unfold slice_from in *.
    rewrite drop_drop. by replace (Z.to_nat i + Z.to_nat (k - i))%nat
      with (Z.to_nat k) by lia. }
  destruct (Z.ltb_spec j 0); [lia|].
  destruct (bytes_Index_found (slice_from i b) startCode) as [Hpj _]; [by fold j|].
  fold j in Hpj.
  destruct ((i + j + 4 <? len b) && is_aud (byte_at b (i + j + 4))) eqn:E; [lia|].
  assert (i + j <> k) as Hne.
  { intros Heq. rewrite Heq in E.
    destruct (Z.ltb_spec (k + 4) (len b)); [|lia]. by rewrite Haud in E. }
  assert (i + j + 4 <= k) as Hno.
  { destruct (decide (i + j + 4 <= k)) as [|Hov]; [done|]. exfalso.
    apply (startCode_no_overlap (slice_from (i + j) b) (Z.to_nat (k - (i + j)))).
    - unfold slice_from in *. rewrite drop_drop in Hpj.
      by rewrite Z2Nat.inj_add by lia.
    - unfold slice_from in *. rewrite drop_drop.
      by replace (Z.to_nat (i + j) + Z.to_nat (k - (i + j)))%nat
        with (Z.to_nat k) by lia.
    - lia. }
  destruct (Z.geb_spec (i + j + 4) (len b)); lia.
Qed.

Lemma indexAUD_loop_first (fuel : nat) (b : list byte) (i k r : Z) :
  0 <= i <= k -> boundary_at b k ->
  indexAUD_loop fuel b startCode i = Some r -> i <= r <= k.
Proof.
  revert i. induction fuel as [|fuel IH]; intros i Hi Hk; [done|].
  cbn [indexAUD_loop]. pose proof (indexAUD_body_first b i k Hi Hk) as Hbody.
  destruct (indexAUD_body b startCode i) as [r'|i'] eqn:E.
  - by intros [= <-].
  - intros Hloop. apply (indexAUD_body_advance b startCode) in E as [? ?];
      [|lia].
    rewrite len_startCode in *. specialize (IH i' ltac:(lia) Hk Hloop). lia.
Qed.

(** The scan finds the first boundary: its answer is a boundary (lemma
    [indexAUD_boundary]) and no boundary lies before it. *)
Lemma indexAUD_first (b : list byte) (k : Z) :
  boundary_at b k -> 0 <= indexAUD b startCode <= k.
Proof.
  intros Hk. destruct (indexAUD_loop_total b startCode) as (r & _ & Hr & ->);
    [by rewrite len_startCode|].
  apply (indexAUD_loop_first _ b 0 k r) in Hr; [done| |done].
  destruct Hk. lia.
Qed.

(** A slice without a boundary: the scan answers [-1]. *)
Lemma indexAUD_no_boundary (b : list byte) :
  has_boundary b = false -> indexAUD b startCode = -1.
Proof.
  intros Hno. destruct (indexAUD_boundary b) as [?|[_ Hs]]; [done|].
  apply has_boundary_drop in Hs. congruence.
Qed.

(** A slice that begins with a boundary: the scan answers [0]. *)
Lemma indexAUD_starts_with_boundary (b : list byte) :
  starts_with_boundary b = true -> indexAUD b startCode = 0.
Proof.
  intros (Hp & Hlen & Haud)%starts_with_boundary_elim.
  unfold indexAUD. cbn [indexAUD_loop]. unfold indexAUD_body, slice_from.
  change (Z.to_nat 0) with 0%nat. rewrite drop_0, (bytes_Index_prefix _ _ Hp).
  rewrite len_startCode. change (0 + 0 + 4) with 4. change (0 + 0) with 0.
  change (0 <? 0) with false. cbv iota. rewrite Haud.
  by destruct (Z.ltb_spec 4 (len b)); [|lia].
Qed.

(** The scan never answers with an offset in the last four bytes. *)
Lemma indexAUD_upper (b : list byte) :
  indexAUD b startCode = -1 \/
  (0 <= indexAUD b startCode /\ indexAUD b startCode + 4 < len b).
Proof.
  destruct (indexAUD_sound b startCode) as [?|(? & ? & _)]; [done|by left|].
  right. by rewrite len_startCode in *.
Qed.

(* ===================================================================== *)
(** * Properties of the stream framer *)
(* ===================================================================== *)

Lemma videoFrameChan_report_state (p : Pipeline) :
  videoFrameChan (report_state p) = videoFrameChan p.
Proof. reflexivity. Qed.

Lemma cut_frames_S (fuel : nat) (buf : list byte) (fc : chan (list byte)) :
  cut_frames (S fuel) buf fc =
    if indexAUD buf startCode <=? 0 then (buf, fc)
    else cut_frames fuel (slice_from (indexAUD buf startCode) buf)
           (if 0 <? len (slice_to (indexAUD buf startCode) buf)
            then send_if_open (slice_to (indexAUD buf startCode) buf) fc
            else fc).
Proof. reflexivity. Qed.

(** No boundary at a positive offset: the inner loop leaves at once. *)
Lemma cut_frames_stop (fuel : nat) (buf : list byte) (fc : chan (list byte)) :
  indexAUD buf startCode <= 0 -> cut_frames fuel buf fc = (buf, fc).
Proof.
  intros Hidx. destruct fuel as [|fuel]; [done|]. rewrite cut_frames_S.
  by destruct (Z.leb_spec (indexAUD buf startCode) 0); [|lia].
Qed.

(** What is left after a cut begins with the boundary that was found, so
    the next scan answers [0]. *)
Lemma indexAUD_after_cut (buf : list byte) :
  0 < indexAUD buf startCode ->
  indexAUD (slice_from (indexAUD buf startCode) buf) startCode = 0.
Proof.
  intros Hpos. destruct (indexAUD_boundary buf) as [?|[_ Hs]]; [lia|].
  by apply indexAUD_starts_with_boundary.
Qed.

(** The inner loop cuts at most once: its second turn always leaves. *)
Lemma cut_frames_two_turns (fuel : nat) (buf : list byte) (fc : chan (list byte)) :
  cut_frames (S (S fuel)) buf fc = cut_frames 2 buf fc.
Proof.
  rewrite !(cut_frames_S _ buf).
  destruct (Z.leb_spec (indexAUD buf startCode) 0) as [|Hpos]; [done|].
  rewrite !cut_frames_S, (indexAUD_after_cut _ Hpos). done.
Qed.

(** The bound on the turns of the inner loop is never what ends it: the
    buffer it leaves has no boundary at a positive offset. *)
Lemma cut_frames_settled (buf : list byte) (fc : chan (list byte)) :
  indexAUD (cut_frames (S (length buf)) buf fc).1 startCode <= 0.
Proof.
  destruct (Z.leb_spec (indexAUD buf startCode) 0) as [Hle|Hpos].
  - by rewrite cut_frames_stop.
  - destruct buf as [|x buf].
    { destruct (indexAUD_upper []) as [?|[? ?]]; [lia|]. rewrite len_nil in *. lia. }
    cbn [length]. rewrite cut_frames_S.
    destruct (Z.leb_spec (indexAUD (x :: buf) startCode) 0); [lia|].
    rewrite cut_frames_stop by (rewrite (indexAUD_after_cut _ Hpos); lia).
    cbn [fst]. rewrite (indexAUD_after_cut _ Hpos). lia.
Qed.


(** A pass over a buffer with no boundary at a positive offset and within
    the ceiling only appends. *)
Lemma reader_pass_append (chunk buf : list byte) (p : Pipeline) :
  indexAUD (buf ++ chunk) startCode <= 0 ->
  len (buf ++ chunk) <= maxBuffer ->
  reader_pass chunk buf p = (buf ++ chunk, report_state p).
Proof.
  intros Hidx Hlen. unfold reader_pass. rewrite (cut_frames_stop _ _ _ Hidx).
  destruct (Z.ltb_spec maxBuffer (len (buf ++ chunk))); [lia|].
  by destruct p.
Qed.

(** A pass over a buffer with no boundary at a positive offset and beyond
    the ceiling flushes everything. *)
Lemma reader_pass_flush (chunk buf : list byte) (p : Pipeline) :
  indexAUD (buf ++ chunk) startCode <= 0 ->
  maxBuffer < len (buf ++ chunk) ->
  reader_pass chunk buf p =
    ([], report_state
           (set_videoFrameChan (send_if_open (buf ++ chunk) (videoFrameChan p)) p)).
Proof.
  intros Hidx Hlen. unfold reader_pass. rewrite (cut_frames_stop _ _ _ Hidx).
  destruct (Z.ltb_spec maxBuffer (len (buf ++ chunk))); [|lia].
  by destruct p.
Qed.



(** A stream that begins with a boundary: no prefix of it has a boundary
    at a positive offset that the scan would answer with. *)
Lemma indexAUD_take_starts_with_boundary (s : list byte) (n : nat) :
  starts_with_boundary s = true -> indexAUD (take n s) startCode <= 0.
Proof.
  intros Hs. destruct (decide (5 <= n)%nat) as [Hn|Hn].
  - rewrite indexAUD_starts_with_boundary; [done|].
    destruct s as [|a [|b' [|c [|d [|h s]]]]]; try discriminate.
    do 5 (destruct n as [|n]; [lia|]). done.
  - destruct (indexAUD_upper (take n s)) as [->|[? Hup]]; [lia|].
    unfold len in Hup. rewrite length_take in Hup. lia.
Qed.

(** While no prefix of the bytes consumed has a boundary at a positive
    offset and they fit under the ceiling, the loop delivers nothing and
    retains everything. *)
Lemma reader_loop_retains (reads : list read) (buf : list byte) (p : Pipeline) :
  (forall n, indexAUD (take n (buf ++ consumed reads)) startCode <= 0) ->
  len (buf ++ consumed reads) <= maxBuffer ->
  (reader_loop reads buf p).1 = buf ++ consumed reads /\
  videoFrameChan (reader_loop reads buf p).2 = videoFrameChan p.
Proof.
  revert buf p. induction reads as [|r reads IH]; intros buf p Hs Hlen.
  { cbn. by rewrite app_nil_r. }
  cbn [reader_loop consumed] in *.
  set (rest := if read_err r then [] else consumed reads) in *.
  assert ((if 0 <? len (read_data r) then reader_pass (read_data r) buf p else (buf, p))
          = (buf ++ read_data r,
             if 0 <? len (read_data r) then report_state p else p)) as ->.
  { destruct (Z.ltb_spec 0 (len (read_data r))) as [Hn|Hn].
    - apply reader_pass_append.
      + rewrite <- (take_app_length (buf ++ read_data r) rest), <- app_assoc.
        apply Hs.
      + rewrite app_assoc, len_app in Hlen. pose proof (len_nonneg rest). lia.
    - assert (read_data r = []) as ->; [|by rewrite app_nil_r].
      apply length_zero_iff_nil. unfold len in Hn. lia. }
  subst rest. destruct (read_err r).
  - cbn [fst snd]. rewrite app_nil_r. by destruct (0 <? _).
  - rewrite app_assoc in Hs, Hlen. destruct (IH _ (if 0 <? len (read_data r)
      then report_state p else p) Hs Hlen) as [-> ->].
    rewrite <- app_assoc. by destruct (0 <? _).
Qed.

Lemma starts_with_boundary_app (s t : list byte) :
  starts_with_boundary s = true -> starts_with_boundary (s ++ t) = true.
Proof. by destruct s as [|a [|b' [|c [|d [|h s]]]]]. Qed.

(** A boundary in a prefix is a boundary in the whole. *)
Lemma has_boundary_app (s t : list byte) :
  has_boundary (s ++ t) = false -> has_boundary s = false.
Proof.
  intros Hno. destruct (has_boundary s) eqn:E; [|done].
  apply has_boundary_elim in E as [k Hk].
  apply (starts_with_boundary_app _ (drop (k - length s) t)) in Hk.
  rewrite <- drop_app in Hk. apply has_boundary_drop in Hk. congruence.
Qed.

Lemma has_boundary_take (s : list byte) (n : nat) :
  has_boundary s = false -> has_boundary (take n s) = false.
Proof. rewrite <- (take_drop n s) at 1. apply has_boundary_app. Qed.

Lemma starts_with_boundary_stream_of (us : list (byte * list byte)) :
  us <> [] -> Forall (fun u => is_aud u.1 = true) us ->
  starts_with_boundary (stream_of us) = true.
Proof.
  destruct us as [|[h body] us]; [done|]. intros _ Hall.
  apply Forall_cons_1 in Hall as [Hh _]. cbn in Hh.
  unfold stream_of. cbn. by rewrite Hh.
Qed.

(** ** The overflow guard *)

(** A pass that ends beyond the ceiling with no boundary in the buffer. *)
Lemma reader_pass_overflow (chunk buf : list byte) (p : Pipeline) :
  is_Some (videoFrameChan p) ->
  has_boundary (buf ++ chunk) = false ->
  maxBuffer < len (buf ++ chunk) ->
  (reader_pass chunk buf p).1 = [] /\
  delivered (reader_pass chunk buf p).2 = delivered p ++ [buf ++ chunk].
Proof.
  intros [q Hq] Hno Hlen.
  rewrite reader_pass_flush; [|rewrite indexAUD_no_boundary; [lia|done]|done].
  cbn [fst snd]. split; [done|]. unfold delivered.
  rewrite videoFrameChan_report_state. cbn. by rewrite Hq.
Qed.

(** Below the ceiling, a stream without boundary only accumulates. *)
Lemma framer_below_ceiling (chunk buf : list byte) (p : Pipeline) :
  has_boundary (buf ++ chunk) = false ->
  len (buf ++ chunk) <= maxBuffer ->
  (reader_pass chunk buf p).1 = buf ++ chunk /\
  delivered (reader_pass chunk buf p).2 = delivered p.
Proof.
  intros Hno Hlen. rewrite reader_pass_append; [done| |done].
  rewrite indexAUD_no_boundary; [lia|done].
Qed.

(** Reads without error, then more reads. *)
Lemma reader_loop_app (reads reads' : list read) (buf : list byte) (p : Pipeline) :
  Forall (fun r => read_err r = false) reads ->
  reader_loop (reads ++ reads') buf p =
    reader_loop reads' (reader_loop reads buf p).1 (reader_loop reads buf p).2.
Proof.
  intros Herr. revert buf p.
  induction Herr as [|r0 reads Hr0 _ IH]; intros buf p; [done|].
  cbn [reader_loop app]. destruct (if 0 <? _ then _ else _) as [b1 p1].
  rewrite Hr0. apply IH.
Qed.

(** The guard over a whole stream: reads without boundary that stay under
    the ceiling, then one read that crosses it, deliver one frame in all,
    the stream itself. *)
Lemma stdout_reader_overflow (reads : list read) (r : read) (p : Pipeline) :
  is_Some (videoFrameChan p) ->
  Forall (fun r => read_err r = false) reads ->
  has_boundary (consumed reads ++ read_data r) = false ->
  len (consumed reads) <= maxBuffer < len (consumed reads ++ read_data r) ->
  (stdout_reader (reads ++ [r]) p).1 = [] /\
  delivered (stdout_reader (reads ++ [r]) p).2 = delivered p ++ [consumed reads ++ read_data r].
Proof.
  intros Hopen Herr Hno [Hle Hgt]. unfold stdout_reader.
  rewrite reader_loop_app by done.
  destruct (reader_loop_retains reads [] p) as [E1 E2].
  { intros n. rewrite indexAUD_no_boundary; [lia|].
    apply has_boundary_take. by apply has_boundary_app in Hno. }
  { done. }
  rewrite E1. cbn [app] in *. cbn [reader_loop].
  assert (0 < len (read_data r)) as Hn by (rewrite len_app in Hgt; lia).
  destruct (Z.ltb_spec 0 (len (read_data r))); [|lia].
  assert (is_Some (videoFrameChan (reader_loop reads [] p).2)) as Hopen'
    by (by rewrite E2).
  destruct (reader_pass_overflow (read_data r) (consumed reads) _ Hopen' Hno Hgt)
    as [F1 F2].
  destruct (reader_pass _ _ _) as [b2 p2]. cbn [fst snd] in *.
  unfold delivered in *. rewrite E2 in F2. by destruct (read_err r).
Qed.

(** C4. Framer overflow guard: when the bytes accumulated so far hold no
    boundary (start marker followed by an AUD byte) and, after the bytes of
    a read are appended, the accumulation buffer is longer than the 256 KiB
    ceiling, the pass delivers exactly one frame, equal to the whole
    buffer, and leaves the buffer empty.  The frame channel of package
    native is taken to exist (to be non-nil). *)
Theorem framer_overflow_guard (chunk buf : list byte) (p : Pipeline) :
  is_Some (videoFrameChan p) ->
  has_boundary (buf ++ chunk) = false ->
  maxBuffer < len (buf ++ chunk) ->
  (reader_pass chunk buf p).1 = [] /\
  delivered (reader_pass chunk buf p).2 = delivered p ++ [buf ++ chunk] /\
  length (delivered (reader_pass chunk buf p).2) = S (length (delivered p)).
Proof.
  intros Hopen Hno Hlen.
  destruct (reader_pass_overflow chunk buf p Hopen Hno Hlen) as [E1 E2].
  split; [done|]. split; [done|]. rewrite E2, length_app. cbn. lia.
Qed.

Lemma framer_overflow_guard_witness :
  let buf := replicate (Z.to_nat 262144) x00 in
  let chunk := [xff] in
  let p := initial (Some []) (Some []) in
  (reader_pass chunk buf p).1 = [] /\
  delivered (reader_pass chunk buf p).2 = delivered p ++ [buf ++ chunk] /\
  length (delivered (reader_pass chunk buf p).2) = S (length (delivered p)).
Proof.
  intros buf chunk p. apply (framer_overflow_guard chunk buf p).
  - by eexists.
  - vm_compute. reflexivity.
  - vm_compute. reflexivity.
Defined.


(** ** The scan terminates and answers with boundaries only *)

(** C10. For every byte sequence [b] the boundary scan [indexAUD(b,
    startCode)] terminates: every turn of its loop that goes on moves the
    scan position forward by the four bytes of the marker at least and keeps
    it inside [b], so the loop returns within [len b / 4 + 1] turns.  What it
    returns is [-1] or an offset at which the start marker lies and is
    followed inside [b] by a byte whose low five bits are 9; an offset whose
    marker ends [b] (no byte after it) is never returned. *)
Theorem indexAUD_terminates_and_is_sound (b : list byte) :
  (exists r,
     indexAUD_loop (S (Z.to_nat (len b / 4))) b startCode 0 = Some r /\
     indexAUD b startCode = r) /\
  (forall i i', 0 <= i -> indexAUD_body b startCode i = Continue i' ->
     i + 4 <= i' /\ i' < len b) /\
  (indexAUD b startCode = -1 \/ boundary_at b (indexAUD b startCode)) /\
  (forall k, 0 <= k -> len b <= k + 4 -> indexAUD b startCode <> k).
Proof.
  assert (0 < len startCode) as Hsc by (by rewrite len_startCode).
  split; [|split; [|split]].
  - destruct (indexAUD_loop_total b startCode Hsc) as (r & Hr & _ & Hidx).
    rewrite len_startCode in Hr. eauto.
  - intros i i' Hi Hbody.
    apply (indexAUD_body_advance b startCode) in Hbody; [|done].
    by rewrite len_startCode in Hbody.
  - destruct (indexAUD_boundary b) as [?|[? _]]; [by left | by right].
  - intros k Hk Hlast Hidx. destruct (indexAUD_upper b) as [?|[_ ?]]; lia.
Qed.

Lemma indexAUD_terminates_and_is_sound_witness :
  indexAUD [xaa; x00; x00; x00; x01] startCode <> 1 /\
  (indexAUD_body [x00; x00; x00; x01; x65; x00; x00; x00; x01; x09; xf0] startCode 0
     = Continue 4) /\
  boundary_at [x00; x00; x00; x01; x65; x00; x00; x00; x01; x09; xf0] 5.
Proof.
  split; [|split].
  - apply (indexAUD_terminates_and_is_sound [xaa; x00; x00; x00; x01]); [lia|].
    vm_compute. discriminate.
  - reflexivity.
  - destruct (indexAUD_terminates_and_is_sound
                [x00; x00; x00; x01; x65; x00; x00; x00; x01; x09; xf0])
      as (_ & _ & [H|H] & _); [vm_compute in H; discriminate | exact H].
Defined.

(** ** A stream of AUD-led units *)

(** C3. The framer on the synthetic stream of the round-trip property.  For
    every non-empty list of units, each the start marker, a unit-type byte
    with low five bits 9 and a body, whose concatenation fits under the
    ceiling, and for every way the stream arrives in reads, the reader
    delivers no frame at all and retains the whole stream: the boundary at
    offset 0 is what the scan answers with, and the loop leaves on it.
    What is delivered and what is retained still make up the stream. *)
Theorem framer_aud_stream_delivers_nothing
    (us : list (byte * list byte)) (reads : list read) (p : Pipeline) :
  us <> [] ->
  Forall (fun u => is_aud u.1 = true) us ->
  consumed reads = stream_of us ->
  len (stream_of us) <= maxBuffer ->
  delivered (stdout_reader reads p).2 = delivered p /\
  (stdout_reader reads p).1 = stream_of us.
Proof.
  intros Hne Haud Hreads Hlen. unfold stdout_reader.
  destruct (reader_loop_retains reads [] p) as [E1 E2].
  - intros n. cbn [app]. rewrite Hreads.
    apply indexAUD_take_starts_with_boundary.
    by apply starts_with_boundary_stream_of.
  - cbn [app]. by rewrite Hreads.
  - unfold delivered. rewrite E1, E2. cbn [app]. by rewrite Hreads.
Qed.

Lemma framer_aud_stream_delivers_nothing_witness :
  let us := [(x09, [xaa]); (x09, [xbb])] in
  let reads := [mkRead (stream_of us) false] in
  let p := initial (Some []) (Some []) in
  stream_of us = [x00; x00; x00; x01; x09; xaa; x00; x00; x00; x01; x09; xbb] /\
  delivered (stdout_reader reads p).2 = [] /\
  (stdout_reader reads p).1 = stream_of us.
Proof.
  intros us reads p. split; [reflexivity|].
  apply (framer_aud_stream_delivers_nothing us reads p).
  - discriminate.
  - repeat constructor.
  - reflexivity.
  - vm_compute. discriminate.
Defined.

(** The same stream, run: two units in one read, or byte by byte. *)
Example framer_two_units_one_read :
  let s := [x00; x00; x00; x01; x09; xaa; x00; x00; x00; x01; x09; xbb] in
  let r := stdout_reader [mkRead s false] (initial (Some []) (Some [])) in
  r.1 = s /\ videoFrameChan r.2 = Some [].
Proof. vm_compute. done. Qed.

Example framer_two_units_bytewise :
  let s := [x00; x00; x00; x01; x09; xaa; x00; x00; x00; x01; x09; xbb] in
  let r := stdout_reader (map (fun x => mkRead [x] false) s)
             (initial (Some []) (Some [])) in
  r.1 = s /\ videoFrameChan r.2 = Some [].
Proof. vm_compute. done. Qed.

(** A stream that does not begin with a boundary loses its head at the
    first boundary, and nothing after that. *)
Example framer_one_cut_only :
  let s := [xee; x00; x00; x00; x01; x09; xaa; x00; x00; x00; x01; x09; xbb;
            x00; x00; x00; x01; x09; xcc] in
  let r := stdout_reader [mkRead s false] (initial (Some []) (Some [])) in
  r.1 = drop 1 s /\ videoFrameChan r.2 = Some [[xee]].
Proof. vm_compute. done. Qed.

(* ===================================================================== *)
(** * Properties of the quality controller *)
(* ===================================================================== *)

(** ** Comparison of floats *)

Lemma SFcompare_antisym (x y : float64) :
  SFcompare y x = option_map CompOpp (SFcompare x y).
Proof.
  destruct x as [sx|sx| |sx mx ex], y as [sy|sy| |sy my ey]; cbn;
    try done; try (by destruct sx); try (by destruct sy);
    try (by destruct sx, sy).
  destruct sx, sy; try done.
  - rewrite (Z.compare_antisym ey ex). destruct (ey ?= ex); cbn; try done.
    f_equal. change (Pos.compare_cont Eq) with Pos.compare.
    by rewrite (Pos.compare_antisym mx my), CompOpp_involutive.
  - rewrite (Z.compare_antisym ey ex). destruct (ey ?= ex); cbn; try done.
    f_equal. change (Pos.compare_cont Eq) with Pos.compare.
    by rewrite (Pos.compare_antisym mx my).
Qed.

(** For numbers, "not below" is "at or above". *)
Lemma f64_not_lt_le (x y : float64) :
  is_nan x = false -> is_nan y = false ->
  f64_lt x y = false -> f64_le y x = true.
Proof.
  unfold f64_lt, f64_le, SFltb, SFleb. intros Hx Hy.
  rewrite (SFcompare_antisym x y).
  destruct (SFcompare x y) as [[| |]|] eqn:E; cbn; try done.
  by destruct x, y.
Qed.

(** A NaN is below nothing and above nothing. *)
Lemma f64_lt_nan_l (y : float64) : f64_lt S754_nan y = false.
Proof. reflexivity. Qed.
Lemma f64_lt_nan_r (x : float64) : f64_lt x S754_nan = false.
Proof. by destruct x. Qed.

(** ** The supervisor leaves the quality settings alone *)

(** Open the record of variables and the two handles that the supervisor
    tests. *)
Ltac open_pipeline p :=
  destruct p as [[?|] [?|] ? ? ? ? ? ? ? ? ? ? ? ? ?].

Lemma qualityFactor_videoStop (p : Pipeline) :
  qualityFactor (videoStop p) = qualityFactor p.
Proof. by open_pipeline p. Qed.

Lemma targetBitrate_videoStop (p : Pipeline) :
  targetBitrate (videoStop p) = targetBitrate p.
Proof. by open_pipeline p. Qed.

Lemma qualityFactor_videoStart fs o (p : Pipeline) :
  qualityFactor (videoStart fs o p) = qualityFactor p.
Proof. by open_pipeline p; destruct o. Qed.

Lemma targetBitrate_videoStart fs o (p : Pipeline) :
  targetBitrate (videoStart fs o p) = targetBitrate p.
Proof. by open_pipeline p; destruct o. Qed.

(** ** The stored factor and the bitrate token *)

Lemma qualityFactor_set fs o factor (p : Pipeline) :
  qualityFactor (videoSetStreamQualityFactor fs o factor p).1 = clamp_factor factor.
Proof.
  unfold videoSetStreamQualityFactor. cbn [fst].
  destruct (ffmpegCmd _);
    by rewrite ?qualityFactor_videoStart, ?qualityFactor_videoStop.
Qed.

Lemma targetBitrate_set fs o factor (p : Pipeline) :
  targetBitrate (videoSetStreamQualityFactor fs o factor p).1
  = Itoa (mbps_of (clamp_factor factor)) +:+ "M".
Proof.
  unfold videoSetStreamQualityFactor. cbn [fst].
  destruct (ffmpegCmd _);
    by rewrite ?targetBitrate_videoStart, ?targetBitrate_videoStop.
Qed.

(** The setter is a function of the clamped factor. *)
Lemma videoSetStreamQualityFactor_clamp fs o factor (p : Pipeline) :
  videoSetStreamQualityFactor fs o factor p
  = videoSetStreamQualityFactor fs o (clamp_factor factor) p.
Proof.
  assert (clamp_factor (clamp_factor factor) = clamp_factor factor) as Hidem.
  { unfold clamp_factor. destruct (f64_lt factor f64_0_5) eqn:E1.
    - done.
    - destruct (f64_lt f64_2_0 factor) eqn:E2; [done|]. by rewrite E1, E2. }
  unfold videoSetStreamQualityFactor.
  fold (clamp_factor factor). fold (clamp_factor (clamp_factor factor)).
  by rewrite Hidem.
Qed.

(** Above 2.0 is not below 0.5. *)
Lemma f64_above_not_below (x : float64) :
  f64_lt f64_2_0 x = true -> f64_lt x f64_0_5 = false.
Proof.
  destruct x as [[|]|[|]| |[|] m e]; try done.
  unfold f64_lt, SFltb, SFcompare, f64_2_0, f64_0_5.
  destruct (Z.compare_spec (-51) e), (Z.compare_spec e (-53)); (done || lia).
Qed.

Lemma clamp_factor_below (factor : float64) :
  f64_lt factor f64_0_5 = true -> clamp_factor factor = f64_0_5.
Proof. unfold clamp_factor. by intros ->. Qed.

Lemma clamp_factor_above (factor : float64) :
  f64_lt f64_2_0 factor = true -> clamp_factor factor = f64_2_0.
Proof.
  unfold clamp_factor. intros H2.
  rewrite (f64_above_not_below _ H2). by rewrite H2.
Qed.

(** The factor stored for a number lies in [[0.5, 2.0]]. *)
Lemma clamp_factor_in_range (factor : float64) :
  is_nan factor = false -> in_quality_range (clamp_factor factor) = true.
Proof.
  intros Hnan. unfold clamp_factor, in_quality_range.
  destruct (f64_lt factor f64_0_5) eqn:E1; [done|].
  destruct (f64_lt f64_2_0 factor) eqn:E2; [done|].
  by rewrite !f64_not_lt_le.
Qed.

(** A NaN is stored as it is. *)
Lemma clamp_factor_nan : clamp_factor S754_nan = S754_nan.
Proof. reflexivity. Qed.

Lemma mbps_of_range (factor : float64) : 2 <= mbps_of factor <= 12.
Proof.
  unfold mbps_of. destruct (Z.ltb_spec (int_of_float64 (f64_mul f64_4_0 factor)) 2).
  - cbn. lia.
  - destruct (Z.ltb_spec 12 (int_of_float64 (f64_mul f64_4_0 factor))); lia.
Qed.

Lemma mbps_of_clampZ (factor : float64) :
  mbps_of factor = clampZ 2 12 (int_of_float64 (f64_mul f64_4_0 factor)).
Proof.
  unfold mbps_of, clampZ.
  destruct (Z.ltb_spec (int_of_float64 (f64_mul f64_4_0 factor)) 2).
  - change (12 <? 2) with false. cbv iota. lia.
  - destruct (Z.ltb_spec 12 (int_of_float64 (f64_mul f64_4_0 factor))); lia.
Qed.

(** ** The product [4 * factor] is exact on the range *)

Lemma digits2_pos_bounds (m : positive) :
  2 ^ (Zpos (digits2_pos m) - 1) <= Zpos m < 2 ^ Zpos (digits2_pos m).
Proof.
  induction m as [m IH|m IH|]; cbn [digits2_pos]; [| |done].
  - rewrite Pos2Z.inj_succ. change (Zpos m~1) with (2 * Zpos m + 1).
    replace (Z.succ (Zpos (digits2_pos m)) - 1) with (Z.succ (Zpos (digits2_pos m) - 1)) by lia.
    rewrite !Z.pow_succ_r by lia. lia.
  - rewrite Pos2Z.inj_succ. change (Zpos m~0) with (2 * Zpos m).
    replace (Z.succ (Zpos (digits2_pos m)) - 1) with (Z.succ (Zpos (digits2_pos m) - 1)) by lia.
    rewrite !Z.pow_succ_r by lia. lia.
Qed.

(** The values of binary64 in [[0.5, 2.0]]: positive, 53 bits of mantissa,
    exponent -53 (below 1), -52 (below 2) or -51 (2 itself). *)
Lemma in_quality_range_shape (x : float64) :
  is_float64 x = true -> in_quality_range x = true ->
  exists m e, x = S754_finite false m e /\
    digits2_pos m = 53%positive /\
    (e = -53 \/ e = -52 \/ (e = -51 /\ m = 4503599627370496%positive)).
Proof.
  unfold is_float64, in_quality_range, f64_le, SFleb.
  destruct x as [[|]|[|]| |[|] m e]; try done.
  intros Hv [H1 H2]%andb_true_iff. exists m, e. split; [done|].
  unfold f64_0_5, f64_2_0, SFcompare in H1, H2.
  destruct (Z.compare_spec (-53) e) as [He1|He1|He1]; try done;
  destruct (Z.compare_spec e (-51)) as [He2|He2|He2]; try done.
  all: cbn in Hv; unfold bounded, canonical_mantissa, fexp, emin in Hv.
  all: apply andb_true_iff in Hv as [Hv _]; apply Z.eqb_eq in Hv.
  all: assert (digits2_pos m = 53%positive) as Hd by lia.
  all: split; [done|].
  all: try lia.
  subst e. right; right. split; [reflexivity|].
  pose proof (digits2_pos_bounds m) as Hb. rewrite Hd in Hb.
  change (2 ^ (53 - 1)) with 4503599627370496 in Hb. destruct Hb as [Hb _].
  apply Pos.le_antisym; [|exact Hb].
  unfold Pos.le, Pos.compare. intros Hgt. rewrite Hgt in H2. discriminate H2.
Qed.

Lemma f64_mul_4_exact (m : positive) (e : Z) :
  digits2_pos m = 53%positive -> -53 <= e <= -51 ->
  f64_mul f64_4_0 (S754_finite false m e) = S754_finite false m (e + 2).
Proof.
  intros Hd He.
  assert (e = -53 \/ e = -52 \/ e = -51) as [->|[->| ->]] by lia.
  all: unfold f64_mul, SFmul, f64_4_0, binary_round_aux, shr_fexp.
  all: cbv [Pos.mul xorb].
  all: cbn [Zdigits2 digits2_pos]; rewrite Hd.
  all: cbv -[digits2_pos]; rewrite Hd.
  all: reflexivity.
Qed.

(** On the range, [int(4 * factor)] is the integer part of four times the
    value of the factor, and lies between 2 and 8. *)
Lemma int_of_4_factor (x : float64) :
  is_float64 x = true -> in_quality_range x = true ->
  int_of_float64 (f64_mul f64_4_0 x) = Qfloor (4 * Q_of_float64 x)%Q /\
  2 <= int_of_float64 (f64_mul f64_4_0 x) <= 8.
Proof.
  intros Hv Hr. destruct (in_quality_range_shape x Hv Hr) as (m & e & -> & Hd & He).
  rewrite f64_mul_4_exact by (done || lia).
  pose proof (digits2_pos_bounds m) as Hb. rewrite Hd in Hb.
  change (2 ^ (53 - 1)) with 4503599627370496 in Hb.
  change (2 ^ 53) with 9007199254740992 in Hb.
  unfold int_of_float64, min_int64, max_int64.
  destruct He as [->|[->|[-> ->]]]; [| |done].
  - change (0 <=? -53 + 2) with false. cbv iota.
    change (- (-53 + 2)) with 51. rewrite Z.shiftr_div_pow2 by lia.
    change (2 ^ 51) with 2251799813685248.
    assert (2 <= Zpos m / 2251799813685248 <= 3).
    { split; [apply Z.div_le_lower_bound | apply Z.lt_succ_r, Z.div_lt_upper_bound]; lia. }
    destruct (Z.leb_spec (- 2 ^ 63) (Zpos m / 2251799813685248)); [|lia].
    destruct (Z.leb_spec (Zpos m / 2251799813685248) (2 ^ 63 - 1)); [|lia].
    cbn [andb]. split; [|lia].
    unfold Qfloor, Q_of_float64.
    change ((2 # 1) ^ (-53))%Q with (1 # 9007199254740992)%Q.
    unfold Qmult. cbn [Qnum Qden]. rewrite Z.mul_1_l, Z.mul_1_r.
    change (Z.pos (1 * (1 * 1 * 9007199254740992))) with (4 * 2251799813685248).
    by rewrite Z.div_mul_cancel_l.
  - change (0 <=? -52 + 2) with false. cbv iota.
    change (- (-52 + 2)) with 50. rewrite Z.shiftr_div_pow2 by lia.
    change (2 ^ 50) with 1125899906842624.
    assert (4 <= Zpos m / 1125899906842624 <= 7).
    { split; [apply Z.div_le_lower_bound | apply Z.lt_succ_r, Z.div_lt_upper_bound]; lia. }
    destruct (Z.leb_spec (- 2 ^ 63) (Zpos m / 1125899906842624)); [|lia].
    destruct (Z.leb_spec (Zpos m / 1125899906842624) (2 ^ 63 - 1)); [|lia].
    cbn [andb]. split; [|lia].
    unfold Qfloor, Q_of_float64.
    change ((2 # 1) ^ (-52))%Q with (1 # 4503599627370496)%Q.
    unfold Qmult. cbn [Qnum Qden]. rewrite Z.mul_1_l, Z.mul_1_r.
    change (Z.pos (1 * (1 * 1 * 4503599627370496))) with (4 * 1125899906842624).
    by rewrite Z.div_mul_cancel_l.
Qed.

(** ** The quality factor and the bitrate *)

Lemma is_float64_clamp_factor (factor : float64) :
  is_float64 factor = true -> is_float64 (clamp_factor factor) = true.
Proof.
  intros Hv. unfold clamp_factor.
  destruct (f64_lt factor f64_0_5); [done|].
  by destruct (f64_lt f64_2_0 factor).
Qed.

(** The bitrate computed from a stored factor that is a number. *)
Lemma mbps_of_trunc (x : float64) :
  is_float64 x = true -> in_quality_range x = true ->
  mbps_of x = trunc_mbps (Q_of_float64 x) /\ 2 <= mbps_of x <= 8.
Proof.
  intros Hv Hr. destruct (int_of_4_factor x Hv Hr) as [E Hb].
  rewrite mbps_of_clampZ. unfold trunc_mbps. rewrite <- E.
  split; [done|]. unfold clampZ. lia.
Qed.

(** C1, as the code has it. For every binary64 factor that is a number,
    [videoSetStreamQualityFactor] returns no error, stores the factor
    clamped to [[0.5, 2.0]] (0.5 for a factor below, 2.0 for a factor above,
    the factor itself otherwise), and sets the bitrate token to ["<m>M"]
    where [m] is the integer part of four times the stored factor (the
    fraction is discarded, not rounded), clamped to [[2, 12]]; [m] is within
    [[2, 8]], so within [[2, 12]].  A factor below 0.5 behaves as 0.5 and a
    factor above 2.0 as 2.0, whatever the state and the answers of the
    system; 0.1 and 5.0 are such factors. *)
Theorem setQualityFactor_clamps_and_truncates
    (fs : gset string) (o : launch) (factor : float64) (p : Pipeline) :
  is_float64 factor = true ->
  is_nan factor = false ->
  let r := videoSetStreamQualityFactor fs o factor p in
  r.2 = None /\
  qualityFactor r.1 =
    (if f64_lt factor f64_0_5 then f64_0_5
     else if f64_lt f64_2_0 factor then f64_2_0 else factor) /\
  in_quality_range (qualityFactor r.1) = true /\
  targetBitrate r.1
    = Itoa (clampZ 2 12 (Qfloor (4 * Q_of_float64 (qualityFactor r.1))%Q)) +:+ "M" /\
  2 <= clampZ 2 12 (Qfloor (4 * Q_of_float64 (qualityFactor r.1))%Q) <= 8 /\
  (f64_lt factor f64_0_5 = true ->
     r = videoSetStreamQualityFactor fs o f64_0_5 p) /\
  (f64_lt f64_2_0 factor = true ->
     r = videoSetStreamQualityFactor fs o f64_2_0 p) /\
  videoSetStreamQualityFactor fs o f64_0_1 p
    = videoSetStreamQualityFactor fs o f64_0_5 p /\
  videoSetStreamQualityFactor fs o f64_5_0 p
    = videoSetStreamQualityFactor fs o f64_2_0 p.
Proof.
  intros Hv Hnan r. subst r.
  pose proof (clamp_factor_in_range factor Hnan) as Hr.
  destruct (mbps_of_trunc _ (is_float64_clamp_factor _ Hv) Hr) as [Em Hb].
  rewrite qualityFactor_set, targetBitrate_set.
  fold (trunc_mbps (Q_of_float64 (clamp_factor factor))). rewrite <- Em.
  split; [done|]. split.
  { unfold clamp_factor. destruct (f64_lt factor f64_0_5) eqn:E1; [done|].
    by destruct (f64_lt f64_2_0 factor). }
  split; [done|]. split; [done|]. split; [done|].
  split; [|split; [|split]].
  - intros Hlt. by rewrite videoSetStreamQualityFactor_clamp, (clamp_factor_below _ Hlt).
  - intros Hgt. by rewrite videoSetStreamQualityFactor_clamp, (clamp_factor_above _ Hgt).
  - by rewrite videoSetStreamQualityFactor_clamp.
  - by rewrite videoSetStreamQualityFactor_clamp.
Qed.

Lemma setQualityFactor_clamps_and_truncates_witness :
  let factor := S754_finite false 8444249301319680 (-53) in
  let r := videoSetStreamQualityFactor ∅ Started factor (initial None None) in
  (Q_of_float64 factor == 15 # 16)%Q /\
  qualityFactor r.1 = factor /\
  targetBitrate r.1 = "3M".
Proof.
  intros factor r.
  destruct (setQualityFactor_clamps_and_truncates ∅ Started factor (initial None None))
    as (_ & Hq & _ & Hb & _); [reflexivity | reflexivity |].
  split; [reflexivity|]. split; [exact Hq|]. subst r. rewrite Hb. reflexivity.
Defined.

(** C1, as the specification words it, fails: for the factor 0.9375 (15/16,
    a value of binary64) the rule [clamp(round(4 * factor), 2, 12)] gives 4,
    the token ["4M"]; the code sets ["3M"]. *)
Lemma setQualityFactor_does_not_round :
  let factor := S754_finite false 8444249301319680 (-53) in
  let r := videoSetStreamQualityFactor ∅ Started factor (initial None None) in
  (Q_of_float64 factor == 15 # 16)%Q /\
  spec_mbps (Q_of_float64 factor) = 4 /\
  targetBitrate r.1 = "3M" /\
  targetBitrate r.1 <> Itoa (spec_mbps (Q_of_float64 factor)) +:+ "M".
Proof. vm_compute. repeat split; discriminate. Qed.

(** The scenarios of the specification. *)
Example setQualityFactor_1_0_idle :
  let r := videoSetStreamQualityFactor ∅ Started f64_1_0 (initial (Some []) (Some [])) in
  targetBitrate r.1 = "4M" /\ sys r.1 = [] /\ videoStateChan r.1 = Some [].
Proof. vm_compute. done. Qed.

Example setQualityFactor_2_0_running :
  let p := videoStart ∅ Started (initial (Some []) (Some [])) in
  let r := videoSetStreamQualityFactor ∅ Started f64_2_0 p in
  targetBitrate r.1 = "8M" /\
  (Ready <$> default [] (videoStateChan r.1)) = [true; false; true] /\
  length (filter is_spawn (sys r.1)) = 2%nat.
Proof. vm_compute. done. Qed.

(** C9. The getter never returns an error and the factor starts at 1.0, but
    the stored factor is not always within [[0.5, 2.0]]: a NaN is neither
    below 0.5 nor above 2.0, so the setter stores it as it is, and the
    getter returns it. *)
Theorem qualityFactor_nan_is_stored
    (fs : gset string) (o : launch) (p : Pipeline) :
  let r := videoSetStreamQualityFactor fs o S754_nan p in
  is_float64 S754_nan = true /\
  videoGetStreamQualityFactor r.1 = (S754_nan, None) /\
  in_quality_range (qualityFactor r.1) = false.
Proof.
  cbn zeta. unfold videoGetStreamQualityFactor.
  rewrite qualityFactor_set, clamp_factor_nan. done.
Qed.

(** The rest of C9 holds: no error from the getter, the initial 1.0, and
    the range for every factor that is a number. *)
Lemma videoGetStreamQualityFactor_no_error (p : Pipeline) :
  (videoGetStreamQualityFactor p).2 = None.
Proof. reflexivity. Qed.

Lemma qualityFactor_initial sc fc :
  videoGetStreamQualityFactor (initial sc fc) = (f64_1_0, None) /\
  in_quality_range f64_1_0 = true.
Proof. done. Qed.

Lemma qualityFactor_in_range_for_numbers
    (fs : gset string) (o : launch) (factor : float64) (p : Pipeline) :
  is_nan factor = false ->
  in_quality_range (videoGetStreamQualityFactor
                      (videoSetStreamQualityFactor fs o factor p).1).1 = true.
Proof.
  intros Hnan. unfold videoGetStreamQualityFactor. cbn [fst].
  rewrite qualityFactor_set. by apply clamp_factor_in_range.
Qed.

Example qualityFactor_after_5_0 (fs : gset string) (o : launch) (p : Pipeline) :
  videoGetStreamQualityFactor (videoSetStreamQualityFactor fs o f64_5_0 p).1
  = (f64_2_0, None).
Proof. unfold videoGetStreamQualityFactor. by rewrite qualityFactor_set. Qed.

(* ===================================================================== *)
(** * Properties of the backend selector *)
(* ===================================================================== *)

(** C2, as the code has it. For every configuration and every file system,
    [buildFFmpegArgs] follows the ordered policy: if the mode is vaapi or
    auto, and the vaapi device node exists, the vaapi argument list; else if
    the mode is qsv or auto, and the node [/dev/dri/renderD128] exists, the
    qsv argument list; else the software (libx264) argument list.  A mode
    that names an accelerator does not select it when its node is missing. *)
Theorem buildFFmpegArgs_policy (fs : gset string) (p : Pipeline) :
  buildFFmpegArgs fs p =
    if (bool_decide (hwAccelMode p = "vaapi") || bool_decide (hwAccelMode p = "auto"))
       && Stat fs (vaapiDevice p)
    then vaapi_args p
    else if (bool_decide (hwAccelMode p = "qsv") || bool_decide (hwAccelMode p = "auto"))
            && Stat fs qsvDevice
    then qsv_args p
    else libx264_args p.
Proof.
  unfold buildFFmpegArgs, canQSV, canVAAPI.
  destruct (bool_decide_reflect (hwAccelMode p = "vaapi")) as [Ev|Ev];
  destruct (bool_decide_reflect (hwAccelMode p = "auto")) as [Ea|Ea];
  destruct (bool_decide_reflect (hwAccelMode p = "qsv")) as [Eq|Eq];
  destruct (bool_decide_reflect (hwAccelMode p ≠ "none")) as [En|En];
  destruct (Stat fs (vaapiDevice p)), (Stat fs qsvDevice);
  cbn; try reflexivity; try congruence.
  all: exfalso; apply En; congruence.
Qed.

(** C2, as the specification words it, fails: in mode vaapi with no device
    node present the code selects the software list, not the vaapi list. *)
Lemma buildFFmpegArgs_vaapi_needs_device :
  let p := set_hwAccelMode "vaapi" (initial None None) in
  buildFFmpegArgs ∅ p = libx264_args p /\
  spec_buildFFmpegArgs ∅ p = vaapi_args p /\
  buildFFmpegArgs ∅ p <> spec_buildFFmpegArgs ∅ p.
Proof. vm_compute. repeat split; discriminate. Qed.

(** The same for mode qsv. *)
Example buildFFmpegArgs_qsv_needs_device :
  let p := set_hwAccelMode "qsv" (initial None None) in
  buildFFmpegArgs ∅ p = libx264_args p /\
  spec_buildFFmpegArgs ∅ p = qsv_args p.
Proof. vm_compute. done. Qed.

Example buildFFmpegArgs_auto_default :
  let p := initial None None in
  buildFFmpegArgs {[ "/dev/dri/renderD128" ]} p = vaapi_args p /\
  buildFFmpegArgs {[ "/dev/video0" ]} p = libx264_args p.
Proof. vm_compute. done. Qed.

(* ===================================================================== *)
(** * Properties of the configuration resolver *)
(* ===================================================================== *)

Section ResolverProperties.
Context `{GoLib}.

Lemma videoInit_blocks env fs (p : Pipeline) :
  videoInit env fs p =
    check_device fs
      (env_vaapi_device env (env_hwaccel env (env_bitrate env
         (env_fps env (env_device env p))))).
Proof. reflexivity. Qed.

Lemma run_part_env_device env p : run_part (env_device env p) = run_part p.
Proof. unfold env_device. by destruct (bool_decide _). Qed.
Lemma run_part_env_fps env p : run_part (env_fps env p) = run_part p.
Proof.
  unfold env_fps. destruct (bool_decide _); [|done].
  destruct (Atoi _); [|done]. by destruct (_ && _).
Qed.
Lemma run_part_env_bitrate env p : run_part (env_bitrate env p) = run_part p.
Proof. unfold env_bitrate. by destruct (bool_decide _). Qed.
Lemma run_part_env_hwaccel env p : run_part (env_hwaccel env p) = run_part p.
Proof.
  unfold env_hwaccel. destruct (bool_decide _); [|done]. by destruct (_ || _).
Qed.
Lemma run_part_env_vaapi_device env p :
  run_part (env_vaapi_device env p) = run_part p.
Proof. unfold env_vaapi_device. by destruct (bool_decide _). Qed.

Lemma videoDevice_env_fps env p : videoDevice (env_fps env p) = videoDevice p.
Proof.
  unfold env_fps. destruct (bool_decide _); [|done].
  destruct (Atoi _); [|done]. by destruct (_ && _).
Qed.
Lemma videoDevice_env_bitrate env p :
  videoDevice (env_bitrate env p) = videoDevice p.
Proof. unfold env_bitrate. by destruct (bool_decide _). Qed.
Lemma videoDevice_env_hwaccel env p :
  videoDevice (env_hwaccel env p) = videoDevice p.
Proof.
  unfold env_hwaccel. destruct (bool_decide _); [|done]. by destruct (_ || _).
Qed.
Lemma videoDevice_env_vaapi_device env p :
  videoDevice (env_vaapi_device env p) = videoDevice p.
Proof. unfold env_vaapi_device. by destruct (bool_decide _). Qed.

Lemma videoInit_device env fs (p : Pipeline) :
  videoDevice (videoInit env fs p).1 = resolved_device env p.
Proof.
  rewrite videoInit_blocks. unfold check_device.
  assert (forall q, (if Stat fs (videoDevice q) then (q, None)
      else (q, Some ("video device not found: " +:+ videoDevice q))).1 = q) as ->
    by (intros q; by destruct (Stat fs _)).
  rewrite videoDevice_env_vaapi_device, videoDevice_env_hwaccel,
    videoDevice_env_bitrate, videoDevice_env_fps.
  unfold env_device, resolved_device. by destruct (bool_decide _).
Qed.

Lemma videoInit_result env fs (p : Pipeline) :
  (videoInit env fs p).2 =
    if Stat fs (videoDevice (videoInit env fs p).1) then None
    else Some ("video device not found: " +:+ videoDevice (videoInit env fs p).1).
Proof.
  rewrite videoInit_blocks. unfold check_device.
  by destruct (Stat fs _) eqn:E; cbn [fst snd]; rewrite E.
Qed.

(** [videoInit] touches neither the run handle nor the system. *)
Lemma videoInit_no_subprocess env fs (p : Pipeline) :
  sys (videoInit env fs p).1 = sys p /\
  ffmpegCmd (videoInit env fs p).1 = ffmpegCmd p /\
  ffmpegCancel (videoInit env fs p).1 = ffmpegCancel p /\
  ffmpegStdout (videoInit env fs p).1 = ffmpegStdout p /\
  currentState (videoInit env fs p).1 = currentState p.
Proof.
  assert (run_part (videoInit env fs p).1 = run_part p) as E.
  { rewrite videoInit_blocks. unfold check_device.
    assert (forall q, (if Stat fs (videoDevice q) then (q, None)
        else (q, Some ("video device not found: " +:+ videoDevice q))).1 = q) as ->
      by (intros q; by destruct (Stat fs _)).
    by rewrite run_part_env_vaapi_device, run_part_env_hwaccel,
      run_part_env_bitrate, run_part_env_fps, run_part_env_device. }
  unfold run_part in E. by injection E.
Qed.

(** C7. [videoInit] resolves the capture device (the trimmed value of
    [VIDEO_DEVICE] when not empty, the current device otherwise); if that
    path does not exist it returns the error "video device not found:
    <path>", if it exists it returns no error; in both cases no
    subprocess is spawned and no run handle is set. *)
Theorem videoInit_device_check
    (env : gmap string string) (fs : gset string) (p : Pipeline) :
  let r := videoInit env fs p in
  let dev := resolved_device env p in
  (dev ∉ fs -> r.2 = Some ("video device not found: " +:+ dev)) /\
  (dev ∈ fs -> r.2 = None) /\
  spawned r.1 = spawned p /\
  sys r.1 = sys p /\
  ffmpegCmd r.1 = ffmpegCmd p.
Proof.
  cbn zeta. rewrite videoInit_result, videoInit_device.
  destruct (videoInit_no_subprocess env fs p) as (Hs & Hc & _).
  unfold spawned. rewrite Hs, Hc. unfold Stat.
  split; [|split]; [| |done].
  - intros Hno. by rewrite bool_decide_eq_false_2.
  - intros Hyes. by rewrite bool_decide_eq_true_2.
Qed.
End ResolverProperties.

Lemma videoInit_device_check_witness :
  let env : gmap string string := {[ "VIDEO_DEVICE" := " /dev/video7 " ]} in
  let fs : gset string := {[ "/dev/video0" ]} in
  let r := @videoInit ascii_golib env fs (initial None None) in
  r.2 = Some "video device not found: /dev/video7" /\
  (@videoInit ascii_golib ∅ fs (initial None None)).2 = None.
Proof.
  intros env fs r. split.
  - apply (@videoInit_device_check ascii_golib env fs (initial None None)).
    vm_compute. discriminate.
  - apply (@videoInit_device_check ascii_golib ∅ fs (initial None None)).
    vm_compute. reflexivity.
Defined.

(** The scenario of the specification: [/dev/video0] is missing. *)
Example videoInit_video0_missing :
  let r := @videoInit ascii_golib ∅ ∅ (initial None None) in
  r.2 = Some "video device not found: /dev/video0" /\ sys r.1 = [].
Proof. vm_compute. done. Qed.

Example videoInit_overrides :
  let env : gmap string string :=
    {[ "VIDEO_FPS" := "60"; "VIDEO_HWACCEL" := " QSV"; "VIDEO_BITRATE" := "8M" ]} in
  let r := @videoInit ascii_golib env {[ "/dev/video0" ]} (initial None None) in
  r.2 = None /\ targetFPS r.1 = 60 /\ hwAccelMode r.1 = "qsv" /\
  targetBitrate r.1 = "8M".
Proof. vm_compute. done. Qed.

Example videoInit_rejects :
  let env : gmap string string :=
    {[ "VIDEO_FPS" := "121"; "VIDEO_HWACCEL" := "cuda" ]} in
  let r := @videoInit ascii_golib env {[ "/dev/video0" ]} (initial None None) in
  targetFPS r.1 = 30 /\ hwAccelMode r.1 = "auto".
Proof. vm_compute. done. Qed.

(* ===================================================================== *)
(** * Properties of the subprocess supervisor *)
(* ===================================================================== *)

Lemma spawned_do_sys (e : syscall) (p : Pipeline) :
  spawned (do_sys e p) = (spawned p + if is_spawn e then 1 else 0)%nat.
Proof.
  unfold spawned, do_sys, send. cbn [sys set_sys].
  rewrite filter_app, length_app. f_equal.
  by destruct e.
Qed.

Lemma waited_do_sys (e : syscall) (p : Pipeline) :
  waited (do_sys e p) = (waited p + if is_wait e then 1 else 0)%nat.
Proof.
  unfold waited, do_sys, send. cbn [sys set_sys].
  rewrite filter_app, length_app. f_equal.
  by destruct e.
Qed.

(** [videoStart] with a run handle in place changes nothing. *)
Lemma videoStart_running fs o (p : Pipeline) :
  is_Some (ffmpegCmd p) -> videoStart fs o p = p.
Proof. intros [c Hc]. unfold videoStart. by rewrite Hc. Qed.

(** [videoStart] without a run handle, by what the system answers. *)
Lemma videoStart_idle_started fs (p : Pipeline) :
  ffmpegCmd p = None ->
  let cmd := mkCmd (contexts p) "ffmpeg"
               (buildFFmpegArgs fs (set_ffmpegCancel (Some (contexts p))
                                      (set_contexts (S (contexts p)) p))) in
  ffmpegCmd (videoStart fs Started p) = Some cmd /\
  ffmpegCancel (videoStart fs Started p) = Some (contexts p) /\
  ffmpegStdout (videoStart fs Started p) = Some (contexts p) /\
  sys (videoStart fs Started p) = sys p ++ [SysSpawn cmd] /\
  currentState (videoStart fs Started p)
    = with_Error "" (with_Ready true (currentState p)) /\
  logChan (videoStart fs Started p) = logChan p.
Proof. intros Hc. unfold videoStart. rewrite Hc. done. Qed.

Lemma videoStart_idle_pipe_fails fs err (p : Pipeline) :
  ffmpegCmd p = None ->
  videoStart fs (StdoutPipeFails err) p =
    set_ffmpegCancel None
      (log ErrorLevel ("ffmpeg stdout pipe error: " +:+ err)
         (set_contexts (S (contexts p)) p)).
Proof. intros Hc. unfold videoStart. rewrite Hc. by open_pipeline p. Qed.

Lemma videoStart_idle_start_fails fs err (p : Pipeline) :
  ffmpegCmd p = None ->
  videoStart fs (StartFails err) p =
    set_ffmpegCancel None
      (log ErrorLevel ("ffmpeg start failed: " +:+ err)
         (set_ffmpegStdout (Some (contexts p)) (set_contexts (S (contexts p)) p))).
Proof. intros Hc. unfold videoStart. rewrite Hc. by open_pipeline p. Qed.

Lemma spawned_videoStart fs o (p : Pipeline) :
  spawned (videoStart fs o p) =
    (spawned p + match ffmpegCmd p with
                 | None => if is_started o then 1 else 0
                 | Some _ => 0
                 end)%nat.
Proof.
  destruct (ffmpegCmd p) as [c|] eqn:Hc.
  - rewrite videoStart_running by eauto. lia.
  - destruct o as [err|err|].
    + rewrite videoStart_idle_pipe_fails by done. cbn. unfold spawned. cbn. lia.
    + rewrite videoStart_idle_start_fails by done. unfold spawned. cbn. lia.
    + unfold spawned. destruct (videoStart_idle_started fs p Hc) as (_ & _ & _ & -> & _).
      rewrite filter_app, length_app. done.
Qed.

Lemma handle_videoStart fs o (p : Pipeline) :
  is_Some (ffmpegCmd (videoStart fs o p)) <->
  is_Some (ffmpegCmd p) \/ o = Started.
Proof.
  destruct (ffmpegCmd p) as [c|] eqn:Hc.
  - rewrite videoStart_running by eauto. rewrite Hc. split; eauto.
  - destruct o as [err|err|].
    + rewrite videoStart_idle_pipe_fails by done. cbn. rewrite Hc.
      split; [intros []; done | intros [[]|]; done].
    + rewrite videoStart_idle_start_fails by done. cbn. rewrite Hc.
      split; [intros []; done | intros [[]|]; done].
    + destruct (videoStart_idle_started fs p Hc) as (-> & _). split; eauto.
Qed.

(** ** The state after [videoStop] *)

Lemma videoStop_handles (p : Pipeline) :
  ffmpegCmd (videoStop p) = None /\
  ffmpegCancel (videoStop p) = None /\
  ffmpegStdout (videoStop p) = None /\
  Ready (currentState (videoStop p)) = false.
Proof. open_pipeline p; repeat split; reflexivity. Qed.

Lemma videoStop_sys (p : Pipeline) :
  sys (videoStop p) =
    sys p
    ++ match ffmpegCancel p with Some ctx => [SysCancel ctx] | None => [] end
    ++ match ffmpegCmd p with Some c => [SysKill c; SysWait c] | None => [] end.
Proof.
  open_pipeline p; cbn; unfold send; cbn; by rewrite <- ?app_assoc, ?app_nil_r.
Qed.

(** A second [videoStop] only publishes the state once more. *)
Lemma videoStop_videoStop (p : Pipeline) :
  videoStop (videoStop p) = publish_state (videoStop p).
Proof. open_pipeline p; vm_compute; reflexivity. Qed.

(** ** One run at a time *)

Lemma consistent_initial sc fc : consistent (initial sc fc).
Proof. done. Qed.

Lemma spawned_videoStop (p : Pipeline) : spawned (videoStop p) = spawned p.
Proof.
  unfold spawned. rewrite videoStop_sys, !filter_app, !length_app.
  destruct (ffmpegCancel p), (ffmpegCmd p);
    change (length (filter is_spawn [])) with 0%nat;
    try change (length (filter is_spawn [SysCancel ?n])) with 0%nat;
    try change (length (filter is_spawn [SysKill ?c; SysWait ?c])) with 0%nat; lia.
Qed.

Lemma waited_videoStop (p : Pipeline) :
  waited (videoStop p)
  = (waited p + match ffmpegCmd p with Some _ => 1 | None => 0 end)%nat.
Proof.
  unfold waited. rewrite videoStop_sys, !filter_app, !length_app.
  destruct (ffmpegCancel p), (ffmpegCmd p);
    change (length (filter is_wait [])) with 0%nat;
    try change (length (filter is_wait [SysCancel ?n])) with 0%nat;
    try change (length (filter is_wait [SysKill ?c; SysWait ?c])) with 1%nat; lia.
Qed.

Lemma consistent_videoStop (p : Pipeline) : consistent p -> consistent (videoStop p).
Proof.
  intros [Hl Hi]. destruct (videoStop_handles p) as (Hc & Hk & _ & Hr).
  split; [|done]. unfold live, handles in *.
  rewrite Hc, spawned_videoStop, waited_videoStop.
  destruct (ffmpegCmd p); lia.
Qed.

Lemma waited_videoStart fs o (p : Pipeline) :
  waited (videoStart fs o p) = waited p.
Proof.
  destruct (ffmpegCmd p) as [c|] eqn:Hc.
  - by rewrite videoStart_running by eauto.
  - destruct o as [err|err|].
    + by rewrite videoStart_idle_pipe_fails.
    + by rewrite videoStart_idle_start_fails.
    + unfold waited. destruct (videoStart_idle_started fs p Hc) as (_ & _ & _ & -> & _).
      rewrite filter_app, length_app.
      change (length (filter is_wait [SysSpawn ?c])) with 0%nat. lia.
Qed.

Lemma consistent_videoStart fs o (p : Pipeline) :
  consistent p -> consistent (videoStart fs o p).
Proof.
  intros [Hl Hi]. destruct (ffmpegCmd p) as [c|] eqn:Hc.
  { rewrite videoStart_running by eauto. split; [done|]. by rewrite Hc. }
  destruct (Hi eq_refl) as [Hk Hr].
  unfold consistent, live, handles in *.
  rewrite spawned_videoStart, waited_videoStart, Hc.
  rewrite Hc in Hl. destruct o as [err|err|].
  - rewrite videoStart_idle_pipe_fails by done. cbn. rewrite Hc.
    split; [lia | done].
  - rewrite videoStart_idle_start_fails by done. cbn. rewrite Hc.
    split; [lia | done].
  - destruct (videoStart_idle_started fs p Hc) as (-> & _ & _ & _ & _).
    split; [|done]. cbn. lia.
Qed.

Lemma consistent_config (p q : Pipeline) :
  sys q = sys p -> ffmpegCmd q = ffmpegCmd p -> ffmpegCancel q = ffmpegCancel p ->
  currentState q = currentState p ->
  consistent p -> consistent q.
Proof.
  unfold consistent, live, handles, spawned, waited.
  by intros -> -> -> ->.
Qed.

Lemma consistent_videoSetStreamQualityFactor fs o factor (p : Pipeline) :
  consistent p -> consistent (videoSetStreamQualityFactor fs o factor p).1.
Proof.
  intros Hp. unfold videoSetStreamQualityFactor. cbn [fst].
  set (q := set_targetBitrate _ (set_qualityFactor _ p)).
  assert (consistent q) as Hq by (by apply (consistent_config p)).
  destruct (ffmpegCmd q); [|done].
  by apply consistent_videoStart, consistent_videoStop.
Qed.

Section RunProperties.
Context `{GoLib}.

Lemma consistent_call (c : control) (p : Pipeline) :
  consistent p -> consistent (call c p).
Proof.
  intros Hp. destruct c as [env fs|fs o| | |fs o factor]; cbn [call].
  - destruct (videoInit_no_subprocess env fs p) as (? & ? & ? & _ & ?).
    by apply (consistent_config p).
  - by apply consistent_videoStart.
  - by apply consistent_videoStop.
  - by apply consistent_videoStop.
  - by apply consistent_videoSetStreamQualityFactor.
Qed.

Lemma consistent_run (cs : list control) (p : Pipeline) :
  consistent p -> consistent (run cs p).
Proof.
  revert p. induction cs as [|c cs IH]; intros p Hp; [done|].
  cbn. by apply IH, consistent_call.
Qed.

(** C5. At most one run handle, and one subprocess, at any time.
    [videoStart] while a run handle exists is a no-op; after a [videoStart]
    that launches the encoder, a second [videoStart] without a [videoStop]
    between them changes nothing, whatever the system would answer, so
    exactly one subprocess has been spawned; two calls never spawn more
    than one, and from an idle pipeline they spawn one unless both
    launches fail; and after every sequence of calls into the backend from the
    initial state, the subprocesses that run are as many as the run
    handles held, one at most. *)
Theorem videoStart_at_most_one_run
    (fs1 fs2 : gset string) (o1 o2 : launch) (p : Pipeline) :
  (is_Some (ffmpegCmd p) -> videoStart fs1 o1 p = p) /\
  videoStart fs2 o2 (videoStart fs1 Started p) = videoStart fs1 Started p /\
  (ffmpegCmd p = None ->
   spawned (videoStart fs2 o2 (videoStart fs1 Started p)) = S (spawned p)) /\
  (spawned (videoStart fs2 o2 (videoStart fs1 o1 p)) <= S (spawned p))%nat /\
  (ffmpegCmd p = None ->
   spawned (videoStart fs2 o2 (videoStart fs1 o1 p))
   = (spawned p + if is_started o1 || is_started o2 then 1 else 0)%nat) /\
  (forall cs sc fc,
     live (run cs (initial sc fc)) = handles (run cs (initial sc fc)) /\
     0 <= handles (run cs (initial sc fc)) <= 1).
Proof.
  split; [apply videoStart_running|]. split; [|split; [|split; [|split]]].
  - apply videoStart_running, handle_videoStart. by right.
  - intros Hc. rewrite (videoStart_running fs2)
      by (apply handle_videoStart; by right).
    rewrite spawned_videoStart, Hc. cbn. lia.
  - rewrite !spawned_videoStart.
    destruct (ffmpegCmd p) as [c|] eqn:Hc.
    + rewrite videoStart_running by eauto. rewrite Hc. lia.
    + destruct (ffmpegCmd (videoStart fs1 o1 p)) eqn:Hc1.
      * destruct (is_started o1); lia.
      * assert (o1 <> Started) as Ho1.
        { intros ->. destruct (videoStart_idle_started fs1 p Hc) as (E & _).
          congruence. }
        destruct o1, o2; cbn; (done || lia).
  - intros Hc. rewrite !spawned_videoStart, Hc.
    destruct o1 as [err|err|].
    + rewrite videoStart_idle_pipe_fails by done. cbn. rewrite Hc.
      destruct (is_started o2); lia.
    + rewrite videoStart_idle_start_fails by done. cbn. rewrite Hc.
      destruct (is_started o2); lia.
    + destruct (videoStart_idle_started fs1 p Hc) as (-> & _). cbn. lia.
  - intros cs sc fc.
    destruct (consistent_run cs _ (consistent_initial sc fc)) as [Hl _].
    split; [done|]. unfold handles. destruct (ffmpegCmd _); lia.
Qed.
End RunProperties.

Lemma videoStart_at_most_one_run_witness :
  let p := initial (Some []) (Some []) in
  let p2 := videoStart ∅ (StartFails "busy") (videoStart ∅ Started p) in
  spawned p2 = 1%nat /\ p2 = videoStart ∅ Started p.
Proof.
  intros p p2.
  destruct (@videoStart_at_most_one_run ascii_golib ∅ ∅ Started (StartFails "busy") p)
    as (_ & Hnoop & Hone & _).
  split; [exact (Hone eq_refl) | exact Hnoop].
Defined.

Example videoStart_twice :
  let p := run (H := ascii_golib) [DoStart ∅ Started; DoStart ∅ Started]
             (initial (Some []) (Some [])) in
  spawned p = 1%nat /\ live p = 1 /\
  (Ready <$> default [] (videoStateChan p)) = [true].
Proof. vm_compute. done. Qed.

Example videoStart_stop_start :
  let p := run (H := ascii_golib) [DoStart ∅ Started; DoStop; DoStart ∅ Started]
             (initial (Some []) (Some [])) in
  spawned p = 2%nat /\ live p = 1 /\
  (Ready <$> default [] (videoStateChan p)) = [true; false; true].
Proof. vm_compute. done. Qed.

(** ** Launch failures *)

(** C6. What [videoStart] does when the launch fails, from a state without
    a run handle.  In both failure paths the failure is logged at zerolog's
    error level, the state is as it was (not ready stays not ready), nothing
    is spawned or published, [ffmpegCmd] and [ffmpegCancel] are cleared, no
    retry is made, and a later [videoStart] is accepted.  But the run handle
    is not cleared in full: when [cmd.Start()] fails, [ffmpegStdout] keeps
    the pipe that was opened ([videoStop] clears all three variables). *)
Theorem videoStart_launch_failure
    (fs fs' : gset string) (err : string) (p : Pipeline) :
  ffmpegCmd p = None ->
  let p1 := videoStart fs (StdoutPipeFails err) p in
  let p2 := videoStart fs (StartFails err) p in
  (logChan p1 = logChan p ++ [mkLog ErrorLevel ("ffmpeg stdout pipe error: " +:+ err)] /\
   logChan p2 = logChan p ++ [mkLog ErrorLevel ("ffmpeg start failed: " +:+ err)]) /\
  (currentState p1 = currentState p /\ currentState p2 = currentState p) /\
  (sys p1 = sys p /\ sys p2 = sys p) /\
  (videoStateChan p1 = videoStateChan p /\ videoStateChan p2 = videoStateChan p) /\
  (ffmpegCmd p1 = None /\ ffmpegCmd p2 = None) /\
  (ffmpegCancel p1 = None /\ ffmpegCancel p2 = None) /\
  (is_Some (ffmpegCmd (videoStart fs' Started p1)) /\
   is_Some (ffmpegCmd (videoStart fs' Started p2))) /\
  ffmpegStdout p1 = ffmpegStdout p /\
  ffmpegStdout p2 = Some (contexts p) /\
  ffmpegStdout p2 <> None.
Proof.
  intros Hc p1 p2. subst p1 p2.
  rewrite !(handle_videoStart fs' Started).
  rewrite videoStart_idle_pipe_fails, videoStart_idle_start_fails by done.
  cbn. rewrite Hc. repeat split; eauto.
Qed.

Lemma videoStart_launch_failure_witness :
  let p := initial (Some []) (Some []) in
  let p2 := videoStart ∅ (StartFails "exec: ffmpeg: not found") p in
  ffmpegCmd p2 = None /\ ffmpegCancel p2 = None /\
  ffmpegStdout p2 = Some 0%nat /\ ffmpegStdout p2 <> None /\
  Ready (currentState p2) = false /\ spawned p2 = 0%nat /\
  logChan p2 = [mkLog ErrorLevel "ffmpeg start failed: exec: ffmpeg: not found"].
Proof.
  intros p p2.
  destruct (videoStart_launch_failure ∅ ∅ "exec: ffmpeg: not found" p eq_refl)
    as ((_ & Hlog) & (_ & Hst) & (_ & Hsys) & _ & (_ & Hcmd) & (_ & Hcan) & _ & _ & Hout & Hne).
  subst p2. rewrite Hst. unfold spawned. rewrite Hsys.
  repeat split; done.
Defined.

(** Without a run handle, a state reached by calls into the backend is not
    ready; so after a failed launch it is still not ready. *)
Lemma not_ready_after_failure `{GoLib} (cs : list control) sc fc fs o :
  let p := run cs (initial sc fc) in
  ffmpegCmd p = None -> o <> Started ->
  Ready (currentState (videoStart fs o p)) = false.
Proof.
  intros p Hc Ho.
  destruct (consistent_run cs _ (consistent_initial sc fc)) as [_ Hi].
  destruct (Hi Hc) as [_ Hr]. fold p in Hr.
  destruct o as [err|err|]; [| |done].
  - by rewrite videoStart_idle_pipe_fails.
  - by rewrite videoStart_idle_start_fails.
Qed.

(** ** Stopping an idle pipeline *)

(** C8. [videoStop] on an idle pipeline (no subprocess handle, no cancel
    function) makes no call to the system: it terminates no process; it
    leaves the three variables of the run handle empty and the state not
    ready.  A second [videoStop] leaves every variable as the first one
    left it: it only publishes the (unchanged) state another time. *)
Theorem videoStop_idle_is_noop (p : Pipeline) :
  ffmpegCmd p = None -> ffmpegCancel p = None ->
  sys (videoStop p) = sys p /\
  (ffmpegCmd (videoStop p) = None /\ ffmpegCancel (videoStop p) = None /\
   ffmpegStdout (videoStop p) = None) /\
  Ready (currentState (videoStop p)) = false /\
  videoStop (videoStop p) = publish_state (videoStop p) /\
  set_videoStateChan (videoStateChan p) (videoStop (videoStop p))
    = set_videoStateChan (videoStateChan p) (videoStop p) /\
  (forall q, videoStop (videoStop q) = publish_state (videoStop q) /\
             sys (videoStop (videoStop q)) = sys (videoStop q)).
Proof.
  intros Hc Hk. destruct (videoStop_handles p) as (H1 & H2 & H3 & H4).
  split; [by rewrite videoStop_sys, Hc, Hk, app_nil_r|].
  split; [done|]. split; [done|]. split; [apply videoStop_videoStop|].
  split; [by rewrite videoStop_videoStop|].
  intros q. split; [apply videoStop_videoStop|]. by rewrite videoStop_videoStop.
Qed.

Lemma videoStop_idle_is_noop_witness :
  let p := initial (Some []) (Some []) in
  sys (videoStop p) = [] /\
  ffmpegCmd (videoStop p) = None /\
  videoStateChan (videoStop (videoStop p))
    = Some [currentState p; currentState p].
Proof.
  intros p.
  destruct (videoStop_idle_is_noop p eq_refl eq_refl) as (Hsys & (Hc & _) & _ & H2 & _).
  split; [exact Hsys|]. split; [exact Hc|]. rewrite H2. reflexivity.
Defined.

(** An idle pipeline is as it was after [videoStop], the publication apart. *)
Lemma videoStop_idle (p : Pipeline) :
  ffmpegCmd p = None -> ffmpegCancel p = None -> ffmpegStdout p = None ->
  Ready (currentState p) = false ->
  videoStop p = publish_state p.
Proof.
  destruct p as [cmd can out ? ? ? ? [r e f] ? ? ? ? ? ? ?]. cbn.
  by intros -> -> -> ->.
Qed.

Example videoStop_after_run :
  let p := videoStart ∅ Started (initial (Some []) (Some [])) in
  is_reap <$> sys (videoStop p) = [false; false; true; true].
Proof. vm_compute. done. Qed.


(* ===================================================================== *)
(** * Further properties of the stream framer *)
(* ===================================================================== *)

(** X1. The scan is complete: [indexAUD(b, startCode)] is [-1] exactly when
    [b] holds no boundary, and otherwise it is the first boundary of [b]:
    a boundary itself, at or before every boundary. *)
Theorem indexAUD_finds_first_boundary (b : list byte) :
  (indexAUD b startCode = -1 <-> forall k, ~ boundary_at b k) /\
  (forall k, boundary_at b k ->
     boundary_at b (indexAUD b startCode) /\ indexAUD b startCode <= k).
Proof.
  assert (forall k, boundary_at b k ->
    boundary_at b (indexAUD b startCode) /\ indexAUD b startCode <= k) as Hfirst.
  { intros k Hk. pose proof (indexAUD_first b k Hk) as Hr.
    destruct (indexAUD_boundary b) as [?|[? _]]; [lia|]. split; [done|lia]. }
  split; [|done]. split.
  - intros Hm k Hk. destruct (indexAUD_first b k Hk). lia.
  - intros Hno. destruct (indexAUD_boundary b) as [?|[Hb _]]; [done|].
    by destruct (Hno _ Hb).
Qed.

Lemma boundary_at_app (s t : list byte) (k : Z) :
  boundary_at s k -> boundary_at (s ++ t) k.
Proof.
  intros Hk. assert (0 <= k) as Hk0 by (by destruct Hk).
  rewrite <- (Z2Nat.id k) in Hk |- * by done.
  apply starts_with_boundary_drop in Hk. apply starts_with_boundary_drop.
  destruct (decide (Z.to_nat k <= length s)%nat).
  - rewrite drop_app_le by done. by apply starts_with_boundary_app.
  - rewrite drop_ge in Hk by lia. done.
Qed.

(** What the scan cuts off: not empty, and without a boundary. *)
Lemma cut_frame_shape (buf : list byte) :
  0 < indexAUD buf startCode ->
  slice_to (indexAUD buf startCode) buf <> [] /\
  has_boundary (slice_to (indexAUD buf startCode) buf) = false /\
  starts_with_boundary (slice_from (indexAUD buf startCode) buf) = true.
Proof.
  intros Hpos. destruct (indexAUD_boundary buf) as [?|[Hb Hs]]; [lia|].
  destruct (indexAUD_upper buf) as [?|[_ Hup]]; [lia|].
  set (idx := indexAUD buf startCode) in *.
  assert (len (slice_to idx buf) = idx) as Hlen.
  { unfold slice_to, len in *. rewrite length_take. lia. }
  split; [|split; [|done]].
  - intros Hnil. rewrite Hnil, len_nil in Hlen. lia.
  - destruct (has_boundary (slice_to idx buf)) eqn:E; [|done].
    apply has_boundary_iff in E as [k Hk].
    assert (k + 4 < idx) by (destruct Hk as (_ & ? & _); lia).
    apply (boundary_at_app _ (slice_from idx buf)) in Hk.
    unfold slice_to, slice_from in Hk. rewrite take_drop in Hk.
    pose proof (indexAUD_first buf k Hk). lia.
Qed.

(** The frames of the inner loop. *)
Lemma cut_frames_frames (fuel : nat) (buf : list byte) (q : list (list byte)) :
  exists cut,
    (cut_frames fuel buf (Some q)).2 = Some (q ++ cut) /\
    (length cut <= 1)%nat /\
    Forall (fun f => f <> [] /\ has_boundary f = false) cut.
Proof.
  assert (forall b : list byte, exists cut : list (list byte),
    (b, Some q).2 = Some (q ++ cut) /\ (length cut <= 1)%nat /\
    Forall (fun f => f <> [] /\ has_boundary f = false) cut) as Hnone.
  { intros b. exists []. rewrite app_nil_r. cbn. split; [done|].
    split; [lia|constructor]. }
  destruct fuel as [|fuel]; [apply Hnone|].
  rewrite cut_frames_S.
  destruct (Z.leb_spec (indexAUD buf startCode) 0) as [|Hpos]; [apply Hnone|].
  destruct (cut_frame_shape buf Hpos) as (Hne & Hnb & Hs).
  rewrite cut_frames_stop by (rewrite indexAUD_starts_with_boundary; [lia|done]).
  destruct (Z.ltb_spec 0 (len (slice_to (indexAUD buf startCode) buf))) as [|Hz].
  - exists [slice_to (indexAUD buf startCode) buf]. cbn. split; [done|].
    split; [lia|]. by repeat constructor.
  - exfalso. apply Hne, length_zero_iff_nil. unfold len in Hz. lia.
Qed.

(** X3. A pass of the reader delivers at most two frames: at most one cut
    at a boundary, which is not empty and holds no boundary itself, then at
    most one overflow flush, which is longer than the 256 KiB ceiling.  No
    frame delivered is ever empty. *)
Theorem reader_pass_frames (chunk buf : list byte) (p : Pipeline) :
  is_Some (videoFrameChan p) ->
  exists cut flush,
    delivered (reader_pass chunk buf p).2 = delivered p ++ cut ++ flush /\
    (length cut <= 1)%nat /\ (length flush <= 1)%nat /\
    Forall (fun f => f <> [] /\ has_boundary f = false) cut /\
    Forall (fun f => maxBuffer < len f) flush.
Proof.
  intros [q Hq]. unfold reader_pass, delivered. rewrite Hq.
  destruct (cut_frames_frames (S (length (buf ++ chunk))) (buf ++ chunk) q)
    as (cut & E & Hlen & Hcut).
  destruct (cut_frames _ _ _) as [buf' fc]. cbn [snd] in E. subst fc.
  destruct (Z.ltb_spec maxBuffer (len buf')).
  - exists cut, [buf']. cbn. unfold send. rewrite <- app_assoc.
    split; [done|]. split; [done|]. split; [lia|]. split; [done|].
    by repeat constructor.
  - exists cut, []. cbn. rewrite app_nil_r. split; [done|].
    split; [done|]. split; [lia|]. split; [done|]. constructor.
Qed.

Lemma reader_pass_frames_witness :
  let buf := [xee; x00; x00; x00] in
  let chunk := [x01; x09; xaa; x00; x00; x00; x01; x09; xbb] in
  let p := initial (Some []) (Some []) in
  exists cut flush,
    delivered (reader_pass chunk buf p).2 = delivered p ++ cut ++ flush /\
    (length cut <= 1)%nat /\ (length flush <= 1)%nat /\
    Forall (fun f => f <> [] /\ has_boundary f = false) cut /\
    Forall (fun f => maxBuffer < len f) flush.
Proof.
  intros buf chunk p. apply (reader_pass_frames chunk buf p). by eexists.
Defined.

Example reader_pass_cut :
  let buf := [xee; x00; x00; x00] in
  let chunk := [x01; x09; xaa; x00; x00; x00; x01; x09; xbb] in
  let r := reader_pass chunk buf (initial (Some []) (Some [])) in
  delivered r.2 = [[xee]] /\
  r.1 = [x00; x00; x00; x01; x09; xaa; x00; x00; x00; x01; x09; xbb].
Proof. vm_compute. done. Qed.



(** The buffer a pass leaves is within the ceiling, whatever it was given. *)
Lemma reader_pass_bounded (chunk buf : list byte) (p : Pipeline) :
  len (reader_pass chunk buf p).1 <= maxBuffer.
Proof.
  unfold reader_pass. destruct (cut_frames _ _ _) as [buf' fc].
  destruct (Z.ltb_spec maxBuffer (len buf')); cbn [fst]; [|done].
  rewrite len_nil. unfold maxBuffer. lia.
Qed.

Lemma reader_loop_bounded (reads : list read) (buf : list byte) (p : Pipeline) :
  len buf <= maxBuffer -> len (reader_loop reads buf p).1 <= maxBuffer.
Proof.
  revert buf p. induction reads as [|r reads IH]; intros buf p Hbuf; [done|].
  cbn [reader_loop].
  pose proof (reader_pass_bounded (read_data r) buf p) as Hpass.
  destruct (0 <? len (read_data r)).
  - destruct (reader_pass _ _ _) as [b1 p1]. cbn [fst] in Hpass.
    destruct (read_err r); [done|]. by apply IH.
  - destruct (read_err r); [done|]. by apply IH.
Qed.

(** X4. Bounded memory: between two reads the accumulation buffer of the
    reader never holds more than 256 KiB, for every stream and every way it
    arrives, with or without a frame channel. *)
Theorem reader_buffer_bounded (reads : list read) (p : Pipeline) :
  len (stdout_reader reads p).1 <= maxBuffer /\
  (forall n, len (stdout_reader (take n reads) p).1 <= 262144).
Proof.
  split; [|intros n]; apply reader_loop_bounded; rewrite len_nil;
    unfold maxBuffer; lia.
Qed.


(** What a pass does to the variables: the frame channel apart, it is the
    status report. *)
Lemma reader_pass_report (chunk buf : list byte) (p : Pipeline) :
  exists fc, (reader_pass chunk buf p).2 = report_state (set_videoFrameChan fc p).
Proof.
  unfold reader_pass. destruct (cut_frames _ _ _) as [buf' fc].
  destruct (maxBuffer <? len buf').
  - exists (send_if_open buf' fc). by destruct p.
  - by exists fc.
Qed.

Lemma report_state_fields (fc : chan (list byte)) (p : Pipeline) :
  let p' := report_state (set_videoFrameChan fc p) in
  currentState p' = reported p /\
  videoStateChan p' = send_if_open (reported p) (videoStateChan p) /\
  reported p' = reported p /\
  (sys p' = sys p /\ ffmpegCmd p' = ffmpegCmd p /\ ffmpegCancel p' = ffmpegCancel p /\
   ffmpegStdout p' = ffmpegStdout p /\ logChan p' = logChan p).
Proof. destruct p as [? ? ? ? ? ? ? [? ? ?] ? ? ? ? ? ? ?]. repeat split. Qed.

Lemma reader_loop_reports (reads : list read) (buf : list byte) (p : Pipeline) :
  let p' := (reader_loop reads buf p).2 in
  videoStateChan p'
    = (fun l => l ++ replicate (passes reads) (reported p)) <$> videoStateChan p /\
  currentState p' = (if passes reads is O then currentState p else reported p) /\
  reported p' = reported p /\
  (sys p' = sys p /\ ffmpegCmd p' = ffmpegCmd p /\ ffmpegCancel p' = ffmpegCancel p /\
   ffmpegStdout p' = ffmpegStdout p /\ logChan p' = logChan p).
Proof.
  revert buf p. induction reads as [|r reads IH]; intros buf p.
  { cbn. split; [|done]. destruct (videoStateChan p); cbn; [|done].
    by rewrite app_nil_r. }
  cbn [reader_loop]. unfold passes. cbn [taken filter list_filter].
  destruct (Z.ltb_spec 0 (len (read_data r))) as [Hn|Hn].
  - rewrite decide_True by done.
    destruct (reader_pass_report (read_data r) buf p) as [fc Hp1].
    destruct (reader_pass (read_data r) buf p) as [b1 p1]. cbn [snd] in Hp1.
    destruct (report_state_fields fc p) as (Hc & Hv & Hrep & Hs & Hcmd & Hk & Ho & Hl).
    rewrite <- Hp1 in *. clear Hp1.
    destruct (read_err r).
    + cbn [snd length]. rewrite Hv, Hc. split; [|done].
      by destruct (videoStateChan p).
    + destruct (IH b1 p1) as (IHv & IHc & IHrep & IHs & IHcmd & IHk & IHo & IHl).
      fold (passes reads). cbn [length]. cbn zeta in *.
      rewrite IHv, IHrep, IHs, IHcmd, IHk, IHo, IHl, IHc, Hv, Hrep, Hc.
      split; [|by destruct (passes reads)].
      destruct (videoStateChan p); cbn; [|done].
      unfold send. by rewrite <- app_assoc.
  - rewrite decide_False by lia. destruct (read_err r).
    + cbn. split; [|done]. destruct (videoStateChan p); cbn; [|done].
      by rewrite app_nil_r.
    + apply IH.
Qed.

(** X5. The status reports of the reader: during a run it publishes one
    state for each read that returns bytes, up to and including the first
    read that reports an error, and nothing for a read of zero bytes; every
    one of them is the same snapshot, ready and at [float64(targetFPS)]; the
    loop of the reader spawns, cancels, kills and waits for no subprocess
    and leaves the run handle and the log alone. *)
Theorem reader_reports_each_pass (reads : list read) (p : Pipeline) :
  is_Some (videoStateChan p) ->
  let p' := (stdout_reader reads p).2 in
  published p' = published p ++ replicate (passes reads) (reported p) /\
  Ready (reported p) = true /\
  FramePerSecond (reported p) = float64_of_int (targetFPS p) /\
  (0 < passes reads -> currentState p' = reported p)%nat /\
  (passes reads = 0%nat -> currentState p' = currentState p) /\
  sys p' = sys p /\ ffmpegCmd p' = ffmpegCmd p /\ logChan p' = logChan p.
Proof.
  intros [q Hq] p'. subst p'. unfold stdout_reader, published.
  destruct (reader_loop_reports reads [] p) as (Hv & Hc & _ & Hs & Hcmd & _ & _ & Hl).
  cbn zeta in *. rewrite Hv, Hc, Hs, Hcmd, Hl, Hq. cbn.
  repeat split; try done.
  - intros Hpos. destruct (passes reads); [lia|done].
  - by intros ->.
Qed.

Lemma reader_reports_each_pass_witness :
  let reads := [mkRead [xee] false; mkRead [] false; mkRead [x00] true;
                mkRead [xff] false] in
  let p := initial (Some []) (Some []) in
  passes reads = 2%nat /\
  published (stdout_reader reads p).2 = [reported p; reported p].
Proof.
  intros reads p. split; [reflexivity|].
  destruct (reader_reports_each_pass reads p) as (Hp & _); [by eexists|].
  rewrite Hp. reflexivity.
Defined.

(* ===================================================================== *)
(** * Further properties of the configuration resolver *)
(* ===================================================================== *)

Lemma bool_decide_modes (x : string) :
  bool_decide (x = "auto") || bool_decide (x = "vaapi")
  || bool_decide (x = "qsv") || bool_decide (x = "none")
  = bool_decide (x ∈ modes).
Proof.
  unfold modes. apply eq_true_iff_eq.
  rewrite !orb_true_iff, !bool_decide_eq_true, !elem_of_cons, elem_of_nil.
  tauto.
Qed.

Section ResolverEffects.
Context `{GoLib}.

Lemma env_device_effect env (p : Pipeline) :
  env_device env p = set_videoDevice (resolved_device env p) p.
Proof.
  unfold env_device, resolved_device. destruct (bool_decide _); [done|].
  by destruct p.
Qed.

Lemma env_fps_effect env (p : Pipeline) :
  env_fps env p = set_targetFPS (resolved_fps env p) p.
Proof.
  unfold env_fps, resolved_fps. destruct (bool_decide _); [|by destruct p].
  destruct (Atoi _); [|by destruct p]. destruct (_ && _); [done|by destruct p].
Qed.

Lemma env_bitrate_effect env (p : Pipeline) :
  env_bitrate env p = set_targetBitrate (resolved_bitrate env p) p.
Proof.
  unfold env_bitrate, resolved_bitrate. destruct (bool_decide _); [done|].
  by destruct p.
Qed.

Lemma env_hwaccel_effect env (p : Pipeline) :
  env_hwaccel env p = set_hwAccelMode (resolved_hwaccel env p) p.
Proof.
  unfold env_hwaccel, resolved_hwaccel. rewrite bool_decide_modes.
  destruct (bool_decide (_ ≠ _)); [|by destruct p].
  destruct (bool_decide (_ ∈ _)); [done|by destruct p].
Qed.

Lemma env_vaapi_device_effect env (p : Pipeline) :
  env_vaapi_device env p = set_vaapiDevice (resolved_vaapi_device env p) p.
Proof.
  unfold env_vaapi_device, resolved_vaapi_device. destruct (bool_decide _); [done|].
  by destruct p.
Qed.

(** What [videoInit] does to the variables: the five of the configuration
    take their resolved values, the rest is as it was. *)
Lemma videoInit_effect env fs (p : Pipeline) :
  (videoInit env fs p).1 =
    with_config (resolved_fps env p) (resolved_bitrate env p) (resolved_device env p)
      (resolved_hwaccel env p) (resolved_vaapi_device env p) p.
Proof.
  rewrite videoInit_blocks. unfold check_device.
  assert (forall q, (if Stat fs (videoDevice q) then (q, None)
      else (q, Some ("video device not found: " +:+ videoDevice q))).1 = q) as ->
    by (intros q; by destruct (Stat fs _)).
  rewrite env_vaapi_device_effect, env_hwaccel_effect, env_bitrate_effect,
    env_fps_effect, env_device_effect.
  unfold resolved_vaapi_device, resolved_hwaccel, resolved_bitrate, resolved_fps,
    resolved_device, with_config. by destruct p.
Qed.

Lemma resolved_fps_range env (p : Pipeline) :
  1 <= targetFPS p <= 120 -> 1 <= resolved_fps env p <= 120.
Proof.
  intros Hp. unfold resolved_fps. destruct (bool_decide _); [|done].
  destruct (Atoi _) as [v|]; [|done].
  destruct (Z.ltb_spec 0 v), (Z.leb_spec v 120); cbn; lia.
Qed.

Lemma resolved_hwaccel_modes env (p : Pipeline) :
  hwAccelMode p ∈ modes -> resolved_hwaccel env p ∈ modes.
Proof.
  intros Hp. unfold resolved_hwaccel. destruct (bool_decide (_ ≠ _)); [|done].
  by destruct (bool_decide_reflect (ToLower (TrimSpace (Getenv env "VIDEO_HWACCEL")) ∈ modes)).
Qed.

(** The values resolved from a pipeline that [videoInit] has configured are
    the values it holds. *)
Lemma resolved_with_config env p :
  let q := with_config (resolved_fps env p) (resolved_bitrate env p)
             (resolved_device env p) (resolved_hwaccel env p)
             (resolved_vaapi_device env p) p in
  resolved_fps env q = resolved_fps env p /\
  resolved_bitrate env q = resolved_bitrate env p /\
  resolved_device env q = resolved_device env p /\
  resolved_hwaccel env q = resolved_hwaccel env p /\
  resolved_vaapi_device env q = resolved_vaapi_device env p.
Proof.
  cbn zeta. unfold resolved_fps, resolved_bitrate, resolved_device,
    resolved_hwaccel, resolved_vaapi_device, with_config.
  destruct p; cbn.
  repeat split.
  - destruct (bool_decide _); [|done]. destruct (Atoi _); [|done].
    by destruct (_ && _).
  - by destruct (bool_decide _).
  - by destruct (bool_decide _).
  - by destruct (_ && _).
  - by destruct (bool_decide _).
Qed.

(** X6. [videoInit] is idempotent: a second call with the same environment
    and file system returns the same error and leaves every variable as the
    first call left it, whatever the library makes of the environment
    values. *)
Theorem videoInit_idempotent
    (env : gmap string string) (fs : gset string) (p : Pipeline) :
  videoInit env fs (videoInit env fs p).1 = videoInit env fs p.
Proof.
  assert ((videoInit env fs (videoInit env fs p).1).1 = (videoInit env fs p).1) as E1.
  { rewrite !videoInit_effect.
    destruct (resolved_with_config env p) as (-> & -> & -> & -> & ->).
    unfold with_config. by destruct p. }
  apply injective_projections; [done|].
  by rewrite !videoInit_result, E1.
Qed.

(** X7. The frame-rate override: [VIDEO_FPS] is taken when, trimmed, it is
    not empty, [strconv.Atoi] reads it and the number is within [1, 120];
    in every other case the frame rate stays as it was.  So a frame rate
    within [1, 120] stays within [1, 120], and the other four variables of
    the environment have no part in it. *)
Theorem videoInit_fps_override
    (env : gmap string string) (fs : gset string) (p : Pipeline) :
  let s := TrimSpace (Getenv env "VIDEO_FPS") in
  let fps := targetFPS (videoInit env fs p).1 in
  (forall v, s <> "" -> Atoi s = Some v -> 1 <= v <= 120 -> fps = v) /\
  (s = "" -> fps = targetFPS p) /\
  (Atoi s = None -> fps = targetFPS p) /\
  (forall v, Atoi s = Some v -> ~ (1 <= v <= 120) -> fps = targetFPS p) /\
  (1 <= targetFPS p <= 120 -> 1 <= fps <= 120).
Proof.
  cbn zeta. rewrite videoInit_effect.
  assert (targetFPS (with_config (resolved_fps env p) (resolved_bitrate env p)
    (resolved_device env p) (resolved_hwaccel env p) (resolved_vaapi_device env p) p)
    = resolved_fps env p) as -> by (by destruct p).
  split; [|split; [|split; [|split]]].
  - intros v Hs Hv Hr. unfold resolved_fps. rewrite bool_decide_eq_true_2, Hv by done.
    destruct (Z.ltb_spec 0 v), (Z.leb_spec v 120); cbn; lia.
  - intros Hs. unfold resolved_fps. by rewrite bool_decide_eq_false_2 by naive_solver.
  - intros Hv. unfold resolved_fps. rewrite Hv. by destruct (bool_decide _).
  - intros v Hv Hr. unfold resolved_fps. rewrite Hv. destruct (bool_decide _); [|done].
    destruct (Z.ltb_spec 0 v), (Z.leb_spec v 120); cbn; lia.
  - apply resolved_fps_range.
Qed.
End ResolverEffects.

Example videoInit_fps_cases :
  let fps v := targetFPS (@videoInit ascii_golib {[ "VIDEO_FPS" := v ]} ∅
                            (initial None None)).1 in
  fps "1" = 1 /\ fps " 120 " = 120 /\ fps "0" = 30 /\ fps "121" = 30 /\
  fps "-5" = 30 /\ fps "fast" = 30 /\ fps "" = 30 /\ fps "+60" = 60 /\
  fps "6 0" = 30.
Proof. vm_compute. done. Qed.


(* ===================================================================== *)
(** * Further properties of the subprocess supervisor *)
(* ===================================================================== *)

Lemma lifecycle_snoc (t : list syscall) (e : syscall) :
  lifecycle (t ++ [e]) = lifecycle t ≫= fun s => lifecycle_step s e.
Proof. unfold lifecycle, lifecycle_from. by rewrite foldl_app. Qed.

Lemma supervised_hold (p q : Pipeline) :
  hold q = hold p -> supervised p -> supervised q.
Proof.
  unfold hold, supervised, phase_of. by intros [= -> -> -> ->].
Qed.

Lemma in_sync_status sc (p q : Pipeline) :
  status q = status p -> ffmpegCmd q = ffmpegCmd p -> in_sync sc p -> in_sync sc q.
Proof.
  unfold status, in_sync, published. by intros [= -> ->] ->.
Qed.

Lemma valid_config_config (p q : Pipeline) :
  config q = config p -> valid_config p -> valid_config q.
Proof. unfold config, valid_config. by intros [= -> _ _ -> _]. Qed.

(** A state change that is published keeps the channel and the record
    together. *)
Lemma sync_publish sc st (p q : Pipeline) :
  videoStateChan p = sc \/ last (published p) = Some (currentState p) ->
  currentState q = st ->
  videoStateChan q = send_if_open st (videoStateChan p) ->
  videoStateChan q = sc \/ last (published q) = Some (currentState q).
Proof.
  unfold published. intros Hp -> ->. destruct (videoStateChan p) as [l|]; cbn.
  - right. unfold send. by rewrite last_snoc.
  - destruct Hp as [<-|Hp]; [by left|done].
Qed.

(** [videoStart] without a run handle, when the encoder launches. *)
Lemma videoStart_idle_started_eq fs (p : Pipeline) :
  ffmpegCmd p = None ->
  let ctx := contexts p in
  let cmd := mkCmd ctx "ffmpeg"
               (buildFFmpegArgs fs (set_ffmpegCancel (Some ctx) (set_contexts (S ctx) p))) in
  videoStart fs Started p =
    publish_state
      (set_currentState (with_Error "" (with_Ready true (currentState p)))
         (do_sys (SysSpawn cmd)
            (set_ffmpegStdout (Some ctx)
               (set_ffmpegCmd (Some cmd)
                  (set_ffmpegCancel (Some ctx) (set_contexts (S ctx) p)))))).
Proof. intros Hc. unfold videoStart. rewrite Hc. by destruct p. Qed.

(** The arguments depend on the configuration alone. *)
Lemma buildFFmpegArgs_config fs (p q : Pipeline) :
  config q = config p -> buildFFmpegArgs fs q = buildFFmpegArgs fs p.
Proof.
  unfold config, buildFFmpegArgs, canQSV, canVAAPI, vaapi_args, qsv_args, libx264_args.
  intros [= -> -> -> -> ->]. reflexivity.
Qed.

(** What a [videoStart] without a run handle does to the variables. *)
Lemma videoStart_idle_fields fs o (p : Pipeline) :
  ffmpegCmd p = None ->
  let cmd := mkCmd (contexts p) "ffmpeg" (buildFFmpegArgs fs p) in
  let st := with_Error "" (with_Ready true (currentState p)) in
  config (videoStart fs o p) = config p /\
  contexts (videoStart fs o p) = S (contexts p) /\
  if is_started o
  then ffmpegCmd (videoStart fs o p) = Some cmd /\
       ffmpegCancel (videoStart fs o p) = Some (contexts p) /\
       sys (videoStart fs o p) = sys p ++ [SysSpawn cmd] /\
       currentState (videoStart fs o p) = st /\
       videoStateChan (videoStart fs o p) = send_if_open st (videoStateChan p)
  else ffmpegCmd (videoStart fs o p) = None /\
       ffmpegCancel (videoStart fs o p) = None /\
       sys (videoStart fs o p) = sys p /\
       currentState (videoStart fs o p) = currentState p /\
       videoStateChan (videoStart fs o p) = videoStateChan p.
Proof.
  intros Hc. cbn zeta.
  rewrite <- (buildFFmpegArgs_config fs p
    (set_ffmpegCancel (Some (contexts p)) (set_contexts (S (contexts p)) p)))
    by (by destruct p).
  destruct o as [err|err|]; cbn [is_started].
  - rewrite videoStart_idle_pipe_fails by done. by destruct p.
  - rewrite videoStart_idle_start_fails by done. by destruct p.
  - rewrite videoStart_idle_started_eq by done. by destruct p.
Qed.

(** What [videoStop] does to the variables. *)
Lemma videoStop_fields (p : Pipeline) :
  let st := with_Ready false (currentState p) in
  config (videoStop p) = config p /\
  contexts (videoStop p) = contexts p /\
  currentState (videoStop p) = st /\
  videoStateChan (videoStop p) = send_if_open st (videoStateChan p).
Proof. open_pipeline p; repeat split; reflexivity. Qed.

(** What a pass of the reader does to the variables. *)
Lemma reader_pass_fields (chunk buf : list byte) (p : Pipeline) :
  let p' := (reader_pass chunk buf p).2 in
  config p' = config p /\ hold p' = hold p /\
  currentState p' = reported p /\
  videoStateChan p' = send_if_open (reported p) (videoStateChan p).
Proof.
  cbn zeta. destruct (reader_pass_report chunk buf p) as [fc ->].
  destruct p as [? ? ? ? ? ? ? [? ? ?] ? ? ? ? ? ? ?]. repeat split.
Qed.

(** ** What every call and every pass keeps *)

Lemma supervised_videoStart fs o (p : Pipeline) :
  supervised p -> supervised (videoStart fs o p).
Proof.
  intros Hp. destruct (ffmpegCmd p) as [c|] eqn:Hc.
  { by rewrite videoStart_running by eauto. }
  destruct (videoStart_idle_fields fs o p Hc) as (_ & Hctx & Ho).
  destruct Hp as (Hcan & n & Hlife & Hn).
  unfold supervised, phase_of in *. rewrite Hc in Hlife. rewrite Hctx.
  destruct (is_started o).
  - destruct Ho as (-> & -> & -> & _). split; [done|].
    exists (S (contexts p)). split; [|done].
    rewrite lifecycle_snoc, Hlife. cbn.
    rewrite bool_decide_eq_true_2 by done. by rewrite bool_decide_eq_true_2 by lia.
  - destruct Ho as (-> & -> & -> & _). split; [done|]. exists n. split; [done|lia].
Qed.

Lemma supervised_videoStop (p : Pipeline) : supervised p -> supervised (videoStop p).
Proof.
  intros (Hcan & n & Hlife & Hn).
  destruct (videoStop_handles p) as (Hc & Hk & _).
  destruct (videoStop_fields p) as (_ & Hctx & _).
  unfold supervised, phase_of in *. rewrite Hc, Hk, Hctx. split; [done|].
  exists n. split; [|done]. rewrite videoStop_sys, Hcan.
  destruct (ffmpegCmd p) as [c|]; cbn [fmap option_fmap option_map].
  - change [SysKill c; SysWait c] with ([SysKill c] ++ [SysWait c]).
    rewrite !app_assoc, !lifecycle_snoc, Hlife. cbn.
    rewrite bool_decide_eq_true_2 by done. cbn.
    rewrite bool_decide_eq_true_2 by done. cbn.
    by rewrite bool_decide_eq_true_2 by done.
  - by rewrite !app_nil_r.
Qed.

Lemma in_sync_videoStart sc fs o (p : Pipeline) :
  in_sync sc p -> in_sync sc (videoStart fs o p).
Proof.
  intros Hp. destruct (ffmpegCmd p) as [c|] eqn:Hc.
  { by rewrite videoStart_running by eauto. }
  destruct (videoStart_idle_fields fs o p Hc) as (_ & _ & Ho).
  destruct (is_started o).
  - destruct Ho as (_ & _ & _ & Hst & Hch).
    destruct Hp as (_ & _ & Hpub). split; [by rewrite Hst|]. split; [by rewrite Hst|].
    by eapply sync_publish.
  - destruct Ho as (Hc' & _ & _ & Hst & Hch).
    apply (in_sync_status sc p); [|by rewrite Hc, Hc'|done].
    unfold status. by rewrite Hst, Hch.
Qed.

Lemma in_sync_videoStop sc (p : Pipeline) : in_sync sc p -> in_sync sc (videoStop p).
Proof.
  intros (Herr & _ & Hpub).
  destruct (videoStop_handles p) as (Hc & _).
  destruct (videoStop_fields p) as (_ & _ & Hst & Hch).
  split; [by rewrite Hst|]. split.
  - rewrite Hc. by intros [? ?].
  - by eapply sync_publish.
Qed.

Lemma in_sync_reader_pass sc (chunk buf : list byte) (p : Pipeline) :
  in_sync sc p -> in_sync sc (reader_pass chunk buf p).2.
Proof.
  intros (Herr & _ & Hpub).
  destruct (reader_pass_fields chunk buf p) as (_ & _ & Hst & Hch).
  split; [by rewrite Hst|]. split; [by rewrite Hst|]. by eapply sync_publish.
Qed.

Lemma valid_config_videoStart fs o (p : Pipeline) :
  valid_config p -> valid_config (videoStart fs o p).
Proof.
  destruct (ffmpegCmd p) as [c|] eqn:Hc.
  { by rewrite videoStart_running by eauto. }
  destruct (videoStart_idle_fields fs o p Hc) as (Hcfg & _).
  by apply valid_config_config.
Qed.

Lemma valid_config_videoStop (p : Pipeline) :
  valid_config p -> valid_config (videoStop p).
Proof.
  destruct (videoStop_fields p) as (Hcfg & _). by apply valid_config_config.
Qed.

Lemma invariants_initial sc fc :
  valid_config (initial sc fc) /\ supervised (initial sc fc) /\
  in_sync sc (initial sc fc).
Proof.
  split; [|split].
  - split; [cbn; lia|cbn; set_solver].
  - split; [done|]. by exists 0%nat.
  - split; [done|]. split; [by intros [? ?]|by left].
Qed.

Section RunInvariants.
Context `{GoLib}.

Lemma invariants_step sc (e : event) (p : Pipeline) :
  valid_config p /\ supervised p /\ in_sync sc p ->
  valid_config (step e p) /\ supervised (step e p) /\ in_sync sc (step e p).
Proof.
  intros (Hcfg & Hsup & Hsync).
  destruct e as [[env fs|fs o| | |fs o factor]|chunk buf]; cbn [step call].
  - rewrite videoInit_effect.
    pose proof (resolved_fps_range env p (proj1 Hcfg)).
    pose proof (resolved_hwaccel_modes env p (proj2 Hcfg)).
    split; [by destruct p|]. split.
    + apply (supervised_hold p); [by destruct p|done].
    + apply (in_sync_status sc p); [by destruct p|by destruct p|done].
  - split; [by apply valid_config_videoStart|].
    split; [by apply supervised_videoStart|by apply in_sync_videoStart].
  - split; [by apply valid_config_videoStop|].
    split; [by apply supervised_videoStop|by apply in_sync_videoStop].
  - split; [by apply valid_config_videoStop|].
    split; [by apply supervised_videoStop|by apply in_sync_videoStop].
  - unfold videoSetStreamQualityFactor. cbn [fst].
    set (q := set_targetBitrate _ (set_qualityFactor _ p)).
    assert (valid_config q) as Hq1 by (by destruct p).
    assert (supervised q) as Hq2 by (apply (supervised_hold p); [by destruct p|done]).
    assert (in_sync sc q) as Hq3
      by (apply (in_sync_status sc p); [by destruct p|by destruct p|done]).
    destruct (ffmpegCmd q); [|done].
    split; [by apply valid_config_videoStart, valid_config_videoStop|].
    split; [by apply supervised_videoStart, supervised_videoStop|].
    by apply in_sync_videoStart, in_sync_videoStop.
  - destruct (reader_pass_fields chunk buf p) as (Hc & Hh & _).
    split; [by apply (valid_config_config p)|].
    split; [by apply (supervised_hold p)|by apply in_sync_reader_pass].
Qed.

Lemma invariants_interleaving sc (es : list event) (p : Pipeline) :
  valid_config p /\ supervised p /\ in_sync sc p ->
  valid_config (interleaving es p) /\ supervised (interleaving es p) /\
  in_sync sc (interleaving es p).
Proof.
  revert p. induction es as [|e es IH]; intros p Hp; [done|].
  cbn. by apply IH, invariants_step.
Qed.

Lemma invariants_reachable sc fc (es : list event) :
  valid_config (interleaving es (initial sc fc)) /\
  supervised (interleaving es (initial sc fc)) /\
  in_sync sc (interleaving es (initial sc fc)).
Proof. apply invariants_interleaving, invariants_initial. Qed.

(** X8. The calls the backend makes to the system are in order, whatever
    the calls into the backend and the passes of the reader since the
    start: only [ffmpeg] is spawned, each time on a context not used
    before, and only when no subprocess is held; what is cancelled, then
    killed, then waited for, is the subprocess that is held; the trace ends
    with a subprocess running exactly when [ffmpegCmd] holds it; and
    [ffmpegCancel] is the cancel function of the command held. *)
Theorem supervisor_calls_in_order
    (es : list event) (sc : chan VideoState) (fc : chan (list byte)) :
  let p := interleaving es (initial sc fc) in
  ffmpegCancel p = cmd_ctx <$> ffmpegCmd p /\
  exists n, lifecycle (sys p) = Some (phase_of p, n) /\ (n <= contexts p)%nat.
Proof. cbn zeta. by destruct (invariants_reachable sc fc es) as (_ & Hsup & _). Qed.

(** X9. The status record, whatever the calls into the backend and the
    passes of the reader since the start: its error text is empty (a
    failure to launch is logged, never put in the record); it says ready
    whenever a run handle is held; and either nothing was sent on the state
    channel, or what was sent last is the record as it stands. *)
Theorem status_in_sync
    (es : list event) (sc : chan VideoState) (fc : chan (list byte)) :
  let p := interleaving es (initial sc fc) in
  Error (currentState p) = "" /\
  (is_Some (ffmpegCmd p) -> Ready (currentState p) = true) /\
  (videoStateChan p = sc \/ last (published p) = Some (currentState p)).
Proof. cbn zeta. by destruct (invariants_reachable sc fc es) as (_ & _ & Hsync). Qed.

(** X10. The configuration stays valid, whatever the calls into the backend
    (with any environment) and the passes of the reader since the start:
    the frame rate is within [1, 120] and the acceleration mode is one of
    auto, vaapi, qsv, none; so [max(1, targetFPS)] is the frame rate itself
    and the pacing interval of the reader is between 1/120 s and 1 s. *)
Theorem config_stays_valid
    (es : list event) (sc : chan VideoState) (fc : chan (list byte)) :
  let p := interleaving es (initial sc fc) in
  1 <= targetFPS p <= 120 /\
  hwAccelMode p ∈ modes /\
  max 1 (targetFPS p) = targetFPS p /\
  frameDuration p = 1000000000 / targetFPS p /\
  8333333 <= frameDuration p <= 1000000000.
Proof.
  cbn zeta. destruct (invariants_reachable sc fc es) as ([Hfps Hmode] & _).
  split; [done|]. split; [done|].
  assert (max 1 (targetFPS (interleaving es (initial sc fc)))
          = targetFPS (interleaving es (initial sc fc))) as Hmax.
  { unfold max. destruct (Z.gtb_spec 1 (targetFPS (interleaving es (initial sc fc)))); lia. }
  split; [done|]. unfold frameDuration. rewrite Hmax.
  rewrite Z.quot_div_nonneg by lia. split; [done|]. split.
  - apply Z.div_le_lower_bound; lia.
  - apply Z.div_le_upper_bound; lia.
Qed.
End RunInvariants.

(** ** A reader pass after a stop *)

Section LateReader.
Context `{GoLib}.

(** X11. Ready and the subprocess.  After calls into the backend alone, the
    record says ready only if a run handle is held.  A pass of the reader
    breaks this: one that ends after [videoStop] (the reader takes no lock)
    sets the record ready again and publishes it, while no run handle is
    held and no subprocess is spawned. *)
Theorem ready_after_late_reader_pass :
  (forall (cs : list control) sc fc,
     let p := run cs (initial sc fc) in
     Ready (currentState p) = true -> is_Some (ffmpegCmd p)) /\
  (forall (chunk buf : list byte) (p : Pipeline),
     let p' := (reader_pass chunk buf (videoStop p)).2 in
     ffmpegCmd p' = None /\ Ready (currentState p') = true /\
     spawned p' = spawned p /\
     (is_Some (videoStateChan p) ->
      Ready <$> last (published p') = Some true)).
Proof.
  split.
  - intros cs sc fc p Hr.
    destruct (consistent_run cs _ (consistent_initial sc fc)) as (_ & Hidle).
    fold p in Hidle. destruct (ffmpegCmd p); [by eexists|].
    destruct Hidle as (_ & Hnr); [done|]. congruence.
  - intros chunk buf p p'.
    destruct (reader_pass_fields chunk buf (videoStop p)) as (_ & Hh & Hst & Hch).
    fold p' in Hh, Hst, Hch. unfold hold in Hh.
    destruct (videoStop_handles p) as (Hc & _).
    destruct (videoStop_fields p) as (_ & _ & _ & Hch').
    injection Hh as Hc' _ Hsys _.
    split; [by rewrite Hc'|]. split; [by rewrite Hst|].
    split; [unfold spawned at 1; rewrite Hsys; apply spawned_videoStop|].
    intros [l Hl]. unfold published. rewrite Hch, Hch', Hl. cbn. unfold send.
    by rewrite last_snoc.
Qed.
End LateReader.

(** ** A quality change while the encoder runs *)

Lemma buildFFmpegArgs_shape fs (p : Pipeline) :
  exists accel codec,
    buildFFmpegArgs fs p
    = args_head ++ accel ++ args_input p ++ codec ++ args_tail p.
Proof.
  unfold buildFFmpegArgs.
  destruct (canVAAPI fs p && _); [|destruct (canQSV fs p && _)].
  - by exists ["-hwaccel"; "vaapi"; "-vaapi_device"; vaapiDevice p],
      ["-vf"; "format=nv12,hwupload"; "-c:v"; "h264_vaapi"; "-bf"; "0"].
  - by exists ["-hwaccel"; "qsv"],
      ["-c:v"; "h264_qsv"; "-look_ahead"; "0"; "-bf"; "0"].
  - by exists [], ["-c:v"; "libx264"; "-preset"; "veryfast"; "-tune"; "zerolatency";
      "-profile:v"; "baseline"; "-level"; "3.1"; "-pix_fmt"; "yuv420p"].
Qed.

(** X12. A quality change while the encoder runs restarts it: the running
    subprocess is cancelled, killed and waited for, and a new [ffmpeg] is
    launched on a fresh context with the new bitrate in its arguments; the
    state channel gets a not-ready snapshot, then a ready one.  When the
    relaunch fails the pipeline is left stopped and not ready, and the call
    still returns no error. *)
Theorem quality_change_restarts_encoder
    fs o factor (p : Pipeline) (c : Cmd) (k : nat) :
  ffmpegCmd p = Some c -> ffmpegCancel p = Some k ->
  let r := videoSetStreamQualityFactor fs o factor p in
  let c' := mkCmd (contexts p) "ffmpeg" (buildFFmpegArgs fs r.1) in
  r.2 = None /\
  sys r.1 = sys p ++ [SysCancel k; SysKill c; SysWait c]
                  ++ (if is_started o then [SysSpawn c'] else []) /\
  ffmpegCmd r.1 = (if is_started o then Some c' else None) /\
  Ready (currentState r.1) = is_started o /\
  (exists pre,
     cmd_args c' = pre ++ ["-b:v"; Itoa (mbps_of (clamp_factor factor)) +:+ "M";
                           "-f"; "h264"; "pipe:1"]) /\
  (forall l, videoStateChan p = Some l ->
     videoStateChan r.1
     = Some (l ++ [with_Ready false (currentState p)]
               ++ (if is_started o
                   then [with_Error "" (with_Ready true (currentState p))]
                   else []))).
Proof.
  intros Hc Hk r c'. split; [done|].
  assert (exists pre,
     cmd_args c' = pre ++ ["-b:v"; Itoa (mbps_of (clamp_factor factor)) +:+ "M";
                           "-f"; "h264"; "pipe:1"]) as Hargs.
  { destruct (buildFFmpegArgs_shape fs r.1) as (accel & codec & E).
    exists (args_head ++ accel ++ args_input r.1 ++ codec ++ ["-r"; Itoa (targetFPS r.1)]).
    subst c'. cbn [cmd_args]. rewrite E. unfold args_tail. subst r.
    rewrite (targetBitrate_set fs o factor p). by rewrite <- !app_assoc. }
  revert Hargs. subst c' r. unfold videoSetStreamQualityFactor. cbn [fst].
  set (q := set_targetBitrate _ (set_qualityFactor _ p)).
  assert (ffmpegCmd q = Some c /\ ffmpegCancel q = Some k /\ sys q = sys p /\
          contexts q = contexts p /\ currentState q = currentState p /\
          videoStateChan q = videoStateChan p)
    as (Hqc & Hqk & Hqs & Hqx & Hqst & Hqch).
  { destruct p; cbn in *. by subst. }
  rewrite Hqc.
  destruct (videoStop_handles q) as (Hsc & _).
  destruct (videoStop_fields q) as (Hscfg & Hsx & Hsst & Hsch).
  pose proof (videoStop_sys q) as Hss. rewrite Hqc, Hqk, Hqs in Hss.
  destruct (videoStart_idle_fields fs o (videoStop q) Hsc) as (Hcfg & _ & Ho).
  rewrite (buildFFmpegArgs_config fs (videoStop q) (videoStart fs o (videoStop q)) Hcfg).
  rewrite Hsx, Hqx in Ho.
  destruct (is_started o).
  - destruct Ho as (Hc' & _ & Hsys & Hst & Hch). intros Hargs.
    split; [by rewrite Hsys, Hss, <- !app_assoc|]. split; [done|].
    split; [by rewrite Hst|]. split; [done|].
    intros l Hl. rewrite Hch, Hsch, Hsst, Hqch, Hqst, Hl. cbn. unfold send.
    by rewrite <- !app_assoc.
  - destruct Ho as (Hc' & _ & Hsys & Hst & Hch). intros Hargs.
    split; [by rewrite Hsys, Hss, app_nil_r|]. split; [done|].
    split; [by rewrite Hst, Hsst|]. split; [done|].
    intros l Hl. by rewrite Hch, Hsch, Hqch, Hqst, Hl.
Qed.

Lemma quality_change_restarts_encoder_witness :
  let p := videoStart ∅ Started (initial (Some []) (Some [])) in
  let r := videoSetStreamQualityFactor ∅ Started f64_2_0 p in
  length (sys r.1) = 5%nat /\
  exists pre, (cmd_args <$> ffmpegCmd r.1)
              = Some (pre ++ ["-b:v"; "8M"; "-f"; "h264"; "pipe:1"]).
Proof.
  intros p r.
  destruct (quality_change_restarts_encoder ∅ Started f64_2_0 p
              (mkCmd 0 "ffmpeg" (buildFFmpegArgs ∅ (initial (Some []) (Some []))))
              0%nat)
    as (_ & Hsys & Hc & _ & (pre & Hargs) & _);
    [vm_compute; reflexivity|reflexivity|].
  fold r in Hsys, Hc, Hargs. split.
  - rewrite Hsys. reflexivity.
  - exists pre. rewrite Hc. cbn [is_started fmap option_fmap option_map].
    rewrite Hargs. reflexivity.
Defined.

(** ** The commands that are spawned *)

Lemma spawned_cmds_snoc (t : list syscall) (e : syscall) :
  spawned_cmds (t ++ [e])
  = spawned_cmds t ++ match e with SysSpawn c => [c] | _ => [] end.
Proof. unfold spawned_cmds. rewrite omap_app. by destruct e. Qed.

Lemma spawned_cmds_videoStop (p : Pipeline) :
  spawned_cmds (sys (videoStop p)) = spawned_cmds (sys p).
Proof.
  rewrite videoStop_sys. unfold spawned_cmds. rewrite !omap_app.
  destruct (ffmpegCancel p), (ffmpegCmd p); cbn; by rewrite ?app_nil_r.
Qed.

Lemma encoder_cmd_buildFFmpegArgs fs ctx (p : Pipeline) :
  valid_config p -> encoder_cmd (mkCmd ctx "ffmpeg" (buildFFmpegArgs fs p)).
Proof.
  intros [Hfps _]. split; [done|].
  destruct (buildFFmpegArgs_shape fs p) as (accel & codec & E).
  exists (targetFPS p), (videoDevice p), (targetBitrate p), accel, codec.
  split; [done|]. by rewrite E.
Qed.

(** The commands spawned so far are encoder command lines, and the command
    held is one of them. *)
Lemma well_spawned_videoStart fs o (p : Pipeline) :
  valid_config p ->
  Forall encoder_cmd (spawned_cmds (sys p)) /\
  (forall c, ffmpegCmd p = Some c -> c ∈ spawned_cmds (sys p)) ->
  Forall encoder_cmd (spawned_cmds (sys (videoStart fs o p))) /\
  (forall c, ffmpegCmd (videoStart fs o p) = Some c ->
             c ∈ spawned_cmds (sys (videoStart fs o p))).
Proof.
  intros Hcfg [Hall Hheld]. destruct (ffmpegCmd p) as [c|] eqn:Hc.
  { rewrite videoStart_running by eauto. rewrite Hc. by split. }
  destruct (videoStart_idle_fields fs o p Hc) as (_ & _ & Ho).
  destruct (is_started o).
  - destruct Ho as (-> & _ & -> & _). rewrite spawned_cmds_snoc. split.
    + apply Forall_app. split; [done|].
      apply Forall_singleton. by apply encoder_cmd_buildFFmpegArgs.
    + intros c [= <-]. apply elem_of_app. right. apply elem_of_cons. by left.
  - destruct Ho as (-> & _ & -> & _). by split.
Qed.

Lemma well_spawned_videoStop (p : Pipeline) :
  Forall encoder_cmd (spawned_cmds (sys p)) ->
  Forall encoder_cmd (spawned_cmds (sys (videoStop p))) /\
  (forall c, ffmpegCmd (videoStop p) = Some c ->
             c ∈ spawned_cmds (sys (videoStop p))).
Proof.
  intros Hall. rewrite spawned_cmds_videoStop.
  destruct (videoStop_handles p) as (-> & _). by split.
Qed.

Section SpawnedCommands.
Context `{GoLib}.

Lemma well_spawned_step (e : event) (p : Pipeline) :
  valid_config p ->
  Forall encoder_cmd (spawned_cmds (sys p)) /\
  (forall c, ffmpegCmd p = Some c -> c ∈ spawned_cmds (sys p)) ->
  Forall encoder_cmd (spawned_cmds (sys (step e p))) /\
  (forall c, ffmpegCmd (step e p) = Some c -> c ∈ spawned_cmds (sys (step e p))).
Proof.
  intros Hcfg Hp.
  destruct e as [[env fs|fs o| | |fs o factor]|chunk buf]; cbn [step call].
  - rewrite videoInit_effect.
    assert (sys (with_config (resolved_fps env p) (resolved_bitrate env p)
                   (resolved_device env p) (resolved_hwaccel env p)
                   (resolved_vaapi_device env p) p) = sys p) as -> by (by destruct p).
    assert (ffmpegCmd (with_config (resolved_fps env p) (resolved_bitrate env p)
                   (resolved_device env p) (resolved_hwaccel env p)
                   (resolved_vaapi_device env p) p) = ffmpegCmd p) as -> by (by destruct p).
    done.
  - by apply well_spawned_videoStart.
  - apply well_spawned_videoStop, Hp.
  - apply well_spawned_videoStop, Hp.
  - unfold videoSetStreamQualityFactor. cbn [fst].
    set (q := set_targetBitrate _ (set_qualityFactor _ p)).
    assert (valid_config q) as Hq1 by (by destruct p).
    assert (sys q = sys p) as Hq2 by (by destruct p).
    assert (ffmpegCmd q = ffmpegCmd p) as Hq3 by (by destruct p).
    destruct (ffmpegCmd q) eqn:Hq4.
    + apply well_spawned_videoStart; [by apply valid_config_videoStop|].
      apply well_spawned_videoStop. rewrite Hq2. apply Hp.
    + rewrite Hq2, Hq4. split; [by destruct Hp|done].
  - destruct (reader_pass_fields chunk buf p) as (_ & Hh & _).
    injection Hh as -> _ -> _. done.
Qed.

Lemma well_spawned_interleaving sc (es : list event) (p : Pipeline) :
  valid_config p /\ supervised p /\ in_sync sc p ->
  Forall encoder_cmd (spawned_cmds (sys p)) /\
  (forall c, ffmpegCmd p = Some c -> c ∈ spawned_cmds (sys p)) ->
  Forall encoder_cmd (spawned_cmds (sys (interleaving es p))) /\
  (forall c, ffmpegCmd (interleaving es p) = Some c ->
             c ∈ spawned_cmds (sys (interleaving es p))).
Proof.
  revert p. induction es as [|e es IH]; intros p Hinv Hp; [done|].
  cbn. apply IH; [by apply invariants_step|].
  apply well_spawned_step; [by destruct Hinv|done].
Qed.

(** X13. Every command the backend spawns, whatever the calls into the
    backend and the passes of the reader since the start and whatever the
    environment and the device nodes, is an encoder command line: [ffmpeg]
    with the shared low-latency options first, the V4L2 MJPEG input from
    the capture device after the options of the accelerator, a frame rate
    within [1, 120], the bitrate, and raw H.264 written to standard output
    last.  The command held in [ffmpegCmd] is one of those spawned. *)
Theorem spawned_commands_are_encoders
    (es : list event) (sc : chan VideoState) (fc : chan (list byte)) :
  let p := interleaving es (initial sc fc) in
  Forall encoder_cmd (spawned_cmds (sys p)) /\
  (forall c, ffmpegCmd p = Some c ->
             c ∈ spawned_cmds (sys p) /\ encoder_cmd c).
Proof.
  cbn zeta.
  destruct (well_spawned_interleaving sc es (initial sc fc)
              (invariants_initial sc fc)) as [Hall Hheld]; [by split|].
  split; [done|]. intros c Hc. split; [by apply Hheld|].
  eapply Forall_forall; [exact Hall|by apply Hheld].
Qed.
End SpawnedCommands.

(* ===================================================================== *)
(** * Further properties of the quality controller *)
(* ===================================================================== *)

(** ** The order of floats is transitive *)

Ltac float_order :=
  repeat match goal with
  | |- context [Z.compare ?x ?y] => destruct (Z.compare_spec x y)
  | H : context [Z.compare ?x ?y] |- _ => destruct (Z.compare_spec x y)
  | |- context [Pos.compare_cont Eq ?x ?y] =>
      change (Pos.compare_cont Eq x y) with (Pos.compare x y);
      destruct (Pos.compare_spec x y)
  | H : context [Pos.compare_cont Eq ?x ?y] |- _ =>
      change (Pos.compare_cont Eq x y) with (Pos.compare x y) in H;
      destruct (Pos.compare_spec x y)
  end; cbn in *; try done; try lia.

Lemma f64_le_lt_trans (a b c : float64) :
  f64_le a b = true -> f64_lt b c = true -> f64_lt a c = true.
Proof.
  unfold f64_le, f64_lt, SFleb, SFltb, SFcompare.
  destruct a as [[|]|[|]| |[|] ma ea], b as [[|]|[|]| |[|] mb eb],
    c as [[|]|[|]| |[|] mc ec]; cbn; try done; intros H1 H2; float_order.
Qed.

Lemma f64_lt_le_trans (a b c : float64) :
  f64_lt a b = true -> f64_le b c = true -> f64_lt a c = true.
Proof.
  unfold f64_le, f64_lt, SFleb, SFltb, SFcompare.
  destruct a as [[|]|[|]| |[|] ma ea], b as [[|]|[|]| |[|] mb eb],
    c as [[|]|[|]| |[|] mc ec]; cbn; try done; intros H1 H2; float_order.
Qed.

Lemma f64_lt_le (a b : float64) : f64_lt a b = true -> f64_le a b = true.
Proof.
  unfold f64_le, f64_lt, SFleb, SFltb. by destruct (SFcompare a b) as [[| |]|].
Qed.

Lemma f64_le_refl (a : float64) : is_nan a = false -> f64_le a a = true.
Proof.
  unfold f64_le, SFleb, SFcompare.
  destruct a as [[|]|[|]| |[|] ma ea]; cbn; try done; intros _;
    rewrite Z.compare_refl; change (Pos.compare_cont Eq ma ma) with (Pos.compare ma ma);
    by rewrite Pos.compare_refl.
Qed.

(** The clamp keeps the order. *)
Lemma clamp_factor_mono (a b : float64) :
  is_nan a = false -> is_nan b = false ->
  f64_le a b = true -> f64_le (clamp_factor a) (clamp_factor b) = true.
Proof.
  intros Ha Hb Hab.
  pose proof (clamp_factor_in_range a Ha) as [Ha1 Ha2]%andb_true_iff.
  pose proof (clamp_factor_in_range b Hb) as [Hb1 Hb2]%andb_true_iff.
  revert Ha1 Ha2 Hb1 Hb2. unfold clamp_factor.
  destruct (f64_lt a f64_0_5) eqn:A1.
  { change (f64_lt f64_2_0 f64_0_5) with false. cbv iota. by intros _ _ ? _. }
  destruct (f64_lt f64_2_0 a) eqn:A2.
  { pose proof (f64_lt_le_trans _ _ _ A2 Hab) as B2.
    destruct (f64_lt b f64_0_5) eqn:B1.
    - pose proof (f64_lt_le_trans _ _ _ B2 (f64_lt_le _ _ B1)) as C. discriminate C.
    - rewrite B2. by intros. }
  destruct (f64_lt b f64_0_5) eqn:B1.
  { pose proof (f64_le_lt_trans _ _ _ Hab B1) as C. congruence. }
  destruct (f64_lt f64_2_0 b) eqn:B2; by intros.
Qed.

(** ** The bitrate follows the factor *)

Lemma f64_le_shape (m1 m2 : positive) (e1 e2 : Z) :
  f64_le (S754_finite false m1 e1) (S754_finite false m2 e2) = true ->
  e1 < e2 \/ (e1 = e2 /\ (m1 <= m2)%positive).
Proof.
  unfold f64_le, SFleb, SFcompare.
  destruct (Z.compare_spec e1 e2); [|by left|done].
  change (Pos.compare_cont Eq m1 m2) with (Pos.compare m1 m2).
  destruct (Pos.compare_spec m1 m2); [| |done]; intros _; right; split; try done.
  - subst. apply Pos.le_refl.
  - by apply Pos.lt_le_incl.
Qed.

(** [int(4 * x)] by the exponent of [x]. *)
Lemma int_of_4_shape (m : positive) (e : Z) :
  digits2_pos m = 53%positive ->
  (e = -53 \/ e = -52 \/ (e = -51 /\ m = 4503599627370496%positive)) ->
  let n := int_of_float64 (f64_mul f64_4_0 (S754_finite false m e)) in
  (e = -53 -> n = Zpos m / 2251799813685248 /\ 2 <= n <= 3) /\
  (e = -52 -> n = Zpos m / 1125899906842624 /\ 4 <= n <= 7) /\
  (e = -51 -> n = 8).
Proof.
  intros Hd He. cbn zeta.
  rewrite f64_mul_4_exact by (done || lia).
  pose proof (digits2_pos_bounds m) as Hb. rewrite Hd in Hb.
  change (2 ^ (53 - 1)) with 4503599627370496 in Hb.
  change (2 ^ 53) with 9007199254740992 in Hb.
  unfold int_of_float64, min_int64, max_int64.
  destruct He as [->|[->|[-> ->]]].
  - split; [intros _|split; intros ?; lia].
    change (0 <=? -53 + 2) with false. cbv iota.
    change (- (-53 + 2)) with 51. rewrite Z.shiftr_div_pow2 by lia.
    change (2 ^ 51) with 2251799813685248.
    assert (2 <= Zpos m / 2251799813685248 <= 3).
    { split; [apply Z.div_le_lower_bound | apply Z.lt_succ_r, Z.div_lt_upper_bound]; lia. }
    destruct (Z.leb_spec (- 2 ^ 63) (Zpos m / 2251799813685248)); [|lia].
    destruct (Z.leb_spec (Zpos m / 2251799813685248) (2 ^ 63 - 1)); [|lia].
    done.
  - split; [intros ?; lia|split; [intros _|intros ?; lia]].
    change (0 <=? -52 + 2) with false. cbv iota.
    change (- (-52 + 2)) with 50. rewrite Z.shiftr_div_pow2 by lia.
    change (2 ^ 50) with 1125899906842624.
    assert (4 <= Zpos m / 1125899906842624 <= 7).
    { split; [apply Z.div_le_lower_bound | apply Z.lt_succ_r, Z.div_lt_upper_bound]; lia. }
    destruct (Z.leb_spec (- 2 ^ 63) (Zpos m / 1125899906842624)); [|lia].
    destruct (Z.leb_spec (Zpos m / 1125899906842624) (2 ^ 63 - 1)); [|lia].
    done.
  - split; [intros ?; lia|split; [intros ?; lia|intros _]]. reflexivity.
Qed.

Lemma mbps_of_mono (x y : float64) :
  is_float64 x = true -> is_float64 y = true ->
  in_quality_range x = true -> in_quality_range y = true ->
  f64_le x y = true -> mbps_of x <= mbps_of y.
Proof.
  intros Hvx Hvy Hrx Hry Hle.
  destruct (in_quality_range_shape x Hvx Hrx) as (m1 & e1 & -> & Hd1 & He1).
  destruct (in_quality_range_shape y Hvy Hry) as (m2 & e2 & -> & Hd2 & He2).
  rewrite !mbps_of_clampZ.
  destruct (int_of_4_shape m1 e1 Hd1 He1) as (A1 & A2 & A3).
  destruct (int_of_4_shape m2 e2 Hd2 He2) as (B1 & B2 & B3).
  apply f64_le_shape in Hle.
  set (n1 := int_of_float64 (f64_mul f64_4_0 (S754_finite false m1 e1))) in *.
  set (n2 := int_of_float64 (f64_mul f64_4_0 (S754_finite false m2 e2))) in *.
  assert (n1 <= n2) as Hn;
    [|unfold clampZ; by apply Z.max_le_compat_l, Z.min_le_compat_l].
  assert (e1 = -53 \/ e1 = -52 \/ e1 = -51) as E1 by tauto.
  assert (e2 = -53 \/ e2 = -52 \/ e2 = -51) as E2 by tauto.
  clear He1 He2 Hd1 Hd2 Hvx Hvy Hrx Hry.
  destruct Hle as [Hlt|[-> Hm]].
  - destruct E1 as [->|[->| ->]], E2 as [->|[->| ->]]; lia.
  - destruct E2 as [->|[->| ->]].
    + destruct (A1 eq_refl) as [-> _], (B1 eq_refl) as [-> _].
      apply Z.div_le_mono; [done|]. by apply Pos2Z.pos_le_pos.
    + destruct (A2 eq_refl) as [-> _], (B2 eq_refl) as [-> _].
      apply Z.div_le_mono; [done|]. by apply Pos2Z.pos_le_pos.
    + rewrite (A3 eq_refl), (B3 eq_refl). done.
Qed.

(** X14. The bitrate follows the quality factor: for two factors that are
    numbers, the first at most the second, the factor stored for the first
    is at most the factor stored for the second, and so is the number of
    megabits in the bitrate token, whatever the state of the pipeline at
    either call. *)
Theorem bitrate_is_monotone
    fs1 o1 fs2 o2 (a b : float64) (p1 p2 : Pipeline) :
  is_float64 a = true -> is_float64 b = true ->
  is_nan a = false -> is_nan b = false ->
  f64_le a b = true ->
  let r1 := (videoSetStreamQualityFactor fs1 o1 a p1).1 in
  let r2 := (videoSetStreamQualityFactor fs2 o2 b p2).1 in
  f64_le (qualityFactor r1) (qualityFactor r2) = true /\
  exists m1 m2 : Z,
    targetBitrate r1 = Itoa m1 +:+ "M" /\ targetBitrate r2 = Itoa m2 +:+ "M" /\
    2 <= m1 /\ m1 <= m2 /\ m2 <= 8.
Proof.
  intros Hva Hvb Ha Hb Hab r1 r2. subst r1 r2.
  rewrite !qualityFactor_set, !targetBitrate_set.
  pose proof (clamp_factor_mono a b Ha Hb Hab) as Hle.
  split; [done|].
  exists (mbps_of (clamp_factor a)), (mbps_of (clamp_factor b)).
  split; [done|]. split; [done|].
  pose proof (is_float64_clamp_factor a Hva) as Hva'.
  pose proof (is_float64_clamp_factor b Hvb) as Hvb'.
  pose proof (clamp_factor_in_range a Ha) as Hra.
  pose proof (clamp_factor_in_range b Hb) as Hrb.
  destruct (mbps_of_trunc _ Hva' Hra) as [_ [H1 _]].
  destruct (mbps_of_trunc _ Hvb' Hrb) as [_ [_ H2]].
  split; [done|]. split; [|done]. by apply mbps_of_mono.
Qed.

Lemma bitrate_is_monotone_witness :
  let p := initial (Some []) (Some []) in
  f64_le (qualityFactor (videoSetStreamQualityFactor ∅ Started f64_0_1 p).1)
         (qualityFactor (videoSetStreamQualityFactor ∅ Started f64_1_0 p).1) = true.
Proof.
  intros p.
  apply (bitrate_is_monotone ∅ Started ∅ Started f64_0_1 f64_1_0 p p);
    reflexivity.
Defined.

(* ===================================================================== *)
(** * Further properties of the backend selection *)
(* ===================================================================== *)

Section AccelOverride.
Context `{GoLib}.

(** X15. The acceleration override: [VIDEO_HWACCEL] is taken, lowered by
    [strings.ToLower], when trimmed it is not empty and lowered it is one
    of auto, vaapi, qsv, none; any other value is dropped without an error
    and the mode stays as it was.  When the variable says none, the encoder
    started afterwards is the software one whatever device nodes exist. *)
Theorem videoInit_hwaccel_override
    (env : gmap string string) (fs : gset string) (p : Pipeline) :
  let s := TrimSpace (Getenv env "VIDEO_HWACCEL") in
  let p' := (videoInit env fs p).1 in
  (s <> "" -> ToLower s ∈ modes -> hwAccelMode p' = ToLower s) /\
  (s = "" \/ ToLower s ∉ modes -> hwAccelMode p' = hwAccelMode p) /\
  (s <> "" -> ToLower s = "none" ->
   forall fs', buildFFmpegArgs fs' p' = libx264_args p').
Proof.
  cbn zeta.
  assert (hwAccelMode (videoInit env fs p).1 = resolved_hwaccel env p) as E.
  { rewrite videoInit_effect. by destruct p. }
  assert (TrimSpace (Getenv env "VIDEO_HWACCEL") <> "" ->
          ToLower (TrimSpace (Getenv env "VIDEO_HWACCEL")) ∈ modes ->
          hwAccelMode (videoInit env fs p).1
          = ToLower (TrimSpace (Getenv env "VIDEO_HWACCEL"))) as Htake.
  { intros Hs Hm. rewrite E. unfold resolved_hwaccel.
    by rewrite !bool_decide_eq_true_2. }
  split; [done|]. split.
  - intros Hs. rewrite E. unfold resolved_hwaccel. destruct Hs as [Hs|Hs].
    + by rewrite bool_decide_eq_false_2 by naive_solver.
    + rewrite (bool_decide_eq_false_2 (_ ∈ _)) by done. by rewrite andb_false_r.
  - intros Hs Hnone fs'.
    assert (hwAccelMode (videoInit env fs p).1 = "none") as Hmode.
    { rewrite Htake; [done|done|]. rewrite Hnone. set_solver. }
    unfold buildFFmpegArgs. rewrite Hmode.
    rewrite (bool_decide_eq_false_2 ("none" ≠ "none")) by naive_solver.
    by rewrite !andb_false_r.
Qed.
End AccelOverride.

Example videoInit_hwaccel_cases :
  let mode v := hwAccelMode (@videoInit ascii_golib {[ "VIDEO_HWACCEL" := v ]} ∅
                               (initial None None)).1 in
  mode "vaapi" = "vaapi" /\ mode " QSV " = "qsv" /\ mode "None" = "none" /\
  mode "cuda" = "auto" /\ mode "" = "auto" /\ mode "v a a p i" = "auto".
Proof. vm_compute. done. Qed.

(* ===================================================================== *)
(** * Further properties of the release of a run *)
(* ===================================================================== *)

(** A trace in order has spawned one subprocess more than it has waited for
    exactly when one is left, running or on its way out. *)
Lemma lifecycle_live (t : list syscall) (ph : phase) (n : nat) :
  lifecycle t = Some (ph, n) ->
  Z.of_nat (length (filter is_spawn t)) - Z.of_nat (length (filter is_wait t))
  = match ph with Idle => 0 | _ => 1 end.
Proof.
  revert ph n. induction t as [|e t IH] using rev_ind; intros ph n Hl.
  { injection Hl as <- _. done. }
  rewrite lifecycle_snoc in Hl.
  destruct (lifecycle t) as [[ph' n']|]; [|done].
  specialize (IH ph' n' eq_refl). cbn in Hl.
  rewrite !filter_app, !length_app.
  unfold lifecycle_step in Hl. cbn [fst snd] in Hl.
  destruct ph' as [|c|c|c], e as [c'|x|c'|c']; try done;
    destruct (_ : bool) in Hl; try done; injection Hl as <- _; cbn;
    repeat (destruct (decide _) as [?|?]; try done); cbn; lia.
Qed.

Lemma supervised_live (p : Pipeline) : supervised p -> live p = handles p.
Proof.
  intros (_ & n & Hl & _). unfold live, handles, spawned, waited.
  rewrite (lifecycle_live _ _ _ Hl). unfold phase_of. by destruct (ffmpegCmd p).
Qed.

Section Release.
Context `{GoLib}.

(** X16. [videoStop] releases the run from every state the backend can be
    in, reader passes included: the three handle variables are nil, the
    record says not ready, and no subprocess is left that was spawned and
    not waited for; a [videoStart] that follows is accepted and leaves
    exactly one.  Before the stop, the subprocesses spawned and not waited
    for are as many as run handles held. *)
Theorem videoStop_releases_the_run
    (es : list event) (sc : chan VideoState) (fc : chan (list byte)) :
  let p := interleaving es (initial sc fc) in
  let q := videoStop p in
  live p = handles p /\
  ffmpegCmd q = None /\ ffmpegCancel q = None /\ ffmpegStdout q = None /\
  Ready (currentState q) = false /\
  live q = 0 /\
  (forall fs, is_Some (ffmpegCmd (videoStart fs Started q)) /\
              live (videoStart fs Started q) = 1).
Proof.
  intros p q. destruct (invariants_reachable sc fc es) as (_ & Hsup & _).
  fold p in Hsup.
  pose proof (supervised_videoStop p Hsup) as Hq. fold q in Hq.
  destruct (videoStop_handles p) as (Hc & Hk & Ho & Hr). fold q in Hc, Hk, Ho, Hr.
  split; [by apply supervised_live|].
  split; [done|]. split; [done|]. split; [done|]. split; [done|].
  assert (live q = 0) as Hlq.
  { rewrite (supervised_live q Hq). unfold handles. by rewrite Hc. }
  split; [done|]. intros fs.
  destruct (videoStart_idle_fields fs Started q Hc) as (_ & _ & Hs).
  cbn [is_started] in Hs. destruct Hs as (Hs & _).
  split; [by rewrite Hs|].
  rewrite (supervised_live _ (supervised_videoStart fs Started q Hq)).
  unfold handles. by rewrite Hs.
Qed.
End Release.

(* ===================================================================== *)
(** * Properties of the uinput keyboard backend *)
(* ===================================================================== *)

(** ** The key maps *)

Ltac map_cases H :=
  apply elem_of_list_to_map_2 in H;
  repeat (apply elem_of_cons in H as [H|H];
          [apply pair_equal_spec in H as [? H];
           first [vm_compute in H; discriminate H | subst]|]);
  try (by apply elem_of_nil in H).

(** The modifiers are the usages [0xE0] to [0xE7]; the mask of a modifier
    is its bit. *)
Lemma hidModifierToLinux_spec (key code : Z) :
  hidModifierToLinux !! key = Some code ->
  0xE0 <= key <= 0xE7 /\ hidMaskFor key = 2 ^ (key - 0xE0) /\
  uint16 code = code /\ hidToLinux !! key = None.
Proof.
  intros Hk. unfold hidModifierToLinux in Hk.
  map_cases Hk; (split; [lia|]); repeat split; vm_compute; reflexivity.
Qed.

(** A key of [hidToLinux] is not zero and is no modifier. *)
Lemma hidToLinux_spec (key code : Z) :
  hidToLinux !! key = Some code ->
  key <> 0 /\ hidModifierToLinux !! key = None /\ uint16 code = code /\
  (forall hid, hidModifierToLinux !! hid = Some code -> False).
Proof.
  intros Hk. unfold hidToLinux in Hk. map_cases Hk.
  all: split; [done|]; split; [vm_compute; reflexivity|];
    split; [vm_compute; reflexivity|].
  all: intros hid Hm; unfold hidModifierToLinux in Hm; map_cases Hm; done.
Qed.

(** Two modifiers with one code are one. *)
Lemma hidModifierToLinux_inj (k1 k2 code : Z) :
  hidModifierToLinux !! k1 = Some code -> hidModifierToLinux !! k2 = Some code ->
  k1 = k2.
Proof.
  intros H1 H2. unfold hidModifierToLinux in H1, H2.
  map_cases H1; map_cases H2; done.
Qed.

(** ** Bytes and their bits *)

Lemma byte_bits (x : Z) :
  0 <= x -> (x < 256 <-> forall i, 8 <= i -> Z.testbit x i = false).
Proof.
  intros Hx. split.
  - intros Hlt i Hi. destruct (Z.eq_dec x 0) as [->|Hne]; [apply Z.bits_0|].
    apply Z.bits_above_log2; [done|].
    assert (Z.log2 x < 8); [|lia]. apply Z.log2_lt_pow2; lia.
  - intros Hbits. destruct (Z.lt_ge_cases x 256) as [|Hge]; [done|].
    assert (8 <= Z.log2 x) as Hl by (apply Z.log2_le_pow2; lia).
    specialize (Hbits _ Hl). rewrite Z.bit_log2 in Hbits by lia. done.
Qed.

Lemma copy6_length (keys : list Z) : length (copy6 keys) = 6%nat.
Proof.
  unfold copy6. rewrite length_app, length_take, length_replicate. lia.
Qed.

Lemma copy6_id (keys : list Z) : length keys = 6%nat -> copy6 keys = keys.
Proof.
  intros Hl. unfold copy6. rewrite Hl. cbn [replicate Nat.sub].
  by rewrite app_nil_r, take_ge by lia.
Qed.

(** ** One key at a time *)

(** What [KeypressReport] does with a modifier. *)
Lemma KeypressReport_modifier_fields (key code : Z) (press : bool) (now : Z)
    (u : UInputBackend) :
  hidModifierToLinux !! key = Some code ->
  let r := (KeypressReport key press now u).1 in
  keysDownState r =
    mkKeysDownState
      (if press then Z.lor (Modifier (keysDownState u)) (hidMaskFor key)
       else Z.ldiff (Modifier (keysDownState u)) (hidMaskFor key))
      (copy6 (Keys (keysDownState u))) /\
  fd r = (fun evs => evs ++ [mkEvent EV_KEY code (if press then 1 else 0);
                             mkEvent EV_SYN SYN_REPORT 0]) <$> fd u /\
  onKeysDownChange r = (fun l => l ++ [keysDownState r]) <$> onKeysDownChange u /\
  lastUserInput r = now /\ ioctls r = ioctls u /\ closed r = closed u /\
  keyboardState r = keyboardState u.
Proof.
  intros Hk. cbn zeta. unfold KeypressReport. rewrite Hk.
  destruct (hidModifierToLinux_spec key code Hk) as (_ & _ & -> & _).
  destruct u as [[evs|] [l|] ? [m ks] ? ? ?], press; cbn; unfold send;
    rewrite <- ?app_assoc; repeat split.
Qed.

(** What [KeypressReport] does with a key of [hidToLinux]. *)
Lemma KeypressReport_key_fields (key code : Z) (press : bool) (now : Z)
    (u : UInputBackend) :
  hidToLinux !! key = Some code ->
  let r := (KeypressReport key press now u).1 in
  keysDownState r =
    mkKeysDownState (Modifier (keysDownState u))
      (copy6 (if press then place key (Keys (keysDownState u))
              else unplace key (Keys (keysDownState u)))) /\
  fd r = (fun evs => evs ++ [mkEvent EV_KEY code (if press then 1 else 0);
                             mkEvent EV_SYN SYN_REPORT 0]) <$> fd u /\
  onKeysDownChange r = (fun l => l ++ [keysDownState r]) <$> onKeysDownChange u /\
  lastUserInput r = now /\ ioctls r = ioctls u /\ closed r = closed u /\
  keyboardState r = keyboardState u.
Proof.
  intros Hk. cbn zeta. unfold KeypressReport.
  destruct (hidToLinux_spec key code Hk) as (_ & -> & Hc & _). rewrite Hk, Hc.
  destruct u as [[evs|] [l|] ? [m ks] ? ? ?], press; cbn; unfold send;
    rewrite <- ?app_assoc; repeat split.
Qed.

(** X17. A modifier key: [KeypressReport] with one of the usages [0xE0] to
    [0xE7] writes the key event of its Linux code (1 for press, 0 for
    release) and a sync, sets the bit of the modifier in the modifier byte
    on press and clears it on release, and leaves every other bit and the
    six key slots as they were; the byte stays a byte, the change is
    reported to the callback and the time of the last input is reset. *)
Theorem KeypressReport_modifier
    (key code : Z) (press : bool) (now : Z) (u : UInputBackend) :
  hidModifierToLinux !! key = Some code ->
  0 <= Modifier (keysDownState u) < 256 ->
  length (Keys (keysDownState u)) = 6%nat ->
  let r := KeypressReport key press now u in
  let m' := Modifier (keysDownState r.1) in
  r.2 = None /\
  0 <= key - 0xE0 < 8 /\
  0 <= m' < 256 /\
  (forall i, 0 <= i ->
     Z.testbit m' i = if bool_decide (i = key - 0xE0) then press
                      else Z.testbit (Modifier (keysDownState u)) i) /\
  Keys (keysDownState r.1) = Keys (keysDownState u) /\
  fd r.1 = (fun evs => evs ++ [mkEvent EV_KEY code (if press then 1 else 0);
                               mkEvent EV_SYN SYN_REPORT 0]) <$> fd u /\
  onKeysDownChange r.1
    = (fun l => l ++ [keysDownState r.1]) <$> onKeysDownChange u /\
  lastUserInput r.1 = now.
Proof.
  intros Hk Hm Hl r m'.
  destruct (KeypressReport_modifier_fields key code press now u Hk)
    as (Hst & Hfd & Hcb & Hnow & _).
  destruct (hidModifierToLinux_spec key code Hk) as (Hkey & Hmask & _).
  fold r in Hst, Hfd, Hcb, Hnow. rewrite Hmask in Hst.
  assert (forall i, 0 <= i ->
     Z.testbit m' i = if bool_decide (i = key - 0xE0) then press
                      else Z.testbit (Modifier (keysDownState u)) i) as Hbits.
  { intros i Hi. subst m'. rewrite Hst. cbn [Modifier].
    destruct press.
    - rewrite Z.lor_spec, Z.pow2_bits_eqb by lia.
      case_bool_decide as E.
      + subst i. rewrite Z.eqb_refl. apply orb_true_r.
      + rewrite (proj2 (Z.eqb_neq _ _)) by lia. apply orb_false_r.
    - rewrite Z.ldiff_spec, Z.pow2_bits_eqb by lia.
      case_bool_decide as E.
      + subst i. rewrite Z.eqb_refl. apply andb_false_r.
      + rewrite (proj2 (Z.eqb_neq _ _)) by lia. apply andb_true_r. }
  assert (0 <= m') as Hnn.
  { subst m'. rewrite Hst. cbn [Modifier]. destruct press.
    - apply Z.lor_nonneg. split; [lia|]. apply Z.pow_nonneg. lia.
    - apply Z.ldiff_nonneg. left. lia. }
  split; [subst r; unfold KeypressReport; by rewrite Hk|].
  split; [lia|]. split; [|split; [done|split; [|done]]].
  - split; [done|]. apply byte_bits; [done|]. intros i Hi.
    rewrite Hbits by lia. rewrite bool_decide_eq_false_2 by lia.
    apply (proj1 (byte_bits _ (proj1 Hm))); [lia|done].
  - rewrite Hst. cbn [Keys]. by apply copy6_id.
Qed.

Lemma KeypressReport_modifier_witness :
  let u := mkUInputBackend (Some []) (Some []) 0 (mkKeysDownState 0 [4; 0; 0; 0; 0; 0])
             0 [] false in
  Keys (keysDownState (KeypressReport 0xE1 true 7 u).1) = [4; 0; 0; 0; 0; 0] /\
  Z.testbit (Modifier (keysDownState (KeypressReport 0xE1 true 7 u).1)) 1 = true.
Proof.
  intros u.
  destruct (KeypressReport_modifier 0xE1 KEY_LEFTSHIFT true 7 u)
    as (_ & _ & _ & Hbits & Hkeys & _); [reflexivity|cbn; lia|reflexivity|].
  split; [exact Hkeys|]. by rewrite Hbits by lia.
Defined.

(** The two loops over the slots. *)
Lemma place_length (key : Z) (ks : list Z) : length (place key ks) = length ks.
Proof.
  induction ks as [|k ks IH]; [done|]. cbn. destruct (k =? 0); cbn; by rewrite ?IH.
Qed.

Lemma unplace_length (key : Z) (ks : list Z) : length (unplace key ks) = length ks.
Proof.
  induction ks as [|k ks IH]; [done|]. cbn. destruct (k =? key); cbn; by rewrite ?IH.
Qed.

Lemma place_free (key : Z) (l1 l2 : list Z) :
  0 ∉ l1 -> place key (l1 ++ 0 :: l2) = l1 ++ key :: l2.
Proof.
  induction l1 as [|k l1 IH]; intros Hn; [done|].
  apply not_elem_of_cons in Hn as [Hk Hn]. cbn.
  rewrite (proj2 (Z.eqb_neq k 0)) by done. by rewrite IH.
Qed.

Lemma place_full (key : Z) (ks : list Z) : 0 ∉ ks -> place key ks = ks.
Proof.
  induction ks as [|k ks IH]; intros Hn; [done|].
  apply not_elem_of_cons in Hn as [Hk Hn]. cbn.
  rewrite (proj2 (Z.eqb_neq k 0)) by done. by rewrite IH.
Qed.

Lemma unplace_held (key : Z) (l1 l2 : list Z) :
  key ∉ l1 -> unplace key (l1 ++ key :: l2) = l1 ++ 0 :: l2.
Proof.
  induction l1 as [|k l1 IH]; intros Hn.
  - cbn. by rewrite Z.eqb_refl.
  - apply not_elem_of_cons in Hn as [Hk Hn]. cbn.
    rewrite (proj2 (Z.eqb_neq k key)) by done. by rewrite IH.
Qed.

Lemma unplace_absent (key : Z) (ks : list Z) : key ∉ ks -> unplace key ks = ks.
Proof.
  induction ks as [|k ks IH]; intros Hn; [done|].
  apply not_elem_of_cons in Hn as [Hk Hn]. cbn.
  rewrite (proj2 (Z.eqb_neq k key)) by done. by rewrite IH.
Qed.

(** A press and then a release of a key that was not down leave the slots
    as they were. *)
Lemma unplace_place (key : Z) (ks : list Z) :
  key <> 0 -> key ∉ ks -> unplace key (place key ks) = ks.
Proof.
  intros Hk. induction ks as [|k ks IH]; intros Hn; [done|].
  apply not_elem_of_cons in Hn as [Hne Hn]. cbn.
  destruct (Z.eqb_spec k 0) as [->|Hk0]; cbn.
  - by rewrite Z.eqb_refl.
  - rewrite (proj2 (Z.eqb_neq k key)) by done. by rewrite IH.
Qed.

(** X18. An ordinary key goes down: [KeypressReport] with a key of
    [hidToLinux] and [press] writes the press of its Linux code and a sync,
    and records the key in the first free slot, the other slots and the
    modifier byte untouched.  With no slot free (six keys down) the press
    is still written to the device but the record stays as it was. *)
Theorem KeypressReport_press
    (key code : Z) (now : Z) (u : UInputBackend) :
  hidToLinux !! key = Some code ->
  length (Keys (keysDownState u)) = 6%nat ->
  let r := KeypressReport key true now u in
  let ks := Keys (keysDownState u) in
  let ks' := Keys (keysDownState r.1) in
  r.2 = None /\
  Modifier (keysDownState r.1) = Modifier (keysDownState u) /\
  length ks' = 6%nat /\
  (forall l1 l2, ks = l1 ++ 0 :: l2 -> 0 ∉ l1 -> ks' = l1 ++ key :: l2) /\
  (0 ∉ ks -> ks' = ks) /\
  fd r.1 = (fun evs => evs ++ [mkEvent EV_KEY code 1;
                               mkEvent EV_SYN SYN_REPORT 0]) <$> fd u.
Proof.
  intros Hk Hl r ks ks'.
  destruct (KeypressReport_key_fields key code true now u Hk)
    as (Hst & Hfd & _).
  destruct (hidToLinux_spec key code Hk) as (_ & Hm & _).
  fold r in Hst, Hfd.
  assert (ks' = place key ks) as Hks.
  { subst ks'. rewrite Hst. cbn [Keys]. apply copy6_id. by rewrite place_length. }
  split; [subst r; unfold KeypressReport; by rewrite Hm, Hk|].
  split; [by rewrite Hst|]. split; [by rewrite Hks, place_length|].
  split; [|split; [|done]].
  - intros l1 l2 E Hn. rewrite Hks, E. by apply place_free.
  - intros Hn. rewrite Hks. by apply place_full.
Qed.

Lemma KeypressReport_press_witness :
  let u := mkUInputBackend (Some []) None 0 (mkKeysDownState 0 [4; 0; 5; 0; 0; 0])
             0 [] false in
  Keys (keysDownState (KeypressReport 6 true 1 u).1) = [4; 6; 5; 0; 0; 0].
Proof.
  intros u.
  destruct (KeypressReport_press 6 KEY_C 1 u)
    as (_ & _ & _ & Hfree & _); [reflexivity|reflexivity|].
  apply (Hfree [4] [5; 0; 0; 0]); [reflexivity|].
  intros Hin. apply elem_of_cons in Hin as [Hin|Hin];
    [discriminate Hin|by apply elem_of_nil in Hin].
Defined.

(** X19. An ordinary key goes up: [KeypressReport] with a key of
    [hidToLinux] and no [press] writes the release of its Linux code and a
    sync, and frees the first slot that holds the key, the other slots and
    the modifier byte untouched; a key that is in no slot leaves the record
    as it was.  A press followed by the release of a key that was not down
    restores the six slots. *)
Theorem KeypressReport_release
    (key code : Z) (now now' : Z) (u : UInputBackend) :
  hidToLinux !! key = Some code ->
  length (Keys (keysDownState u)) = 6%nat ->
  let r := KeypressReport key false now u in
  let ks := Keys (keysDownState u) in
  let ks' := Keys (keysDownState r.1) in
  r.2 = None /\
  Modifier (keysDownState r.1) = Modifier (keysDownState u) /\
  length ks' = 6%nat /\
  (forall l1 l2, ks = l1 ++ key :: l2 -> key ∉ l1 -> ks' = l1 ++ 0 :: l2) /\
  (key ∉ ks -> ks' = ks) /\
  fd r.1 = (fun evs => evs ++ [mkEvent EV_KEY code 0;
                               mkEvent EV_SYN SYN_REPORT 0]) <$> fd u /\
  (key ∉ ks ->
   keysDownState (KeypressReport key false now' (KeypressReport key true now u).1).1
   = keysDownState u).
Proof.
  intros Hk Hl r ks ks'.
  destruct (KeypressReport_key_fields key code false now u Hk)
    as (Hst & Hfd & _).
  destruct (hidToLinux_spec key code Hk) as (Hk0 & Hm & _).
  fold r in Hst, Hfd.
  assert (ks' = unplace key ks) as Hks.
  { subst ks'. rewrite Hst. cbn [Keys]. apply copy6_id. by rewrite unplace_length. }
  split; [subst r; unfold KeypressReport; by rewrite Hm, Hk|].
  split; [by rewrite Hst|]. split; [by rewrite Hks, unplace_length|].
  split; [|split; [|split; [done|]]].
  - intros l1 l2 E Hn. rewrite Hks, E. by apply unplace_held.
  - intros Hn. rewrite Hks. by apply unplace_absent.
  - intros Hn.
    destruct (KeypressReport_key_fields key code true now u Hk) as (Hst1 & _).
    destruct (KeypressReport_key_fields key code false now'
                (KeypressReport key true now u).1 Hk) as (Hst2 & _).
    rewrite Hst2, Hst1. cbn [Modifier Keys].
    rewrite (copy6_id (place key _)) by (by rewrite place_length).
    rewrite unplace_place by done.
    rewrite copy6_id by done. by destruct (keysDownState u).
Qed.

Lemma KeypressReport_release_witness :
  let u := mkUInputBackend (Some []) None 0 (mkKeysDownState 0 [4; 6; 5; 6; 0; 0])
             0 [] false in
  Keys (keysDownState (KeypressReport 6 false 1 u).1) = [4; 0; 5; 6; 0; 0].
Proof.
  intros u.
  destruct (KeypressReport_release 6 KEY_C 1 2 u)
    as (_ & _ & _ & Hheld & _); [reflexivity|reflexivity|].
  apply (Hheld [4] [5; 6; 0; 0]); [reflexivity|].
  intros Hin. apply elem_of_cons in Hin as [Hin|Hin];
    [discriminate Hin|by apply elem_of_nil in Hin].
Defined.

(** ** Whole frames *)

Lemma set_fd_set_fd x y (u : UInputBackend) : set_fd x (set_fd y u) = set_fd x u.
Proof. by destruct u. Qed.

Lemma set_fd_id (u : UInputBackend) : set_fd (fd u) u = u.
Proof. by destruct u. Qed.

(** A loop that writes at most one event per turn. *)
Lemma foldl_writeEvent {A} (body : UInputBackend -> A -> UInputBackend)
    (g : A -> option input_event) (l : list A) (u : UInputBackend) :
  (forall u x, body u x = match g x with
                          | Some ev => (writeEvent (ev_Type ev) (ev_Code ev)
                                          (ev_Value ev) u).1
                          | None => u
                          end) ->
  foldl body u l = set_fd ((fun evs => evs ++ omap g l) <$> fd u) u.
Proof.
  intros Hbody. revert u. induction l as [|x l IH]; intros u.
  - cbn. destruct u as [[evs|] ? ? ? ? ? ?]; cbn; rewrite ?app_nil_r; reflexivity.
  - cbn [foldl]. rewrite IH, Hbody.
    assert (omap g (x :: l)
            = match g x with Some y => y :: omap g l | None => omap g l end) as ->
      by reflexivity.
    destruct (g x) as [[t c v]|].
    + destruct u as [[evs|] ? ? ? ? ? ?]; unfold writeEvent, set_fd, send_if_open, send;
        cbn; rewrite <- ?app_assoc; reflexivity.
    + reflexivity.
Qed.

(** What [KeyboardReport] does. *)
Lemma KeyboardReport_fields (ord_mod ord_key : list (Z * Z)) (modifier : Z)
    (keys : list Z) (now : Z) (u : UInputBackend) :
  let r := (KeyboardReport ord_mod ord_key modifier keys now u).1 in
  keysDownState r = mkKeysDownState modifier (copy6 keys) /\
  fd r = (fun evs => evs ++ frame_events ord_mod ord_key modifier keys) <$> fd u /\
  onKeysDownChange r = (fun l => l ++ [keysDownState r]) <$> onKeysDownChange u /\
  lastUserInput r = now /\ ioctls r = ioctls u /\ closed r = closed u /\
  keyboardState r = keyboardState u.
Proof.
  cbn zeta. unfold KeyboardReport. cbn [fst].
  rewrite (foldl_writeEvent _ (fun e => Some (modifier_event modifier e)) ord_mod u)
    by (intros u' e; unfold modifier_event; cbn; by destruct (negb _)).
  rewrite (foldl_writeEvent _ (fun e => Some (release_event e)) ord_key) by done.
  rewrite (foldl_writeEvent _ press_event keys)
    by (intros u' hid; unfold press_event; destruct (hidToLinux !! hid); [|done];
        by destruct (negb _)).
  unfold frame_events.
  assert (forall {A} (f : A -> input_event) (l : list A),
            omap (fun e => Some (f e)) l = f <$> l)
    as Hmap by (intros A f l; induction l; cbn; by f_equal).
  rewrite !Hmap.
  destruct u as [[evs|] [l|] ? [m ks] ? ? ?]; cbn; unfold send;
    rewrite <- ?app_assoc; repeat split.
Qed.

Lemma updateKeysDown_fields (modifier : Z) (keys : list Z) (u : UInputBackend) :
  let r := (updateKeysDown modifier keys u).1 in
  keysDownState r = mkKeysDownState modifier (copy6 keys) /\
  fd r = fd u /\
  onKeysDownChange r = (fun l => l ++ [keysDownState r]) <$> onKeysDownChange u /\
  lastUserInput r = lastUserInput u /\ ioctls r = ioctls u /\ closed r = closed u /\
  keyboardState r = keyboardState u.
Proof. by destruct u as [? [l|] ? ? ? ? ?]. Qed.

(** What [KeypressReport] does with a key of neither map. *)
Lemma KeypressReport_unmapped (key : Z) (press : bool) (now : Z) (u : UInputBackend) :
  hidModifierToLinux !! key = None -> hidToLinux !! key = None ->
  KeypressReport key press now u = (u, None).
Proof. intros H1 H2. unfold KeypressReport. by rewrite H1, H2. Qed.

(** The record and the callback after a call: either nothing changed, or
    the record has six slots and was reported. *)
Lemma keyboard_step_record (c : keyboard_call) (u : UInputBackend) :
  let r := keyboard_step c u in
  (keysDownState r = keysDownState u /\ onKeysDownChange r = onKeysDownChange u) \/
  (length (Keys (keysDownState r)) = 6%nat /\
   onKeysDownChange r = (fun l => l ++ [keysDownState r]) <$> onKeysDownChange u).
Proof.
  destruct c as [key press now|ord_mod ord_key modifier keys now|modifier keys];
    cbn [keyboard_step].
  - destruct (hidModifierToLinux !! key) as [code|] eqn:Hm;
      [|destruct (hidToLinux !! key) as [code|] eqn:Hk].
    + destruct (KeypressReport_modifier_fields key code press now u Hm)
        as (Hst & _ & Hcb & _).
      right. split; [|done]. rewrite Hst. cbn. apply copy6_length.
    + destruct (KeypressReport_key_fields key code press now u Hk)
        as (Hst & _ & Hcb & _).
      right. split; [|done]. rewrite Hst. cbn. apply copy6_length.
    + left. by rewrite KeypressReport_unmapped.
  - destruct (KeyboardReport_fields ord_mod ord_key modifier keys now u)
      as (Hst & _ & Hcb & _).
    right. split; [|done]. rewrite Hst. cbn. apply copy6_length.
  - destruct (updateKeysDown_fields modifier keys u) as (Hst & _ & Hcb & _).
    right. split; [|done]. unfold UpdateKeysDown. rewrite Hst. cbn. apply copy6_length.
Qed.

(** The backend [NewUInputBackend] returns. *)
Lemma NewUInputBackend_fields opens answer (ord_key ord_mod : list (Z * Z)) now u0 :
  NewUInputBackend opens answer ord_key ord_mod now = (Some u0, None) ->
  fd u0 = Some [] /\ onKeysDownChange u0 = None /\ keyboardState u0 = 0 /\
  keysDownState u0 = mkKeysDownState 0 [0; 0; 0; 0; 0; 0] /\
  lastUserInput u0 = now /\ closed u0 = false /\
  ioctls u0 = [(UI_SET_EVBIT, EV_KEY)]
              ++ ((fun e => (UI_SET_KEYBIT, e.2)) <$> ord_key)
              ++ ((fun e => (UI_SET_KEYBIT, e.2)) <$> ord_mod)
              ++ [(UI_DEV_CREATE, 0)] /\
  opens = true /\ answer UI_SET_EVBIT EV_KEY = true /\ answer UI_DEV_CREATE 0 = true.
Proof.
  unfold NewUInputBackend. destruct opens; [|done]. cbn [negb].
  unfold ioctl at 1. cbn [fst snd].
  destruct (answer UI_SET_EVBIT EV_KEY); [|done].
  assert (forall (l : list (Z * Z)) u,
    foldl (fun u e => (ioctl answer UI_SET_KEYBIT e.2 u).1) u l
    = set_ioctls (ioctls u ++ ((fun e => (UI_SET_KEYBIT, e.2)) <$> l)) u) as Hloop.
  { intros l. induction l as [|e l IH]; intros u.
    - cbn. rewrite app_nil_r. by destruct u.
    - cbn [foldl]. rewrite IH. destruct u. cbn. unfold send.
      by rewrite <- app_assoc. }
  rewrite !Hloop. unfold ioctl. cbn [fst snd].
  destruct (answer UI_DEV_CREATE 0); [|done].
  intros [= <-]. cbn. unfold send. rewrite <- !app_assoc. repeat split.
Qed.

(** X20. The record of the keys that are down always has six slots, and
    every change of it is reported: after any calls of [KeypressReport],
    [KeyboardReport] (with any number of keys, in any order of the maps)
    and [UpdateKeysDown] on a backend that [NewUInputBackend] returned and
    that was given a callback, the slots are six, and either the callback
    was never called and the record is the initial one (no modifier, six
    empty slots), or the last state the callback was given is the
    record. *)
Theorem keys_down_record_is_reported
    opens answer (ord_key ord_mod : list (Z * Z)) now (u0 : UInputBackend)
    (cs : list keyboard_call) :
  NewUInputBackend opens answer ord_key ord_mod now = (Some u0, None) ->
  let u := keyboard_run cs (SetOnKeysDownChange u0) in
  length (Keys (keysDownState u)) = 6%nat /\
  exists l, onKeysDownChange u = Some l /\
    ((l = [] /\ keysDownState u = mkKeysDownState 0 [0; 0; 0; 0; 0; 0]) \/
     last l = Some (keysDownState u)).
Proof.
  intros Hnew. destruct (NewUInputBackend_fields _ _ _ _ _ _ Hnew)
    as (_ & _ & _ & Hst0 & _).
  cbn zeta.
  assert (length (Keys (keysDownState (SetOnKeysDownChange u0))) = 6%nat /\
    exists l, onKeysDownChange (SetOnKeysDownChange u0) = Some l /\
      ((l = [] /\ keysDownState (SetOnKeysDownChange u0)
                  = mkKeysDownState 0 [0; 0; 0; 0; 0; 0]) \/
       last l = Some (keysDownState (SetOnKeysDownChange u0)))) as Hinit.
  { destruct u0. cbn in *. subst. split; [done|]. exists []. split; [done|]. by left. }
  revert Hinit. generalize (SetOnKeysDownChange u0). clear.
  induction cs as [|c cs IH]; intros u Hu; [done|].
  cbn [keyboard_run foldl]. apply IH.
  destruct Hu as (Hlen & l & Hcb & Hl).
  destruct (keyboard_step_record c u) as [[-> ->]|[Hlen' Hcb']].
  - split; [done|]. by exists l.
  - split; [done|]. exists (l ++ [keysDownState (keyboard_step c u)]).
    split; [by rewrite Hcb', Hcb|]. right. by rewrite last_snoc.
Qed.

Lemma keys_down_record_is_reported_witness :
  let ord_key := map_to_list hidToLinux in
  let ord_mod := map_to_list hidModifierToLinux in
  let u0 := default (mkUInputBackend None None 0 (mkKeysDownState 0 []) 0 [] false)
              (NewUInputBackend true (fun _ _ => true) ord_key ord_mod 0).1 in
  length (Keys (keysDownState
    (keyboard_run [DoKeypress 4 true 1; DoUpdateKeysDown 2 [4; 5; 6; 7; 8; 9; 10; 11]]
       (SetOnKeysDownChange u0)))) = 6%nat.
Proof.
  intros ord_key ord_mod u0.
  apply (keys_down_record_is_reported true (fun _ _ => true) ord_key ord_mod 0 u0).
  reflexivity.
Defined.

(** ** Only registered codes are written *)

Lemma visits_lookup (ord : list (Z * Z)) (m : gmap Z Z) (e : Z * Z) :
  visits ord m -> (e ∈ ord <-> m !! e.1 = Some e.2).
Proof.
  unfold visits. intros Hv. rewrite Hv. destruct e as [k v]. apply elem_of_map_to_list.
Qed.

(** The events of a call: codes of the maps, and a sync at the end. *)
Lemma keyboard_step_events (codes : list Z) (c : keyboard_call) (u : UInputBackend) :
  (forall hid code, hidToLinux !! hid = Some code -> code ∈ codes) ->
  (forall hid code, hidModifierToLinux !! hid = Some code -> code ∈ codes) ->
  well_ordered c ->
  exists evs,
    fd (keyboard_step c u) = (fun l => l ++ evs) <$> fd u /\
    ioctls (keyboard_step c u) = ioctls u /\
    Forall (key_event_of codes) evs /\
    (evs = [] \/ last evs = Some (mkEvent EV_SYN SYN_REPORT 0)).
Proof.
  intros Hkeys Hmods Hc.
  assert (key_event_of codes (mkEvent EV_SYN SYN_REPORT 0)) as Hsyn by (by left).
  assert (forall (l : option (list input_event)), l = (fun l => l ++ []) <$> l) as Hnil.
  { intros [l|]; cbn; by rewrite ?app_nil_r. }
  destruct c as [key press now|om ok modifier keys now|modifier keys];
    cbn [keyboard_step].
  - destruct (hidModifierToLinux !! key) as [code|] eqn:Hm;
      [|destruct (hidToLinux !! key) as [code|] eqn:Hk].
    + destruct (KeypressReport_modifier_fields key code press now u Hm)
        as (_ & Hfd & _ & _ & Hio & _).
      eexists. split; [exact Hfd|]. split; [done|]. split; [|by right].
      apply Forall_cons. split; [|by apply Forall_singleton].
      right. split; [done|]. split; [by eapply Hmods|]. cbn. destruct press; tauto.
    + destruct (KeypressReport_key_fields key code press now u Hk)
        as (_ & Hfd & _ & _ & Hio & _).
      eexists. split; [exact Hfd|]. split; [done|]. split; [|by right].
      apply Forall_cons. split; [|by apply Forall_singleton].
      right. split; [done|]. split; [by eapply Hkeys|]. cbn. destruct press; tauto.
    + rewrite KeypressReport_unmapped by done. exists []. cbn [fst].
      split; [apply Hnil|]. split; [done|]. split; [done|by left].
  - destruct (KeyboardReport_fields om ok modifier keys now u)
      as (_ & Hfd & _ & _ & Hio & _).
    destruct Hc as [Hom Hok].
    eexists. split; [exact Hfd|]. split; [done|]. split.
    + unfold frame_events. rewrite !Forall_app. split; [|split; [|split]].
      * apply Forall_fmap, Forall_forall. intros e He.
        apply (visits_lookup _ _ _ Hom) in He.
        destruct (hidModifierToLinux_spec _ _ He) as (_ & _ & Hu & _).
        right. unfold modifier_event. cbn. rewrite Hu.
        split; [done|]. split; [by eapply Hmods|]. destruct (negb _); tauto.
      * apply Forall_fmap, Forall_forall. intros e He.
        apply (visits_lookup _ _ _ Hok) in He.
        destruct (hidToLinux_spec _ _ He) as (_ & _ & Hu & _).
        right. unfold release_event. cbn. rewrite Hu.
        split; [done|]. split; [by eapply Hkeys|]. tauto.
      * apply Forall_forall. intros ev Hev.
        apply list_elem_of_omap in Hev as (hid & _ & Hev).
        unfold press_event in Hev.
        destruct (hidToLinux !! hid) as [code|] eqn:Hk; [|done].
        destruct (negb _); [|done]. injection Hev as <-.
        destruct (hidToLinux_spec _ _ Hk) as (_ & _ & Hu & _).
        right. cbn. rewrite Hu. split; [done|]. split; [by eapply Hkeys|]. tauto.
      * by apply Forall_singleton.
    + right. unfold frame_events. by rewrite !app_assoc, last_snoc.
  - destruct (updateKeysDown_fields modifier keys u) as (_ & Hfd & _ & _ & Hio & _).
    exists []. unfold UpdateKeysDown. rewrite Hfd, Hio.
    split; [apply Hnil|]. split; [done|]. split; [done|by left].
Qed.

Lemma registered_NewUInputBackend opens answer (ord_key ord_mod : list (Z * Z))
    now u0 :
  NewUInputBackend opens answer ord_key ord_mod now = (Some u0, None) ->
  registered u0 = ord_key.*2 ++ ord_mod.*2.
Proof.
  intros Hnew. destruct (NewUInputBackend_fields _ _ _ _ _ _ Hnew)
    as (_ & _ & _ & _ & _ & _ & Hio & _).
  unfold registered. rewrite Hio, !omap_app.
  assert (forall l : list (Z * Z),
    omap (fun r : Z * Z => if r.1 =? UI_SET_KEYBIT then Some r.2 else None)
      ((fun e : Z * Z => (UI_SET_KEYBIT, e.2)) <$> l) = l.*2) as Hl.
  { intros l. induction l as [|e l IH]; [done|]. cbn. by rewrite IH. }
  rewrite !Hl. cbn. by rewrite app_nil_r.
Qed.

(** X21. Only registered keys are injected: on a backend that
    [NewUInputBackend] returned, whatever calls of [KeypressReport],
    [KeyboardReport] and [UpdateKeysDown] follow, every event written to
    the device is a sync or the press (1) or release (0) of a key code that
    was registered with [UI_SET_KEYBIT] at creation, and what was written
    ends with a sync; the codes registered are those of the two maps. *)
Theorem written_events_are_registered
    opens answer (ord_key ord_mod : list (Z * Z)) now (u0 : UInputBackend)
    (cs : list keyboard_call) :
  NewUInputBackend opens answer ord_key ord_mod now = (Some u0, None) ->
  visits ord_key hidToLinux -> visits ord_mod hidModifierToLinux ->
  Forall well_ordered cs ->
  let u := keyboard_run cs u0 in
  registered u = ord_key.*2 ++ ord_mod.*2 /\
  is_Some (fd u) /\
  Forall (key_event_of (registered u)) (written u) /\
  (written u = [] \/ last (written u) = Some (mkEvent EV_SYN SYN_REPORT 0)).
Proof.
  intros Hnew Hok Hom Hcs. cbn zeta.
  pose proof (registered_NewUInputBackend _ _ _ _ _ _ Hnew) as Hreg.
  destruct (NewUInputBackend_fields _ _ _ _ _ _ Hnew) as (Hfd0 & _).
  set (codes := ord_key.*2 ++ ord_mod.*2) in *.
  assert (forall hid code, hidToLinux !! hid = Some code -> code ∈ codes) as Hk.
  { intros hid code Hl. apply elem_of_app. left.
    apply list_elem_of_fmap. exists (hid, code). split; [done|].
    by apply (visits_lookup _ _ (hid, code) Hok). }
  assert (forall hid code, hidModifierToLinux !! hid = Some code -> code ∈ codes) as Hm.
  { intros hid code Hl. apply elem_of_app. right.
    apply list_elem_of_fmap. exists (hid, code). split; [done|].
    by apply (visits_lookup _ _ (hid, code) Hom). }
  assert (registered u0 = codes /\ exists evs, fd u0 = Some evs /\
          Forall (key_event_of codes) evs /\
          (evs = [] \/ last evs = Some (mkEvent EV_SYN SYN_REPORT 0))) as Hinit.
  { split; [done|]. exists []. split; [done|]. split; [done|by left]. }
  clear Hreg Hfd0 Hnew. revert Hinit. generalize u0. clear u0.
  induction Hcs as [|c cs Hc Hcs IH]; intros u (Hreg & evs & Hfd & Hall & Hlast).
  - cbn. unfold written. rewrite Hreg, Hfd. cbn. by split; [|split; [eexists|]].
  - cbn [keyboard_run foldl]. apply IH.
    destruct (keyboard_step_events codes c u Hk Hm Hc) as (evs' & Hfd' & Hio & Hall' & Hl').
    split; [unfold registered in *; by rewrite Hio|].
    exists (evs ++ evs'). split; [by rewrite Hfd', Hfd|].
    split; [by apply Forall_app|].
    destruct Hl' as [->|Hl']; [by rewrite app_nil_r|].
    right. destruct evs' as [|e evs'] using rev_ind; [done|].
    rewrite last_snoc in Hl'. rewrite app_assoc, last_snoc. done.
Qed.

Lemma written_events_are_registered_witness :
  let ord_key := map_to_list hidToLinux in
  let ord_mod := map_to_list hidModifierToLinux in
  let u0 := default (mkUInputBackend None None 0 (mkKeysDownState 0 []) 0 [] false)
              (NewUInputBackend true (fun _ _ => true) ord_key ord_mod 0).1 in
  let u := keyboard_run [DoKeypress 0xE0 true 1; DoKeypress 4 true 2;
                         DoKeyboard ord_mod ord_key 0 [] 3] u0 in
  written u = [] \/ last (written u) = Some (mkEvent EV_SYN SYN_REPORT 0).
Proof.
  intros ord_key ord_mod u0 u.
  apply (written_events_are_registered true (fun _ _ => true) ord_key ord_mod 0 u0
           [DoKeypress 0xE0 true 1; DoKeypress 4 true 2;
            DoKeyboard ord_mod ord_key 0 [] 3]).
  - reflexivity.
  - unfold visits. reflexivity.
  - unfold visits. reflexivity.
  - repeat constructor; unfold visits; reflexivity.
Defined.

(** ** What the kernel holds down *)

Lemma keys_after_app (a b : list input_event) (s : gset Z) :
  keys_after (a ++ b) s = keys_after b (keys_after a s).
Proof. unfold keys_after. by rewrite foldl_app. Qed.

Lemma key_after_elem (c : Z) (ev : input_event) (s : gset Z) :
  c ∈ key_after s ev <->
  if (ev_Type ev =? EV_KEY) && (ev_Code ev =? c)
  then ev_Value ev <> 0 else c ∈ s.
Proof.
  unfold key_after. destruct (ev_Type ev =? EV_KEY); [|done]. cbn [andb].
  destruct (Z.eqb_spec (ev_Code ev) c) as [Hc|Hne];
    destruct (Z.eqb_spec (ev_Value ev) 0) as [Hv|Hv];
    rewrite ?elem_of_difference, ?elem_of_union, ?elem_of_singleton;
    intuition congruence.
Qed.

(** Events for other codes leave a code as it is. *)
Lemma keys_after_other (c : Z) (evs : list input_event) (s : gset Z) :
  Forall (fun ev => ev_Type ev = EV_KEY -> ev_Code ev <> c) evs ->
  (c ∈ keys_after evs s <-> c ∈ s).
Proof.
  intros Hall. revert s. induction Hall as [|ev evs Hev Hall IH]; intros s; [done|].
  cbn [keys_after foldl]. fold (keys_after evs (key_after s ev)). rewrite IH.
  rewrite key_after_elem.
  destruct (Z.eqb_spec (ev_Type ev) EV_KEY) as [Ht|Ht]; [|done]. cbn [andb].
  destruct (Z.eqb_spec (ev_Code ev) c) as [Hc|Hc]; [|done]. by destruct (Hev Ht).
Qed.

(** One event for a code among events for other codes decides the code. *)
Lemma keys_after_one (c v : Z) (evs1 evs2 : list input_event) (s : gset Z) :
  Forall (fun ev => ev_Type ev = EV_KEY -> ev_Code ev <> c) evs2 ->
  (c ∈ keys_after (evs1 ++ mkEvent EV_KEY c v :: evs2) s <-> v <> 0).
Proof.
  intros Hall. rewrite keys_after_app. cbn [keys_after foldl].
  fold (keys_after evs2 (key_after (keys_after evs1 s) (mkEvent EV_KEY c v))).
  rewrite keys_after_other by done. rewrite key_after_elem. cbn.
  by rewrite Z.eqb_refl.
Qed.

Lemma land_pow2_testbit (m b : Z) :
  0 <= b -> negb (Z.land m (2 ^ b) =? 0) = Z.testbit m b.
Proof.
  intros Hb. destruct (Z.testbit m b) eqn:Hbit.
  - apply negb_true_iff, Z.eqb_neq. intros H0.
    assert (Z.testbit (Z.land m (2 ^ b)) b = true) as Ht
      by (by rewrite Z.land_spec, Hbit, Z.pow2_bits_true).
    rewrite H0, Z.bits_0 in Ht. done.
  - apply negb_false_iff, Z.eqb_eq, Z.bits_inj'. intros i Hi.
    rewrite Z.land_spec, Z.bits_0, Z.pow2_bits_eqb by done.
    destruct (Z.eqb_spec b i) as [<-|]; [by rewrite Hbit|apply andb_false_r].
Qed.

Lemma NoDup_snd_inj {A B} (l : list (A * B)) (a1 a2 : A) (b : B) :
  NoDup l.*2 -> (a1, b) ∈ l -> (a2, b) ∈ l -> a1 = a2.
Proof.
  induction l as [|[a b'] l IH]; intros Hnd H1 H2.
  { by apply elem_of_nil in H1. }
  cbn in Hnd. apply NoDup_cons in Hnd as [Hnin Hnd].
  apply elem_of_cons in H1 as [H1|H1]; apply elem_of_cons in H2 as [H2|H2].
  - congruence.
  - destruct Hnin. apply list_elem_of_fmap. exists (a2, b).
    split; [cbn; congruence|done].
  - destruct Hnin. apply list_elem_of_fmap. exists (a1, b).
    split; [cbn; congruence|done].
  - by apply IH.
Qed.

(** Two keys with one code are one. *)
Lemma hidToLinux_inj (k1 k2 code : Z) :
  hidToLinux !! k1 = Some code -> hidToLinux !! k2 = Some code -> k1 = k2.
Proof.
  intros H1 H2. apply elem_of_map_to_list in H1, H2.
  apply (NoDup_snd_inj (map_to_list hidToLinux) k1 k2 code); [|done|done].
  apply (bool_decide_unpack _). vm_compute. exact I.
Qed.

(** The events of a frame, by the code they name. *)
Lemma frame_events_modifier (ord_mod ord_key : list (Z * Z)) (modifier : Z)
    (keys : list Z) (hid code : Z) (s : gset Z) :
  visits ord_mod hidModifierToLinux -> visits ord_key hidToLinux ->
  hidModifierToLinux !! hid = Some code ->
  (code ∈ keys_after (frame_events ord_mod ord_key modifier keys) s
   <-> Z.testbit modifier (hid - 0xE0) = true).
Proof.
  intros Hom Hok Hm.
  destruct (hidModifierToLinux_spec hid code Hm) as (Hr & Hmask & Hu & _).
  assert ((hid, code) ∈ ord_mod) as Hin by (by apply (visits_lookup _ _ (hid, code) Hom)).
  apply list_elem_of_split in Hin as (l1 & l2 & ->).
  assert (NoDup (l1 ++ (hid, code) :: l2)) as Hnd.
  { unfold visits in Hom. rewrite Hom. apply NoDup_map_to_list. }
  unfold frame_events. rewrite fmap_app, fmap_cons, <- !app_assoc.
  cbn [app]. unfold modifier_event at 2. cbn [fst snd]. rewrite Hu, Hmask.
  rewrite keys_after_one.
  - rewrite land_pow2_testbit by lia. by destruct (Z.testbit _ _).
  - rewrite !Forall_app. split; [|split; [|split]].
    + apply Forall_fmap, Forall_forall. intros [h c] He _. cbn. intros Hc.
      assert ((h, c) ∈ l1 ++ (hid, code) :: l2) as He'
        by (apply elem_of_app; right; by apply elem_of_cons; right).
      apply (visits_lookup _ _ (h, c) Hom) in He'. cbn in He'.
      destruct (hidModifierToLinux_spec h c He') as (_ & _ & Hu' & _).
      rewrite Hu' in Hc. subst c.
      pose proof (hidModifierToLinux_inj _ _ _ He' Hm) as ->.
      apply NoDup_app in Hnd as (_ & _ & Hnd). apply NoDup_cons in Hnd as [Hnin _].
      done.
    + apply Forall_fmap, Forall_forall. intros [h c] He _. cbn. intros Hc.
      apply (visits_lookup _ _ (h, c) Hok) in He. cbn in He.
      destruct (hidToLinux_spec h c He) as (_ & _ & Hu' & Hno).
      rewrite Hu' in Hc. subst c. by eapply Hno.
    + apply Forall_forall. intros ev Hev _.
      apply list_elem_of_omap in Hev as (h & _ & Hev). unfold press_event in Hev.
      destruct (hidToLinux !! h) as [c|] eqn:Hk; [|done].
      destruct (negb _); [|done]. injection Hev as <-. cbn.
      destruct (hidToLinux_spec h c Hk) as (_ & _ & Hu' & Hno).
      rewrite Hu'. intros ->. by eapply Hno.
    + by apply Forall_singleton.
Qed.

(** Presses only add codes. *)
Lemma keys_after_presses (c : Z) (evs : list input_event) (s : gset Z) :
  Forall (fun ev => ev_Type ev = EV_KEY /\ ev_Value ev <> 0) evs ->
  (c ∈ keys_after evs s <-> c ∈ s \/ exists ev, ev ∈ evs /\ ev_Code ev = c).
Proof.
  intros Hall. revert s. induction Hall as [|ev evs [Ht Hv] Hall IH]; intros s.
  - cbn. split; [by left|]. intros [?|(ev & Hev & _)]; [done|].
    by apply elem_of_nil in Hev.
  - cbn [keys_after foldl]. fold (keys_after evs (key_after s ev)). rewrite IH.
    rewrite key_after_elem, Ht. change (EV_KEY =? EV_KEY) with true. cbn [andb].
    destruct (Z.eqb_spec (ev_Code ev) c) as [Hc|Hc].
    + split; [|tauto]. intros _. right. exists ev. split; [by left|done].
    + split.
      * intros [?|(ev' & Hev' & Hc')]; [by left|].
        right. exists ev'. split; [by right|done].
      * intros [?|(ev' & Hev' & Hc')]; [by left|].
        apply elem_of_cons in Hev' as [->|Hev']; [done|]. right. by exists ev'.
Qed.

Lemma frame_events_key (ord_mod ord_key : list (Z * Z)) (modifier : Z)
    (keys : list Z) (hid code : Z) (s : gset Z) :
  visits ord_mod hidModifierToLinux -> visits ord_key hidToLinux ->
  hidToLinux !! hid = Some code ->
  (code ∈ keys_after (frame_events ord_mod ord_key modifier keys) s <-> hid ∈ keys).
Proof.
  intros Hom Hok Hk.
  destruct (hidToLinux_spec hid code Hk) as (Hk0 & _ & Hu & _).
  unfold frame_events. rewrite !keys_after_app.
  set (s1 := keys_after (modifier_event modifier <$> ord_mod) s).
  assert (code ∉ keys_after (release_event <$> ord_key) s1) as Hrel.
  { assert ((hid, code) ∈ ord_key) as Hin
      by (by apply (visits_lookup _ _ (hid, code) Hok)).
    apply list_elem_of_split in Hin as (l1 & l2 & E).
    assert (NoDup (l1 ++ (hid, code) :: l2)) as Hnd.
    { rewrite <- E. unfold visits in Hok. rewrite Hok. apply NoDup_map_to_list. }
    rewrite E, fmap_app, fmap_cons. unfold release_event at 2. cbn [snd]. rewrite Hu.
    rewrite keys_after_one; [tauto|].
    apply Forall_fmap, Forall_forall. intros [h c] He _. cbn. intros Hc.
    assert ((h, c) ∈ ord_key) as He'
      by (rewrite E; apply elem_of_app; right; by apply elem_of_cons; right).
    apply (visits_lookup _ _ (h, c) Hok) in He'. cbn in He'.
    destruct (hidToLinux_spec h c He') as (_ & _ & Hu' & _).
    rewrite Hu' in Hc. subst c.
    pose proof (hidToLinux_inj _ _ _ He' Hk) as ->.
    apply NoDup_app in Hnd as (_ & _ & Hnd). apply NoDup_cons in Hnd as [Hnin _].
    done. }
  set (s2 := keys_after (release_event <$> ord_key) s1) in *.
  cbn [keys_after foldl].
  rewrite key_after_elem. cbn [ev_Type]. change (EV_SYN =? EV_KEY) with false.
  cbn [andb]. fold (keys_after (omap press_event keys) s2).
  rewrite keys_after_presses.
  - split.
    + intros [?|(ev & Hev & Hc)]; [done|].
      apply list_elem_of_omap in Hev as (h & Hh & Hev). unfold press_event in Hev.
      destruct (hidToLinux !! h) as [c|] eqn:Hh'; [|done].
      destruct (negb _); [|done]. injection Hev as <-. cbn in Hc.
      destruct (hidToLinux_spec h c Hh') as (_ & _ & Hu' & _).
      rewrite Hu' in Hc. subst c. by rewrite <- (hidToLinux_inj _ _ _ Hh' Hk).
    + intros Hin. right. exists (mkEvent EV_KEY code 1). split; [|done].
      apply list_elem_of_omap. exists hid. split; [done|].
      unfold press_event. rewrite Hk, Hu.
      by rewrite (proj2 (Z.eqb_neq hid 0)) by done.
  - apply Forall_forall. intros ev Hev.
    apply list_elem_of_omap in Hev as (h & _ & Hev). unfold press_event in Hev.
    destruct (hidToLinux !! h) as [c|]; [|done].
    destruct (negb _); [|done]. by injection Hev as <-.
Qed.

Lemma frame_events_other (ord_mod ord_key : list (Z * Z)) (modifier : Z)
    (keys : list Z) (c : Z) (s : gset Z) :
  visits ord_mod hidModifierToLinux -> visits ord_key hidToLinux ->
  (forall hid, hidToLinux !! hid <> Some c) ->
  (forall hid, hidModifierToLinux !! hid <> Some c) ->
  (c ∈ keys_after (frame_events ord_mod ord_key modifier keys) s <-> c ∈ s).
Proof.
  intros Hom Hok Hnk Hnm. apply keys_after_other.
  unfold frame_events. rewrite !Forall_app. split; [|split; [|split]].
  - apply Forall_fmap, Forall_forall. intros [h c'] He _. cbn. intros Hc.
    apply (visits_lookup _ _ (h, c') Hom) in He. cbn in He.
    destruct (hidModifierToLinux_spec h c' He) as (_ & _ & Hu' & _).
    rewrite Hu' in Hc. subst c'. by apply (Hnm h).
  - apply Forall_fmap, Forall_forall. intros [h c'] He _. cbn. intros Hc.
    apply (visits_lookup _ _ (h, c') Hok) in He. cbn in He.
    destruct (hidToLinux_spec h c' He) as (_ & _ & Hu' & _).
    rewrite Hu' in Hc. subst c'. by apply (Hnk h).
  - apply Forall_forall. intros ev Hev _.
    apply list_elem_of_omap in Hev as (h & _ & Hev). unfold press_event in Hev.
    destruct (hidToLinux !! h) as [c'|] eqn:Hk; [|done].
    destruct (negb _); [|done]. injection Hev as <-. cbn.
    destruct (hidToLinux_spec h c' Hk) as (_ & _ & Hu' & _).
    rewrite Hu'. intros ->. by apply (Hnk h).
  - by apply Forall_singleton.
Qed.

(** X22. What a frame leaves down: after [KeyboardReport], whatever the
    order in which the two maps are visited and whatever was down before,
    the code of a key of [hidToLinux] is down exactly when the key is among
    [keys] (at any position, also beyond the sixth), the code of a modifier
    exactly when its bit is set in [modifier], and every other code is as
    it was; the record holds [modifier] and the first six of [keys], the
    missing ones zero. *)
Theorem KeyboardReport_frame
    (ord_mod ord_key : list (Z * Z)) (modifier : Z) (keys : list Z) (now : Z)
    (u : UInputBackend) (evs : list input_event) :
  visits ord_mod hidModifierToLinux -> visits ord_key hidToLinux ->
  fd u = Some evs ->
  let r := KeyboardReport ord_mod ord_key modifier keys now u in
  r.2 = None /\
  keysDownState r.1 = mkKeysDownState modifier (take 6 keys ++ replicate (6 - length keys) 0) /\
  exists frame, fd r.1 = Some (evs ++ frame) /\
    forall down : gset Z,
      (forall hid code, hidToLinux !! hid = Some code ->
         (code ∈ keys_after frame down <-> hid ∈ keys)) /\
      (forall hid code, hidModifierToLinux !! hid = Some code ->
         (code ∈ keys_after frame down <-> Z.testbit modifier (hid - 0xE0) = true)) /\
      (forall c, (forall hid, hidToLinux !! hid <> Some c) ->
                 (forall hid, hidModifierToLinux !! hid <> Some c) ->
         (c ∈ keys_after frame down <-> c ∈ down)).
Proof.
  intros Hom Hok Hfd r.
  destruct (KeyboardReport_fields ord_mod ord_key modifier keys now u)
    as (Hst & Hfd' & _).
  fold r in Hst, Hfd'. split; [done|]. split; [done|].
  exists (frame_events ord_mod ord_key modifier keys).
  split; [by rewrite Hfd', Hfd|]. intros down. split; [|split].
  - intros hid code Hk. by apply frame_events_key.
  - intros hid code Hm. by apply frame_events_modifier.
  - intros c Hnk Hnm. by apply frame_events_other.
Qed.

Lemma KeyboardReport_frame_witness :
  let ord_mod := map_to_list hidModifierToLinux in
  let ord_key := map_to_list hidToLinux in
  let u := mkUInputBackend (Some []) None 0 (mkKeysDownState 0 [0; 0; 0; 0; 0; 0])
             0 [] false in
  keysDownState (KeyboardReport ord_mod ord_key 2 [4; 5; 6; 7; 8; 9; 10] 1 u).1
  = mkKeysDownState 2 [4; 5; 6; 7; 8; 9].
Proof.
  intros ord_mod ord_key u.
  destruct (KeyboardReport_frame ord_mod ord_key 2 [4; 5; 6; 7; 8; 9; 10] 1 u [])
    as (_ & Hst & _); [unfold visits; reflexivity|unfold visits; reflexivity|
                       reflexivity|].
  exact Hst.
Defined.

(** ** The modifier byte and the device *)

Lemma modifier_bits (m b i : Z) (press : bool) :
  0 <= b -> 0 <= i ->
  Z.testbit (if press then Z.lor m (2 ^ b) else Z.ldiff m (2 ^ b)) i
  = if bool_decide (i = b) then press else Z.testbit m i.
Proof.
  intros Hb Hi. destruct press.
  - rewrite Z.lor_spec, Z.pow2_bits_eqb by lia. case_bool_decide as E.
    + subst i. rewrite Z.eqb_refl. apply orb_true_r.
    + rewrite (proj2 (Z.eqb_neq _ _)) by lia. apply orb_false_r.
  - rewrite Z.ldiff_spec, Z.pow2_bits_eqb by lia. case_bool_decide as E.
    + subst i. rewrite Z.eqb_refl. apply andb_false_r.
    + rewrite (proj2 (Z.eqb_neq _ _)) by lia. apply andb_true_r.
Qed.

(** The modifier byte says which modifier codes are down. *)
Lemma mirror_step (c : keyboard_call) (u : UInputBackend) (evs : list input_event) :
  injects c -> fd u = Some evs ->
  (forall hid code, hidModifierToLinux !! hid = Some code ->
     (code ∈ keys_after evs ∅
      <-> Z.testbit (Modifier (keysDownState u)) (hid - 0xE0) = true)) ->
  exists evs', fd (keyboard_step c u) = Some evs' /\
    forall hid code, hidModifierToLinux !! hid = Some code ->
      (code ∈ keys_after evs' ∅
       <-> Z.testbit (Modifier (keysDownState (keyboard_step c u))) (hid - 0xE0) = true).
Proof.
  intros Hc Hfd Hinv.
  destruct c as [key press now|om ok modifier keys now|modifier keys];
    cbn [keyboard_step]; [| |done].
  - destruct (hidModifierToLinux !! key) as [ck|] eqn:Hm;
      [|destruct (hidToLinux !! key) as [ck|] eqn:Hk].
    + destruct (KeypressReport_modifier_fields key ck press now u Hm)
        as (Hst & Hfd' & _).
      destruct (hidModifierToLinux_spec key ck Hm) as (Hr & Hmask & _).
      rewrite Hmask in Hst. rewrite Hfd in Hfd'. cbn in Hfd'.
      eexists. split; [exact Hfd'|]. intros hid code Hh.
      destruct (hidModifierToLinux_spec hid code Hh) as (Hr' & _).
      rewrite Hst. cbn [Modifier]. rewrite modifier_bits by lia.
      destruct (Z.eq_dec hid key) as [->|Hne].
      * assert (code = ck) as -> by congruence.
        rewrite bool_decide_eq_true_2 by done.
        rewrite keys_after_one.
        -- by destruct press.
        -- apply Forall_singleton. intros Ht. discriminate Ht.
      * rewrite bool_decide_eq_false_2 by lia. rewrite <- Hinv by done.
        rewrite keys_after_app. apply keys_after_other.
        apply Forall_cons. split; [|apply Forall_singleton; intros Ht; discriminate Ht].
        cbn. intros _ ->. by destruct Hne; eapply hidModifierToLinux_inj.
    + destruct (KeypressReport_key_fields key ck press now u Hk)
        as (Hst & Hfd' & _).
      destruct (hidToLinux_spec key ck Hk) as (_ & _ & _ & Hno).
      rewrite Hfd in Hfd'. cbn in Hfd'.
      eexists. split; [exact Hfd'|]. intros hid code Hh.
      rewrite Hst. cbn [Modifier]. rewrite <- Hinv by done.
      rewrite keys_after_app. apply keys_after_other.
      apply Forall_cons. split; [|apply Forall_singleton; intros Ht; discriminate Ht].
      cbn. intros _ ->. by eapply Hno.
    + rewrite KeypressReport_unmapped by done. by exists evs.
  - destruct Hc as [Hom Hok].
    destruct (KeyboardReport_fields om ok modifier keys now u) as (Hst & Hfd' & _).
    rewrite Hfd in Hfd'. cbn in Hfd'.
    eexists. split; [exact Hfd'|]. intros hid code Hh.
    rewrite Hst. cbn [Modifier]. rewrite keys_after_app.
    by apply frame_events_modifier.
Qed.

(** X23. The modifier byte mirrors the device: on a backend that
    [NewUInputBackend] returned, after any calls of [KeypressReport] and
    [KeyboardReport] (in any order of the maps), the Linux code of a
    modifier is down on the device, by the events written so far, exactly
    when the bit of the modifier is set in the modifier byte of the
    record. *)
Theorem modifier_byte_mirrors_device
    opens answer (ord_key ord_mod : list (Z * Z)) now (u0 : UInputBackend)
    (cs : list keyboard_call) :
  NewUInputBackend opens answer ord_key ord_mod now = (Some u0, None) ->
  Forall injects cs ->
  let u := keyboard_run cs u0 in
  forall hid code, hidModifierToLinux !! hid = Some code ->
    (code ∈ keys_after (written u) ∅
     <-> Z.testbit (Modifier (keysDownState u)) (hid - 0xE0) = true).
Proof.
  intros Hnew Hcs. cbn zeta.
  destruct (NewUInputBackend_fields _ _ _ _ _ _ Hnew) as (Hfd0 & _ & _ & Hst0 & _).
  assert (exists evs, fd u0 = Some evs /\
    forall hid code, hidModifierToLinux !! hid = Some code ->
      (code ∈ keys_after evs ∅
       <-> Z.testbit (Modifier (keysDownState u0)) (hid - 0xE0) = true)) as Hinit.
  { exists []. split; [done|]. intros hid code _. rewrite Hst0. cbn.
    rewrite Z.bits_0. split; [|done]. intros Hin. by apply elem_of_empty in Hin. }
  clear Hnew Hfd0 Hst0. revert Hinit. generalize u0. clear u0.
  induction Hcs as [|c cs Hc Hcs IH]; intros u (evs & Hfd & Hinv).
  - cbn. unfold written. by rewrite Hfd.
  - cbn [keyboard_run foldl]. apply IH. by eapply mirror_step.
Qed.

Lemma modifier_byte_mirrors_device_witness :
  let ord_key := map_to_list hidToLinux in
  let ord_mod := map_to_list hidModifierToLinux in
  let u0 := default (mkUInputBackend None None 0 (mkKeysDownState 0 []) 0 [] false)
              (NewUInputBackend true (fun _ _ => true) ord_key ord_mod 0).1 in
  let u := keyboard_run [DoKeypress 0xE1 true 1; DoKeypress 4 true 2;
                         DoKeypress 0xE0 true 3; DoKeypress 0xE1 false 4] u0 in
  KEY_LEFTCTRL ∈ keys_after (written u) ∅.
Proof.
  intros ord_key ord_mod u0 u.
  apply (modifier_byte_mirrors_device true (fun _ _ => true) ord_key ord_mod 0 u0
           [DoKeypress 0xE1 true 1; DoKeypress 4 true 2;
            DoKeypress 0xE0 true 3; DoKeypress 0xE1 false 4]
           eq_refl ltac:(repeat constructor) 0xE0 KEY_LEFTCTRL eq_refl).
  reflexivity.
Defined.

(* ===================================================================== *)
(** * Properties of the ATX control *)
(* ===================================================================== *)

Example ReadString_lines_example :
  ReadString_lines EmptyString
    (String "0" (String "1" (String "010"%char (String "x" (String "010"%char
      (String "1" EmptyString))))))
  = [String "0" (String "1" (String "010"%char EmptyString));
     String "x" (String "010"%char EmptyString)].
Proof. reflexivity. Qed.

(** What one line does to the variables. *)
Lemma runATXControl_line_fields (line : string) (a : ATXControl) :
  let a' := runATXControl_line line a in
  if bool_decide (String.length line = 5%nat)
  then atx_vars a' = atx_states line /\
       currentSession a'
       = send_if_open (mkATXState (atx_states line).1.1.2 (atx_states line).1.1.1)
           (currentSession a) /\
       filter is_status_changed (scopedLogger a')
       = filter is_status_changed (scopedLogger a)
         ++ (if bool_decide (atx_states line = atx_vars a) then []
             else [StatusChanged (atx_states line).1.1.1 (atx_states line).1.1.2
                     (atx_states line).1.2 (atx_states line).2])
  else atx_vars a' = atx_vars a /\ currentSession a' = currentSession a /\
       filter is_status_changed (scopedLogger a')
       = filter is_status_changed (scopedLogger a).
Proof.
  cbn zeta. unfold runATXControl_line, atx_vars, atx_states.
  case_bool_decide as Hlen.
  - rewrite Hlen. change (negb (Z.of_nat 5 =? 5)) with false. cbv iota.
    set (h := bool_decide (String.get 0 line = Some "0"%char)).
    set (p := bool_decide (String.get 1 line = Some "0"%char)).
    set (r := bool_decide (String.get 2 line = Some "1"%char)).
    set (b := bool_decide (String.get 3 line = Some "1"%char)).
    destruct a as [h0 p0 r0 b0 ses lg]. cbn [ledHDDState ledPWRState btnRSTState
      btnPWRState currentSession scopedLogger fst snd].
    destruct h, h0, p, p0, r, r0, b, b0;
      cbn [Bool.eqb negb orb ledHDDState ledPWRState btnRSTState btnPWRState
           currentSession scopedLogger];
      (split; [reflexivity|split; [reflexivity|]]);
      unfold send; rewrite ?filter_app;
      first [ rewrite bool_decide_eq_true_2 by reflexivity; by rewrite app_nil_r
            | rewrite bool_decide_eq_false_2 by congruence; reflexivity ].
  - destruct (Z.eqb_spec (Z.of_nat (String.length line)) 5) as [E|E]; [lia|].
    cbn [negb]. cbn. repeat split. unfold send.
    by rewrite filter_app, app_nil_r.
Qed.

Lemma last_cons_default {A} (x d : A) (l : list A) :
  default d (last (x :: l)) = default x (last l).
Proof.
  destruct l as [|y l]; [done|]. rewrite last_cons_cons.
  destruct (proj2 (last_is_Some (y :: l))) as [z ->]; done.
Qed.

(** The loop over the lines read. *)
Lemma runATXControl_lines (lines : list string) (a : ATXControl) :
  let a' := foldl (fun a line => runATXControl_line line a) a lines in
  let valid := filter (fun l => String.length l = 5%nat) lines in
  atx_vars a' = default (atx_vars a) (last (atx_states <$> valid)) /\
  currentSession a'
  = (fun evs => evs ++ ((fun l => mkATXState (atx_states l).1.1.2 (atx_states l).1.1.1)
                          <$> valid)) <$> currentSession a /\
  length (filter is_status_changed (scopedLogger a'))
  = (length (filter is_status_changed (scopedLogger a))
     + changes (atx_vars a) (atx_states <$> valid))%nat.
Proof.
  cbn zeta. revert a. induction lines as [|l lines IH]; intros a.
  - cbn. split; [done|]. split; [|lia].
    destruct (currentSession a); cbn; by rewrite ?app_nil_r.
  - cbn [foldl]. destruct (IH (runATXControl_line l a)) as (IH1 & IH2 & IH3).
    pose proof (runATXControl_line_fields l a) as Hl. cbn zeta in Hl.
    case_bool_decide as Hlen.
    + destruct Hl as (Hv & Hs & Hlog).
      rewrite filter_cons_True by done. rewrite fmap_cons.
      rewrite IH1, IH2, IH3, Hv, Hs, Hlog. split; [|split].
      * by rewrite last_cons_default.
      * destruct (currentSession a); cbn; unfold send; by rewrite <- ?app_assoc.
      * cbn [changes]. rewrite length_app.
        destruct (bool_decide (atx_states l = atx_vars a)); cbn; lia.
    + destruct Hl as (Hv & Hs & Hlog).
      rewrite filter_cons_False by done.
      by rewrite IH1, IH2, IH3, Hv, Hs, Hlog.
Qed.

(** X24. The ATX state follows the serial line: whatever bytes the port
    delivers before a read fails, the four state variables end as the last
    line of exactly five bytes says (first two bytes: a LED is on when the
    byte is '0'; next two: a button is down when the byte is '1'; any other
    byte counts as off), or as they were when there is no such line; lines
    of another length change nothing; the session gets one [atxState] event
    per line of five bytes, in order, with the power and disk LEDs of that
    line; and "Status changed" is logged once for each line that differs
    from the state before it. *)
Theorem runATXControl_follows_the_line (stream : string) (a : ATXControl) :
  let a' := runATXControl stream a in
  let valid := filter (fun l => String.length l = 5%nat)
                 (ReadString_lines EmptyString stream) in
  atx_vars a' = default (atx_vars a) (last (atx_states <$> valid)) /\
  currentSession a'
  = (fun evs => evs ++ ((fun l => mkATXState (atx_states l).1.1.2 (atx_states l).1.1.1)
                          <$> valid)) <$> currentSession a /\
  length (filter is_status_changed (scopedLogger a'))
  = (length (filter is_status_changed (scopedLogger a))
     + changes (atx_vars a) (atx_states <$> valid))%nat /\
  last (scopedLogger a') = Some ErrorReading.
Proof.
  cbn zeta. unfold runATXControl.
  destruct (runATXControl_lines (ReadString_lines EmptyString stream) a)
    as (H1 & H2 & H3).
  set (a1 := foldl _ a _) in *.
  split; [exact H1|]. split; [exact H2|]. split.
  - cbn [scopedLogger]. unfold send. rewrite filter_app, length_app, H3.
    assert (filter is_status_changed [ErrorReading] = []) as -> by reflexivity.
    cbn [length]. lia.
  - cbn [scopedLogger]. unfold send. by rewrite last_snoc.
Qed.

Example runATXControl_example :
  let nl := String "010"%char EmptyString in
  let a := mkATXControl false false false false (Some []) [] in
  let a' := runATXControl ("0100" +:+ nl +:+ "junk" +:+ nl +:+ "1x01" +:+ nl
                           +:+ "toolong" +:+ nl +:+ "00") a in
  atx_vars a' = (false, false, false, true) /\
  currentSession a' = Some [mkATXState false true; mkATXState false false;
                            mkATXState false false].
Proof. vm_compute. done. Qed.

(* ===================================================================== *)
(** * Properties of the uinput backend after [Close] *)
(* ===================================================================== *)

Lemma keyboard_step_closed (c : keyboard_call) (u : UInputBackend) :
  fd u = None ->
  fd (keyboard_step c u) = None /\ ioctls (keyboard_step c u) = ioctls u /\
  closed (keyboard_step c u) = closed u.
Proof.
  intros Hfd.
  destruct c as [key press now|om ok modifier keys now|modifier keys];
    cbn [keyboard_step].
  - destruct (hidModifierToLinux !! key) as [code|] eqn:Hm;
      [|destruct (hidToLinux !! key) as [code|] eqn:Hk].
    + destruct (KeypressReport_modifier_fields key code press now u Hm)
        as (_ & Hfd' & _ & _ & Hio & Hcl & _).
      by rewrite Hfd', Hfd, Hio, Hcl.
    + destruct (KeypressReport_key_fields key code press now u Hk)
        as (_ & Hfd' & _ & _ & Hio & Hcl & _).
      by rewrite Hfd', Hfd, Hio, Hcl.
    + by rewrite KeypressReport_unmapped.
  - destruct (KeyboardReport_fields om ok modifier keys now u)
      as (_ & Hfd' & _ & _ & Hio & Hcl & _).
    by rewrite Hfd', Hfd, Hio, Hcl.
  - destruct (updateKeysDown_fields modifier keys u)
      as (_ & Hfd' & _ & _ & Hio & Hcl & _).
    unfold UpdateKeysDown. by rewrite Hfd', Hfd, Hio, Hcl.
Qed.

(** X25. After [Close]: the device is destroyed once and the file closed,
    whatever the system answers to the request (the error is dropped and
    [Close] returns nil); a second [Close] does nothing; and calls of
    [KeypressReport], [KeyboardReport] and [UpdateKeysDown] that come later
    return no error and reach the device with no event and no request,
    while the record of the keys that are down goes on following them. *)
Theorem Close_stops_injection
    (answer answer' : Z -> Z -> bool) (u : UInputBackend) (cs : list keyboard_call) :
  is_Some (fd u) ->
  let u1 := (Close answer u).1 in
  let u2 := keyboard_run cs u1 in
  (Close answer u).2 = None /\
  fd u1 = None /\ closed u1 = true /\
  ioctls u1 = ioctls u ++ [(UI_DEV_DESTROY, 0)] /\
  keysDownState u1 = keysDownState u /\
  Close answer' u1 = (u1, None) /\
  fd u2 = None /\ written u2 = [] /\ ioctls u2 = ioctls u1 /\
  (forall key press now, (KeypressReport key press now u2).2 = None) /\
  (forall om ok modifier keys now,
     (KeyboardReport om ok modifier keys now u2).2 = None) /\
  (forall modifier keys,
     keysDownState (UpdateKeysDown modifier keys u2).1
     = mkKeysDownState modifier (copy6 keys)).
Proof.
  intros [evs Hfd] u1 u2.
  assert (fd u1 = None /\ closed u1 = true /\
          ioctls u1 = ioctls u ++ [(UI_DEV_DESTROY, 0)] /\
          keysDownState u1 = keysDownState u) as (H1 & H2 & H3 & H4).
  { subst u1. unfold Close. rewrite Hfd. by destruct u. }
  assert (fd u2 = None /\ ioctls u2 = ioctls u1) as [H5 H6].
  { subst u2. revert H1. generalize u1. clear.
    induction cs as [|c cs IH]; intros u Hu; [done|].
    change (keyboard_run (c :: cs) u) with (keyboard_run cs (keyboard_step c u)).
    destruct (keyboard_step_closed c u Hu) as (Hfd & Hio & _).
    destruct (IH _ Hfd) as [-> ->]. done. }
  split; [unfold Close; by rewrite Hfd|].
  split; [done|]. split; [done|]. split; [done|]. split; [done|].
  split; [unfold Close; by rewrite H1|].
  split; [done|]. split; [unfold written; by rewrite H5|]. split; [done|].
  split; [|split].
  - intros key press now. unfold KeypressReport.
    destruct (hidModifierToLinux !! key); [done|]. by destruct (hidToLinux !! key).
  - done.
  - intros modifier keys. by destruct (updateKeysDown_fields modifier keys u2).
Qed.

Lemma Close_stops_injection_witness :
  let u := mkUInputBackend (Some []) None 0 (mkKeysDownState 0 [0; 0; 0; 0; 0; 0])
             0 [] false in
  written (keyboard_run [DoKeypress 4 true 1] (Close (fun _ _ => false) u).1) = [].
Proof.
  intros u.
  apply (Close_stops_injection (fun _ _ => false) (fun _ _ => true) u
           [DoKeypress 4 true 1]).
  by eexists.
Defined.
